(** * Smart WMS front end: the resilient request layer

    A shallow embedding of the two variants of [lib/api.ts]:
    - the bearer variant, whose request interceptor attaches
    [Authorization: Bearer <token>] read from [localStorage];
    - the session variant, whose request interceptor attaches a CSRF token
    to state-changing requests and whose response interceptor retries
    once after a 403.

    Asynchronous functions are state-passing computations over an abstract
    backend ([World]); a rejected promise is the [Err] result.  Every call
    that leaves the browser is appended to a trace kept beside the state,
    so that statements about "which network calls, in which order" are
    statements about that list. *)

From Stdlib Require Import ZArith NArith Ascii String List Lia DecimalString.
From Stdlib Require Decimal DecimalN DecimalPos.
From stdpp Require Import base option list strings gmap.

Local Open Scope string_scope.
Local Open Scope Z_scope.
Local Open Scope list_scope.

(** ** JavaScript primitives used by the client *)

Module JS.

(** Strings are sequences of 8-bit characters; the operations below follow
    the ECMAScript ones on ASCII text. *)

Definition is_upper (c : ascii) : bool :=
  (65 <=? nat_of_ascii c)%nat && (nat_of_ascii c <=? 90)%nat.
Definition is_lower (c : ascii) : bool :=
  (97 <=? nat_of_ascii c)%nat && (nat_of_ascii c <=? 122)%nat.

Definition upper_char (c : ascii) : ascii :=
  if is_lower c then ascii_of_nat (nat_of_ascii c - 32) else c.
Definition lower_char (c : ascii) : ascii :=
  if is_upper c then ascii_of_nat (nat_of_ascii c + 32) else c.

Fixpoint map_chars (f : ascii -> ascii) (s : string) : string :=
  match s with
  | EmptyString => EmptyString
  | String c r => String (f c) (map_chars f r)
  end.

(** [s.toUpperCase()] and [s.toLowerCase()] *)
Definition toUpperCase : string -> string := map_chars upper_char.
Definition toLowerCase : string -> string := map_chars lower_char.

(** [s.includes(c)] for a one-character needle *)
Fixpoint includes (c : ascii) (s : string) : bool :=
  match s with
  | EmptyString => false
  | String d r => if Ascii.eqb d c then true else includes c r
  end.

(** [s.split(c)] for a one-character separator: never the empty array. *)
Fixpoint split (c : ascii) (s : string) : list string :=
  match s with
  | EmptyString => [EmptyString]
  | String d r =>
      if Ascii.eqb d c then EmptyString :: split c r
      else match split c r with
           | [] => [String d EmptyString]
           | seg :: segs => String d seg :: segs
           end
  end.

(** [s.substring(0, n)] *)
Fixpoint substring0 (n : nat) (s : string) : string :=
  match n, s with
  | O, _ => EmptyString
  | _, EmptyString => EmptyString
  | S k, String c r => String c (substring0 k r)
  end.

(** Truthiness of a string, and [a || b] on strings. *)
Definition truthy (s : string) : bool :=
  match s with EmptyString => false | _ => true end.
Definition or_else (a b : string) : string := if truthy a then a else b.

(** *** Numbers

    A Number is [NaN], an infinity, or a finite value kept exactly as
    [(-1)^negative * mantissa * 10^exponent].  Rounding to the nearest
    double is not modelled; whether a string converts to [NaN] does not
    depend on it. *)

Inductive number : Type :=
| NaN
| Infinity (negative : bool)
| Finite (negative : bool) (mantissa : N) (exponent : Z).

Definition isNaN (n : number) : bool :=
  match n with NaN => true | _ => false end.

(** [n <= 0] *)
Definition le_zero (n : number) : bool :=
  match n with
  | NaN => false
  | Infinity neg => neg
  | Finite neg m _ => neg || (m =? 0)%N
  end.

(** [Number(z)] of a value that already is an integer Number *)
Definition of_Z (z : Z) : number := Finite (z <? 0) (Z.abs_N z) 0.

(** StrWhiteSpaceChar, ASCII part: TAB, LF, VT, FF, CR, SP. *)
Definition is_space (c : ascii) : bool :=
  let n := nat_of_ascii c in
  ((9 <=? n)%nat && (n <=? 13)%nat) || (n =? 32)%nat.

Fixpoint trim_start (l : list ascii) : list ascii :=
  match l with
  | c :: r => if is_space c then trim_start r else l
  | [] => []
  end.
Definition trim (l : list ascii) : list ascii :=
  rev (trim_start (rev (trim_start l))).

(** Value of a digit in a radix up to 16, if it is one. *)
Definition digit_value (radix : N) (c : ascii) : option N :=
  let n := N_of_ascii c in
  let v :=
    if (48 <=? n)%N && (n <=? 57)%N then Some (n - 48)%N
    else if (97 <=? n)%N && (n <=? 102)%N then Some (n - 87)%N
    else if (65 <=? n)%N && (n <=? 70)%N then Some (n - 55)%N
    else None in
  match v with
  | Some d => if (d <? radix)%N then Some d else None
  | None => None
  end.

(** Longest prefix of digits: accumulated value, how many, and the rest. *)
Fixpoint digits (radix : N) (acc : N) (count : nat) (l : list ascii)
  : N * nat * list ascii :=
  match l with
  | c :: r =>
      match digit_value radix c with
      | Some d => digits radix (acc * radix + d)%N (S count) r
      | None => (acc, count, l)
      end
  | [] => (acc, count, [])
  end.

(** NonDecimalIntegerLiteral after its two-character prefix: one digit or
    more, and nothing else. *)
Definition non_decimal (radix : N) (l : list ascii) : number :=
  match digits radix 0%N O l with
  | (v, S _, []) => Finite false v 0
  | _ => NaN
  end.

(** ExponentPart_opt at the end of a decimal literal. *)
Definition exponent_part (l : list ascii) : option Z :=
  match l with
  | [] => Some 0
  | c :: r =>
      if Ascii.eqb c "e" || Ascii.eqb c "E" then
        let '(neg, r') :=
          match r with
          | s :: r' =>
              if Ascii.eqb s "-" then (true, r')
              else if Ascii.eqb s "+" then (false, r')
              else (false, r)
          | [] => (false, r)
          end in
        match digits 10 0%N O r' with
        | (v, S _, []) => Some (if neg then - Z.of_N v else Z.of_N v)
        | _ => None
        end
      else None
  end.

(** StrUnsignedDecimalLiteral *)
Definition unsigned_decimal (neg : bool) (l : list ascii) : number :=
  if String.eqb (string_of_list_ascii l) "Infinity" then Infinity neg
  else
    let '(ip, ni, r1) := digits 10 0%N O l in
    match r1 with
    | c :: r2 =>
        if Ascii.eqb c "." then
          let '(m, nf, r3) := digits 10 ip O r2 in
          match ni, nf with
          | O, O => NaN
          | _, _ =>
              match exponent_part r3 with
              | Some e => Finite neg m (e - Z.of_nat nf)
              | None => NaN
              end
          end
        else
          match ni with
          | O => NaN
          | _ => match exponent_part r1 with
                 | Some e => Finite neg ip e
                 | None => NaN
                 end
          end
    | [] => match ni with O => NaN | _ => Finite neg ip 0 end
    end.

(** StringToNumber: [Number(s)] for a string [s]. *)
Definition string_to_number (s : string) : number :=
  match trim (list_ascii_of_string s) with
  | [] => Finite false 0 0
  | c :: r =>
      let prefixed :=
        match r with
        | x :: d =>
            if Ascii.eqb c "0" then
              if Ascii.eqb x "x" || Ascii.eqb x "X" then Some (non_decimal 16 d)
              else if Ascii.eqb x "o" || Ascii.eqb x "O" then Some (non_decimal 8 d)
              else if Ascii.eqb x "b" || Ascii.eqb x "B" then Some (non_decimal 2 d)
              else None
            else None
        | [] => None
        end in
      match prefixed with
      | Some n => n
      | None =>
          if Ascii.eqb c "-" then unsigned_decimal true r
          else if Ascii.eqb c "+" then unsigned_decimal false r
          else unsigned_decimal false (c :: r)
      end
  end.

(** [Number(v)] where [v] may be [undefined] (an array index out of range) *)
Definition Number (v : option string) : number :=
  match v with
  | Some s => string_to_number s
  | None => NaN
  end.

Definition decimal (n : N) : string := NilZero.string_of_uint (N.to_uint n).

(** Decimal digits of [n], left-padded with zeros to [width]. *)
Definition padded (width : nat) (n : N) : string :=
  let d := NilEmpty.string_of_uint (N.to_uint n) in
  string_of_list_ascii (repeat "0"%char (width - String.length d)) +:+ d.

Fixpoint strip_zeros (l : list ascii) : list ascii :=
  match l with
  | c :: r => if Ascii.eqb c "0" then strip_zeros r else l
  | [] => []
  end.

(** Number::toString, as a template literal applies it.  Exact for every
    integer below 2^53 in magnitude and for short decimal fractions; beyond
    21 digits and below 1e-6 JavaScript switches to exponent notation,
    which this rendering does not follow. *)
Definition toString (n : number) : string :=
  match n with
  | NaN => "NaN"
  | Infinity false => "Infinity"
  | Infinity true => "-Infinity"
  | Finite neg m e =>
      if (m =? 0)%N then "0"
      else
        let sign := if neg then "-" else "" in
        if 0 <=? e then sign +:+ decimal (m * 10 ^ Z.to_N e)
        else
          let k := Z.to_N (- e) in
          let whole := (m / 10 ^ k)%N in
          let frac := (m mod 10 ^ k)%N in
          if (frac =? 0)%N then sign +:+ decimal whole
          else
            let f := rev (strip_zeros (rev (list_ascii_of_string (padded (N.to_nat k) frac)))) in
            sign +:+ decimal whole +:+ "." +:+ string_of_list_ascii f
  end.

(** [`${z}`] for an integer Number *)
Definition toString_Z (z : Z) : string := toString (of_Z z).

End JS.

(** ** Requests, responses, failures *)

(** A query-parameter value: [Date.now()] or a literal string. *)
Inductive param : Type :=
| PNum (n : Z)
| PStr (s : string).

(** A request body.  [Partial<InOutRecord>] is relayed without being read
    and kept as its JSON text. *)
Inductive body : Type :=
| NoBody
| StatusBody (status : string)        (* [{ status }] *)
| RecordBody (json : string).

Module UserResponse.
(** [lastLogin] and [joinedAt] are [None] when the object has no such
    property. *)
Record t : Type := mk {
    userId : Z; username : string; email : string; fullName : string;
    role : string; status : string;
    lastLogin : option string; joinedAt : option string }.
End UserResponse.

Module InOutOrderItemResponse.
Record t : Type := mk {
    itemId : Z; itemCode : string; itemName : string; specification : string;
    requestedQuantity : Z }.
End InOutOrderItemResponse.

Module InOutOrderResponse.
Record t : Type := mk {
    orderId : Z; type : string; status : string;
    companyCode : string; companyName : string;
    items : list InOutOrderItemResponse.t;
    createdAt : string; updatedAt : string }.
End InOutOrderResponse.

Module BackendInventoryResponse.
Record t : Type := mk {
    itemId : Z; itemName : string; locationCode : string; quantity : Z;
    lastUpdated : string }.
End BackendInventoryResponse.

(** What a response carries in [data].  Payloads the client reads are typed
    by the interface their accessor declares; payloads it only relays are
    kept as JSON text. *)
Inductive payload : Type :=
| Undefined
| Null
| Opaque (json : string)
| Users (l : list UserResponse.t)
| Orders (l : list InOutOrderResponse.t)
| Inventory (l : list BackendInventoryResponse.t)
| Dashboard (items users orders inventory schedules summary : payload).

Module Config.
(** The fields of an axios request configuration the client touches. *)
Record t : Type := mk {
    url : string;
    method : option string;
    params : gmap string param;
    headers : gmap string string;
    data : body;
    _retriedOnce : bool }.
End Config.

Module Response.
Record t : Type := mk { status : Z; data : payload }.
End Response.

(** What the transport does with a request: no response at all, or an HTTP
    response of any status. *)
Inductive outcome : Type :=
| NetworkError
| Responded (r : Response.t).

(** What [fetch(url, { credentials: 'include' })] does: it rejects, or it
    resolves to a response whose [json()] either rejects ([None]) or yields
    an object whose [token] property is read ([Some None] when there is
    none). *)
Module FetchResponse.
Record t : Type := mk { ok : bool; json : option (option string) }.
End FetchResponse.

Inductive fetch_outcome : Type :=
| FetchRejected
| FetchResolved (r : FetchResponse.t).

Inductive error : Type :=
| AxiosError (config : Config.t) (response : option Response.t)
| Error (message : string)            (* [new Error(message)] *)
| TypeError (message : string)        (* thrown by the runtime *)
| SyntaxError (message : string)      (* [response.json()] on a body that is not JSON *)
| OutOfFuel.                          (* the model's recursion bound *)

(** [error.config] and [error.response?.status] *)
Definition error_config (e : error) : option Config.t :=
  match e with AxiosError c _ => Some c | _ => None end.
Definition error_status (e : error) : option Z :=
  match e with AxiosError _ (Some r) => Some (Response.status r) | _ => None end.
Definition has_status (code : Z) (e : error) : bool :=
  match error_status e with Some s => s =? code | None => false end.

(** Everything that leaves the browser. *)
Inductive event : Type :=
| Http (config : Config.t)
| Fetch (url : string).

Definition https (tr : list event) : list Config.t :=
  omap (fun ev => match ev with Http c => Some c | Fetch _ => None end) tr.
Definition fetches (tr : list event) : list string :=
  omap (fun ev => match ev with Fetch u => Some u | Http _ => None end) tr.

(** The world outside the client: the backend behind the transport, the
    clock, and the locale formatting of [Date]. *)
Class Environment : Type := {
  World : Type;
  adapter : Config.t -> World -> outcome * World;
  fetch : string -> World -> fetch_outcome * World;
  Date_now : World -> Z;
  toISOString : Z -> string;                (* [new Date(ms).toISOString()] *)
  toLocaleString : string -> string;        (* [new Date(s).toLocaleString('ko-KR')] *)
  toLocaleStringShort : string -> string;   (* ... with the 2-digit options *)
  toLocaleDateString : string -> string;    (* [new Date(s).toLocaleDateString('ko-KR')] *)
  nowLocaleDateString : Z -> string;        (* [new Date().toLocaleDateString('ko-KR')] *)
}.

(** ** Asynchronous computations *)

Inductive result (A : Type) : Type :=
| Ok (a : A)
| Err (e : error).
Arguments Ok {A} a.
Arguments Err {A} e.

Section Async.
Context {env : Environment}.

(** Process-wide state: [localStorage.getItem('authToken')] ([None] also
    where there is no [window]), the module variable [CSRF_TOKEN], and the
    trace of calls issued so far. *)
Record State : Type := mkState {
    world : World;
    authToken : option string;
    CSRF_TOKEN : option string;
    trace : list event }.

Definition Async (A : Type) : Type := State -> result A * State.

Definition ret {A} (a : A) : Async A := fun s => (Ok a, s).
Definition throw {A} (e : error) : Async A := fun s => (Err e, s).
Definition bind {A B} (m : Async A) (k : A -> Async B) : Async B :=
    fun s => match m s with
             | (Ok a, s') => k a s'
             | (Err e, s') => (Err e, s')
             end.
(** [try { m } catch (e) { h(e) }] *)
Definition try_catch {A} (m : Async A) (h : error -> Async A) : Async A :=
    fun s => match m s with
             | (Ok a, s') => (Ok a, s')
             | (Err e, s') => h e s'
             end.

Definition get_now : Async Z := fun s => (Ok (Date_now (world s)), s).
Definition get_CSRF_TOKEN : Async (option string) := fun s => (Ok (CSRF_TOKEN s), s).
Definition set_CSRF_TOKEN (t : option string) : Async unit :=
    fun s => (Ok tt, mkState (world s) (authToken s) t (trace s)).
Definition get_authToken : Async (option string) := fun s => (Ok (authToken s), s).

(** [validateStatus]: axios resolves for 2xx and rejects otherwise. *)
Definition settle (config : Config.t) (o : outcome) : result Response.t :=
    match o with
    | NetworkError => Err (AxiosError config None)
    | Responded r =>
        if (200 <=? Response.status r) && (Response.status r <? 300) then Ok r
        else Err (AxiosError config (Some r))
    end.

(** Hand a request to the transport. *)
Definition dispatchRequest (config : Config.t) : Async Response.t :=
    fun s =>
      let '(o, w) := adapter config (world s) in
      (settle config o, mkState w (authToken s) (CSRF_TOKEN s) (trace s ++ [Http config])).

(** [await fetch(url, { credentials: 'include' })] *)
Definition do_fetch (url : string) : Async FetchResponse.t :=
    fun s =>
      let '(o, w) := fetch url (world s) in
      let s' := mkState w (authToken s) (CSRF_TOKEN s) (trace s ++ [Fetch url]) in
      match o with
      | FetchRejected => (Err (TypeError "Failed to fetch"), s')
      | FetchResolved r => (Ok r, s')
      end.
End Async.

Declare Scope async_scope.
Delimit Scope async_scope with async.
Notation "'let*' x ':=' m 'in' k" := (bind m (fun x => k))
  (at level 10, x name, m at level 100, k at level 200) : async_scope.
Notation "m ';;' k" := (bind m (fun _ => k))
  (at level 100, k at level 200, right associativity) : async_scope.
Local Open Scope async_scope.

(** The instance defaults of [axios.create]. *)
Definition default_headers : gmap string string :=
  {[ "Content-Type" := "application/json"; "Accept" := "application/json" ]}.

(** [apiClient.get/put/patch/post/delete(url, data, { params })]: the
    configuration handed to the interceptors, instance defaults merged. *)
Definition request (method url : string) (params : gmap string param) (data : body) : Config.t :=
  Config.mk url (Some method) params default_headers data false.

(** The cache-busting assignment
    [config.params = { ...(config.params || {}), _t: Date.now() }]. *)
Definition with_timestamp (now : Z) (config : Config.t) : Config.t :=
  Config.mk (Config.url config) (Config.method config)
            (<["_t" := PNum now]> (Config.params config))
            (Config.headers config) (Config.data config) (Config._retriedOnce config).

(** [config.headers = { ...config.headers, [name]: value }] *)
Definition with_header (name value : string) (config : Config.t) : Config.t :=
  Config.mk (Config.url config) (Config.method config) (Config.params config)
            (<[name := value]> (Config.headers config))
            (Config.data config) (Config._retriedOnce config).

Definition with_retried (config : Config.t) : Config.t :=
  Config.mk (Config.url config) (Config.method config) (Config.params config)
            (Config.headers config) (Config.data config) true.

(** ** The bearer variant ([src/lib/api.ts]) *)

Module Bearer.
Section Pipeline.
Context {env : Environment}.

(** [apiClient.interceptors.request.use((config) => ...)] *)
Definition request_interceptor (config : Config.t) : Async Config.t :=
    let* token := get_authToken in
    let config :=
      match token with
      | Some t => if JS.truthy t then with_header "Authorization" ("Bearer " +:+ t) config
                  else config
      | None => config
      end in
    let* now := get_now in
    ret (with_timestamp now config).

(** A call of the axios instance: request interceptor, then transport. *)
Definition apiClient (config : Config.t) : Async Response.t :=
    let* config := request_interceptor config in
    dispatchRequest config.

(** The configuration the pipeline transmits for [config] from state [s]. *)
Definition outgoing (s : State) (config : Config.t) : Config.t :=
    with_timestamp (Date_now (world s))
      (match authToken s with
       | Some t => if JS.truthy t then with_header "Authorization" ("Bearer " +:+ t) config
                   else config
       | None => config
       end).
End Pipeline.
End Bearer.

(** ** The session variant: CSRF token injection and the 403 retry *)

Module Session.
Section Pipeline.
Context {env : Environment}.

(** [(m || 'GET')] *)
Definition method_or_GET (m : option string) : string :=
    match m with
    | Some s => JS.or_else s "GET"
    | None => "GET"
    end.

Definition isSafeMethod (m : option string) : bool :=
    bool_decide (JS.toUpperCase (method_or_GET m) ∈ ["GET"; "HEAD"; "OPTIONS"]).

(** [if (r.ok) { const j = await r.json(); if (j?.token) return j.token; }]:
    the token when the block returns, [None] when it falls through. *)
Definition read_token (r : FetchResponse.t) : Async (option string) :=
    if FetchResponse.ok r then
      match FetchResponse.json r with
      | None => throw (SyntaxError "Unexpected token")
      | Some (Some t) => ret (if JS.truthy t then Some t else None)
      | Some None => ret None
      end
    else ret None.

Definition fetchCsrfToken : Async string :=
    let* first :=
      try_catch (let* r1 := do_fetch "/api/csrf" in read_token r1)
                (fun _ => ret None) in
    match first with
    | Some token => ret token
    | None =>
        let* r2 := do_fetch "/csrf" in
        let* second := read_token r2 in
        match second with
        | Some token => ret token
        | None => throw (Error "CSRF token endpoint not reachable")
        end
    end.

(** The token a token endpoint's answer yields, if any. *)
Definition usable (o : fetch_outcome) : option string :=
    match o with
    | FetchResolved r =>
        if FetchResponse.ok r then
          match FetchResponse.json r with
          | Some (Some t) => if JS.truthy t then Some t else None
          | _ => None
          end
        else None
    | FetchRejected => None
    end.

(** How acquisition fails after an answer of the second endpoint that
    yields no token. *)
Definition secondary_failure (o : fetch_outcome) : error :=
    match o with
    | FetchRejected => TypeError "Failed to fetch"
    | FetchResolved r =>
        if FetchResponse.ok r then
          match FetchResponse.json r with
          | None => SyntaxError "Unexpected token"
          | Some _ => Error "CSRF token endpoint not reachable"
          end
        else Error "CSRF token endpoint not reachable"
    end.

(** [!CSRF_TOKEN] *)
Definition no_token (t : option string) : bool :=
    match t with
    | Some s => negb (JS.truthy s)
    | None => true
    end.

(** [apiClient.interceptors.request.use(async (config) => ...)] *)
Definition request_interceptor (config : Config.t) : Async Config.t :=
    let* now := get_now in
    let config := with_timestamp now config in
    if negb (isSafeMethod (Config.method config)) then
      let* cached := get_CSRF_TOKEN in
      let* token :=
        (if no_token cached then
           let* t := fetchCsrfToken in
           set_CSRF_TOKEN (Some t);; ret t
         else ret (default "" cached)) in
      ret (with_header "X-CSRF-TOKEN" token config)
    else ret config.

(** [original._retriedOnce = true] assigns to the very object the error
    holds as its [config]: an error thrown after that shows the mark. *)
Definition mark_retried (e : error) : error :=
    match e with
    | AxiosError config response => AxiosError (with_retried config) response
    | _ => e
    end.

(** The rejection handler of [apiClient.interceptors.response.use]; [again]
    is the axios instance itself.  The promise of [again original] is
    returned without being awaited, so its rejection is not caught by the
    surrounding [try]. *)
Definition response_rejected (again : Config.t -> Async Response.t) (e : error)
    : Async Response.t :=
    match error_config e with
    | Some original =>
        if has_status 403 e && negb (Config._retriedOnce original)
           && negb (isSafeMethod (Config.method original)) then
          let* prepared :=
            try_catch
              (let original := with_retried original in
               set_CSRF_TOKEN None;;
               let* t := fetchCsrfToken in
               set_CSRF_TOKEN (Some t);;
               ret (Some (with_header "X-CSRF-TOKEN" t original)))
              (fun _ => ret None) in
          match prepared with
          | Some original => again original
          | None => throw (mark_retried e)
          end
        else throw e
    | None => throw e
    end.

(** One transmission: request interceptor, then transport. *)
Definition attempt (config : Config.t) : Async Response.t :=
    let* config := request_interceptor config in
    dispatchRequest config.

(** A call of the axios instance.  The instance calls itself from its own
    rejection handler; [fuel] bounds that recursion. *)
Fixpoint apiClient_rec (fuel : nat) (config : Config.t) : Async Response.t :=
    match fuel with
    | O => throw OutOfFuel
    | S fuel => try_catch (attempt config) (response_rejected (apiClient_rec fuel))
    end.

(** Two levels are all the handler ever uses (lemma [apiClient_fuel]). *)
Definition apiClient : Config.t -> Async Response.t := apiClient_rec 2.
End Pipeline.
End Session.

(** ** Resource accessors

    The two variants share the accessors below up to the texts of their
    error messages; they are written once over the instance they call. *)

Module User.
(** The front-end user, as [fetchUsers] builds it. *)
Record t : Type := mk {
    id : Z; username : string; email : string; fullName : string;
    role : string; status : string; lastLogin : string; createdAt : string }.
End User.

Module InOutRecord.
Record t : Type := mk {
    id : string; type : string; productName : string; sku : string;
    individualCode : string; specification : string; quantity : Z;
    location : string; company : string; companyCode : string;
    status : string; destination : string;
    date : string; time : string; notes : string }.
End InOutRecord.

Module InventoryItem.
Record t : Type := mk {
    id : Z; name : string; sku : string; specification : string;
    quantity : Z; inboundScheduled : Z; outboundScheduled : Z;
    location : string; status : string; lastUpdate : string }.
End InventoryItem.

Module DashboardData.
Record t : Type := mk {
    items : payload; users : payload; orders : payload;
    inventory : payload; schedules : payload; summary : payload;
    totalLoadTime : Z }.
End DashboardData.

(** An identifier argument of type [string | number]. *)
Inductive id_arg : Type :=
| IdString (s : string)
| IdNumber (n : JS.number).

Record Messages : Type := {
  invalid_status_update : string;
  invalid_cancellation : string;
  invalid_record_update : string;
  invalid_item_delete : string;       (* followed by the identifier *)
}.

Module Accessors.
Section Accessors.
Context {env : Environment}.
Variable apiClient : Config.t -> Async Response.t.
Variable msg : Messages.

Definition handleResponse (response : Response.t) : Async payload :=
    ret (Response.data response).

Definition http_get (url : string) : Async Response.t :=
    apiClient (request "get" url ∅ NoBody).
Definition http_put (url : string) (data : body) : Async Response.t :=
    apiClient (request "put" url ∅ data).
Definition http_patch (url : string) (data : body) : Async Response.t :=
    apiClient (request "patch" url ∅ data).
Definition http_delete (url : string) : Async Response.t :=
    apiClient (request "delete" url ∅ NoBody).

(** *** Orders addressed by a composite identifier *)

Definition order_path (n : JS.number) (suffix : string) : string :=
    "/api/inout/orders/" +:+ JS.toString n +:+ suffix.

Definition updateOrderStatus (orderId status : string) : Async payload :=
    let numericOrderId := JS.Number (JS.split "-" orderId !! 0%nat) in
    if JS.isNaN numericOrderId then throw (Error (invalid_status_update msg))
    else
      let* response := http_put (order_path numericOrderId "/status")
                                (StatusBody (JS.toUpperCase status)) in
      handleResponse response.

Definition cancelInOutOrder (orderId : id_arg) : Async payload :=
    let numericOrderId :=
      match orderId with
      | IdString s => JS.Number (JS.split "-" s !! 0%nat)
      | IdNumber n => n
      end in
    if JS.isNaN numericOrderId then throw (Error (invalid_cancellation msg))
    else
      let* response := http_put (order_path numericOrderId "/cancel") NoBody in
      handleResponse response.

Definition updateInOutRecord (id : string) (recordData : body) : Async payload :=
    let orderId := if JS.includes "-" id then JS.split "-" id !! 0%nat else Some id in
    let numericOrderId := JS.Number orderId in
    if JS.isNaN numericOrderId then throw (Error (invalid_record_update msg))
    else
      try_catch
        (let* response := http_put (order_path numericOrderId "/status") recordData in
         handleResponse response)
        (fun error =>
           if has_status 405 error then
             try_catch
               (let* response := http_patch (order_path numericOrderId "") recordData in
                handleResponse response)
               (fun error2 =>
                  if has_status 405 error2 then
                    let* response := http_put (order_path numericOrderId "") recordData in
                    handleResponse response
                  else throw error2)
           else throw error).

(** *** Items: the delete accessor also refuses identifiers [<= 0] *)

Definition deleteItem (id : id_arg) : Async unit :=
    let numericId := match id with
                     | IdString s => JS.string_to_number s
                     | IdNumber n => n
                     end in
    if JS.isNaN numericId || JS.le_zero numericId then
      throw (Error (invalid_item_delete msg +:+
                    match id with IdString s => s | IdNumber n => JS.toString n end))
    else
      http_delete ("/api/items/" +:+ JS.toString numericId);; ret tt.

Definition fetchItems : Async payload :=
    let* response := http_get "/api/items" in handleResponse response.

(** *** In/out orders *)

Definition fetchRawInOutData : Async payload :=
    let* response := http_get "/api/inout/orders" in handleResponse response.

(** The record built for line item [itemIndex] of [record]; [nowISO] is
    [new Date().toISOString()]. *)
Definition to_record (nowISO : string) (record : InOutOrderResponse.t)
             (itemIndex : nat) (item : InOutOrderItemResponse.t) : InOutRecord.t :=
    let dateTime :=
      JS.or_else (InOutOrderResponse.createdAt record)
                 (JS.or_else (InOutOrderResponse.updatedAt record) nowISO) in
    let date := default "" (JS.split "T" dateTime !! 0%nat) in
    let time :=
      JS.or_else (default "" (JS.substring0 8 <$> JS.split "T" dateTime !! 1%nat))
                 "00:00:00" in
    InOutRecord.mk
      (JS.toString_Z (InOutOrderResponse.orderId record) +:+ "-" +:+ JS.toString_Z (Z.of_nat itemIndex))
      (JS.or_else (JS.toLowerCase (InOutOrderResponse.type record)) "inbound")
      (JS.or_else (InOutOrderItemResponse.itemName item) "N/A")
      (JS.or_else (InOutOrderItemResponse.itemCode item) "N/A")
      ("ORDER-" +:+ JS.toString_Z (InOutOrderResponse.orderId record) +:+ "-"
         +:+ JS.toString_Z (InOutOrderItemResponse.itemId item))
      (JS.or_else (InOutOrderItemResponse.specification item) "N/A")
      (if InOutOrderItemResponse.requestedQuantity item =? 0 then 0
       else InOutOrderItemResponse.requestedQuantity item)
      "A-01"
      (JS.or_else (InOutOrderResponse.companyName record) "N/A")
      (JS.or_else (InOutOrderResponse.companyCode record) "N/A")
      (if String.eqb (InOutOrderResponse.status record) "COMPLETED" then "완료" else "진행 중")
      "-" date time "-".

Definition transform_orders (nowISO : string) (allData : list InOutOrderResponse.t)
    : list InOutRecord.t :=
    let completedData :=
      filter (fun record => InOutOrderResponse.status record = "COMPLETED") allData in
    flat_map (fun record => imap (to_record nowISO record) (InOutOrderResponse.items record))
             completedData.

Definition fetchInOutData : Async (list InOutRecord.t) :=
    let* allData := fetchRawInOutData in
    match allData with
    | Orders l =>
        let* now := get_now in
        ret (transform_orders (toISOString now) l)
    | _ => throw (TypeError "allData.filter is not a function")
    end.

(** *** Inventory *)

Definition fetchRawInventoryData : Async payload :=
    let* response := http_get "/api/inventory" in handleResponse response.

Definition stock_status (quantity : Z) : string :=
    if quantity <=? 0 then "위험"
    else if quantity <=? 10 then "부족"
    else "정상".

Definition to_inventory_item (index : nat) (backendItem : BackendInventoryResponse.t)
    : InventoryItem.t :=
    InventoryItem.mk
      (Z.of_nat index + 1)
      (BackendInventoryResponse.itemName backendItem)
      ("SKU-" +:+ JS.toString_Z (BackendInventoryResponse.itemId backendItem))
      "N/A"
      (BackendInventoryResponse.quantity backendItem)
      0 0
      (BackendInventoryResponse.locationCode backendItem)
      (stock_status (BackendInventoryResponse.quantity backendItem))
      (toLocaleString (BackendInventoryResponse.lastUpdated backendItem)).

Definition fetchInventoryData : Async (list InventoryItem.t) :=
    let* backendData := fetchRawInventoryData in
    match backendData with
    | Undefined | Null => ret []
    | Inventory l =>
        match l with
        | [] => ret []
        | _ => ret (imap to_inventory_item l)
        end
    | _ => throw (TypeError "backendData.map is not a function")
    end.

(** *** Schedules, summary, users *)

(** [fetchSchedules()] without dates: [params] is the empty object. *)
Definition fetchSchedules : Async payload :=
    let* response := http_get "/api/schedules" in handleResponse response.

Definition fetchDashboardSummary : Async payload :=
    let* response := http_get "/api/dashboard/summary" in handleResponse response.

Definition to_user (now : Z) (user : UserResponse.t) : User.t :=
    User.mk
      (UserResponse.userId user) (UserResponse.username user) (UserResponse.email user)
      (UserResponse.fullName user) (UserResponse.role user) (UserResponse.status user)
      (match UserResponse.lastLogin user with
       | Some s => if JS.truthy s then toLocaleStringShort s else "접속 기록 없음"
       | None => "접속 기록 없음"
       end)
      (match UserResponse.joinedAt user with
       | Some s => if JS.truthy s then toLocaleDateString s else nowLocaleDateString now
       | None => nowLocaleDateString now
       end).

Definition fetchUsers : Async (list User.t) :=
    let* response := http_get "/api/users" in
    let* backendUsers := handleResponse response in
    match backendUsers with
    | Users l => let* now := get_now in ret (map (to_user now) l)
    | _ => throw (TypeError "backendUsers.map is not a function")
    end.

(** *** The dashboard fallback *)

(** Two promises of a [Promise.all]: both are started, and the aggregate
    rejects when either does.  Calls are recorded in array order; of two
    rejections the one earlier in the array is reported. *)
Definition both {A B} (m1 : Async A) (m2 : Async B) : Async (A * B) :=
    fun s =>
      let '(r1, s1) := m1 s in
      let '(r2, s2) := m2 s1 in
      (match r1, r2 with
       | Ok a, Ok b => Ok (a, b)
       | Err e, _ => Err e
       | Ok _, Err e => Err e
       end, s2).

(** [Promise.all([fetchItems(), fetchUsers(), fetchRawInOutData(),
    fetchRawInventoryData(), fetchSchedules(), fetchDashboardSummary()])] *)
Definition fetch_all_six
    : Async (payload * (list User.t * (payload * (payload * (payload * payload))))) :=
    both fetchItems (both fetchUsers (both fetchRawInOutData
      (both fetchRawInventoryData (both fetchSchedules fetchDashboardSummary)))).

(** [u => ({ userId: u.id, username: u.username, email: u.email,
    fullName: u.fullName, role: u.role, status: u.status })] *)
Definition to_dashboard_user (u : User.t) : UserResponse.t :=
    UserResponse.mk (User.id u) (User.username u) (User.email u) (User.fullName u)
                    (User.role u) (User.status u) None None.

Definition assemble
             (r : payload * (list User.t * (payload * (payload * (payload * payload)))))
             (loadTime : Z) : DashboardData.t :=
    let '(items, (users, (orders, (inventory, (schedules, summary))))) := r in
    DashboardData.mk items (Users (map to_dashboard_user users)) orders inventory
                     schedules summary loadTime.

(** [{ ...data, totalLoadTime: loadTime }]; a payload that is not a
    dashboard object contributes none of the six collections. *)
Definition spread_with_time (data : payload) (loadTime : Z) : DashboardData.t :=
    match data with
    | Dashboard items users orders inventory schedules summary =>
        DashboardData.mk items users orders inventory schedules summary loadTime
    | _ => DashboardData.mk Undefined Undefined Undefined Undefined Undefined Undefined loadTime
    end.
End Accessors.
End Accessors.

Module BearerApi.
Section Api.
Context {env : Environment}.

Definition messages : Messages :=
    {| invalid_status_update := "Invalid order ID";
       invalid_cancellation := "Invalid order ID";
       invalid_record_update := "Invalid InOut record ID";
       invalid_item_delete := "Invalid item ID: " |}.

Definition updateOrderStatus := Accessors.updateOrderStatus Bearer.apiClient messages.
Definition cancelInOutOrder := Accessors.cancelInOutOrder Bearer.apiClient messages.
Definition updateInOutRecord := Accessors.updateInOutRecord Bearer.apiClient messages.
Definition deleteItem := Accessors.deleteItem Bearer.apiClient messages.
Definition fetchInOutData := Accessors.fetchInOutData Bearer.apiClient.
Definition fetchInventoryData := Accessors.fetchInventoryData Bearer.apiClient.

Definition fetchDashboardAll : Async DashboardData.t :=
    let* start := get_now in
    try_catch
      (let* res := Accessors.http_get Bearer.apiClient "/api/dashboard/all" in
       let* data := Accessors.handleResponse res in
       let* now := get_now in
       ret (Accessors.spread_with_time data (now - start)))
      (fun e =>
         let* r := Accessors.fetch_all_six Bearer.apiClient in
         let* now := get_now in
         ret (Accessors.assemble r (now - start))).
End Api.
End BearerApi.

Module SessionApi.
Section Api.
Context {env : Environment}.

Definition messages : Messages :=
    {| invalid_status_update := "Invalid order ID provided for status update.";
       invalid_cancellation := "Invalid order ID provided for cancellation.";
       invalid_record_update := "Invalid InOut record ID provided for update.";
       invalid_item_delete := "Invalid item ID provided for delete: " |}.

Definition updateOrderStatus := Accessors.updateOrderStatus Session.apiClient messages.
Definition cancelInOutOrder := Accessors.cancelInOutOrder Session.apiClient messages.
Definition updateInOutRecord := Accessors.updateInOutRecord Session.apiClient messages.
Definition deleteItem := Accessors.deleteItem Session.apiClient messages.
Definition fetchInOutData := Accessors.fetchInOutData Session.apiClient.
Definition fetchInventoryData := Accessors.fetchInventoryData Session.apiClient.

Definition fetchDashboardAllFallback : Async DashboardData.t :=
    let* startTime := get_now in
    try_catch
      (let* r := Accessors.fetch_all_six Session.apiClient in
       let* now := get_now in
       let loadTime := now - startTime in
       ret (Accessors.assemble r loadTime))
      (fun error => throw error).

Definition fetchDashboardAll : Async DashboardData.t :=
    let* startTime := get_now in
    try_catch
      (let* response := Accessors.http_get Session.apiClient "/api/dashboard/all" in
       let* data := Accessors.handleResponse response in
       let* now := get_now in
       let loadTime := now - startTime in
       ret (Accessors.spread_with_time data loadTime))
      (fun error => fetchDashboardAllFallback).
End Api.
End SessionApi.

(** ** Vocabulary of the statements *)

(** [response.data] of a settled call *)
Definition data_of (r : result Response.t) : result payload :=
  match r with
  | Ok response => Ok (Response.data response)
  | Err e => Err e
  end.

Definition is_ok {A} (r : result A) : bool :=
  match r with Ok _ => true | Err _ => false end.

(** A call rejected with an HTTP response of status [code]. *)
Definition rejected_with (code : Z) {A} (r : result A) : bool :=
  match r with
  | Err e => has_status code e
  | Ok _ => false
  end.

(** The transport answered with status [code]. *)
Definition responded_with (code : Z) (o : outcome) : bool :=
  match o with
  | Responded r => Response.status r =? code
  | NetworkError => false
  end.

(** The leading segment of a composite identifier, as each accessor reads it. *)
Definition leading_number (id : string) : JS.number :=
  JS.Number (JS.split "-" id !! 0%nat).

(** The three requests of the verb fallback for order [n]. *)
Definition status_put (n : JS.number) (data : body) : Config.t :=
  request "put" (Accessors.order_path n "/status") ∅ data.
Definition base_patch (n : JS.number) (data : body) : Config.t :=
  request "patch" (Accessors.order_path n "") ∅ data.
Definition base_put (n : JS.number) (data : body) : Config.t :=
  request "put" (Accessors.order_path n "") ∅ data.

(** [CSRF_TOKEN = t] *)
Definition set_token {env : Environment} (t : option string) (s : State) : State :=
  mkState (world s) (authToken s) t (trace s).

(** The state once [c] has been handed to the transport from [s]. *)
Definition after {env : Environment} (s : State) (c : Config.t) : State :=
  mkState (adapter c (world s)).2 (authToken s) (CSRF_TOKEN s) (trace s ++ [Http c]).

(** What the session pipeline transmits for a state-changing [config] when
    [t] is the token it attaches. *)
Definition session_outgoing {env : Environment} (s : State) (t : string)
           (config : Config.t) : Config.t :=
  with_header "X-CSRF-TOKEN" t (with_timestamp (Date_now (world s)) config).

(** Everything of a request but its headers and its [_t] parameter is as in
    [config], and [_t] is [now]. *)
Definition same_request (now : Z) (config c : Config.t) : Prop :=
  Config.url c = Config.url config
  ∧ Config.method c = Config.method config
  ∧ Config.data c = Config.data config
  ∧ Config._retriedOnce c = Config._retriedOnce config
  ∧ Config.params c = <["_t" := PNum now]> (Config.params config).

(** [s.includes(needle)] *)
Fixpoint includes_text (needle s : string) {struct s} : bool :=
  String.prefix needle s
  || match s with
     | EmptyString => false
     | String _ r => includes_text needle r
     end.

(** A request on the wire carries the cache-busting parameter: a request
    of the instance among its [params], a plain [fetch] in the text of its
    URL. *)
Definition carries_timestamp (ev : event) : Prop :=
  match ev with
  | Http c => ∃ now, Config.params c !! "_t" = Some (PNum now)
  | Fetch url => includes_text "_t=" url = true
  end.

(** What the session variant puts on the wire: requests of the instance,
    which carry the parameter, and plain fetches of the two token
    endpoints. *)
Definition stamped_or_token_fetch (ev : event) : Prop :=
  match ev with
  | Http c => carries_timestamp (Http c)
  | Fetch url => url = "/api/csrf" ∨ url = "/csrf"
  end.

(** Whether each of the six reads of the fallback succeeds, in array order,
    each started from the state its predecessor left. *)
Definition six_reads {env : Environment} (apiClient : Config.t → Async Response.t)
           (s1 : State) : list bool :=
  let '(r1, s2) := Accessors.fetchItems apiClient s1 in
  let '(r2, s3) := Accessors.fetchUsers apiClient s2 in
  let '(r3, s4) := Accessors.fetchRawInOutData apiClient s3 in
  let '(r4, s5) := Accessors.fetchRawInventoryData apiClient s4 in
  let '(r5, s6) := Accessors.fetchSchedules apiClient s5 in
  let '(r6, s7) := Accessors.fetchDashboardSummary apiClient s6 in
  [is_ok r1; is_ok r2; is_ok r3; is_ok r4; is_ok r5; is_ok r6].

(** The properties a user object has. *)
Definition user_fields (u : UserResponse.t) : list string :=
  ["userId"; "username"; "email"; "fullName"; "role"; "status"]
  ++ match UserResponse.lastLogin u with Some _ => ["lastLogin"] | None => [] end
  ++ match UserResponse.joinedAt u with Some _ => ["joinedAt"] | None => [] end.

(** The properties interface [UserResponse] declares. *)
Definition UserResponse_fields : list string :=
  ["userId"; "username"; "email"; "fullName"; "role"; "status"; "lastLogin"; "joinedAt"].

Definition users_fields (p : payload) : list (list string) :=
  match p with
  | Users l => map user_fields l
  | _ => []
  end.

(** *** Statements the code does not bear out, as propositions *)

(** Every state-changing request whose first attempt is rejected with 403
    is transmitted exactly once more. *)
Definition every_rejection_is_retried : Prop :=
  ∀ (env : Environment) (config c1 : Config.t) (r : Response.t) (s s1 : State),
    Session.isSafeMethod (Config.method config) = false →
    Config._retriedOnce config = false →
    Session.attempt config s = (Err (AxiosError c1 (Some r)), s1) →
    Response.status r = 403 →
    length (https (trace (Session.apiClient config s).2))
    = (length (https (trace s)) + 2)%nat.

(** Whenever acquisition yields no token it fails with the error reserved
    for that. *)
Definition acquisition_fails_only_as_unavailable : Prop :=
  ∀ (env : Environment) (s s' : State) (e : error),
    Session.fetchCsrfToken s = (Err e, s') →
    e = Error "CSRF token endpoint not reachable".

(** A snapshot assembled by the fallback has, user by user, the properties
    of interface [UserResponse]. *)
Definition fallback_users_have_every_field : Prop :=
  ∀ (env : Environment) (s s1 s' : State) (e : error) (d : DashboardData.t),
    Accessors.http_get Session.apiClient "/api/dashboard/all" s = (Err e, s1) →
    SessionApi.fetchDashboardAll s = (Ok d, s') →
    Forall (λ fields, fields = UserResponse_fields) (users_fields (DashboardData.users d)).

(** Every request the session variant puts on the wire carries the
    cache-busting parameter. *)
Definition every_outgoing_request_is_stamped : Prop :=
  ∀ (env : Environment) (config : Config.t) (s : State) (tr : list event),
    trace (Session.apiClient config s).2 = trace s ++ tr → Forall carries_timestamp tr.

(** The request interceptors change nothing of a request but that
    parameter. *)
Definition other_fields_are_unchanged : Prop :=
  ∀ (env : Environment) (config c : Config.t) (s s' : State),
    Session.request_interceptor config s = (Ok c, s')
    ∨ Bearer.request_interceptor config s = (Ok c, s') →
    c = with_timestamp (Date_now (world s)) config.

(** ** Concrete backends *)

(** A backend given by what it answers to a request and to a token fetch at
    a given time.  A request takes 10 ms, a token fetch 1 ms; the clock
    starts where the state says. *)
Record Script : Type := {
  respond : Config.t → Z → outcome;
  token_endpoint : string → Z → fetch_outcome;
}.

Definition scripted (sc : Script) : Environment := {|
  World := Z;
  adapter c w := (respond sc c w, w + 10);
  fetch url w := (token_endpoint sc url w, w + 1);
  Date_now w := w;
  toISOString _ := "2024-05-01T09:30:00.000Z";
  toLocaleString s := s;
  toLocaleStringShort s := s;
  toLocaleDateString s := s;
  nowLocaleDateString _ := "2024. 5. 1.";
|}.

Definition start_state (sc : Script) (token : option string) : State (env := scripted sc) :=
  mkState (env := scripted sc) 1000 None token [].

Definition sample_users : list UserResponse.t :=
  [UserResponse.mk 7 "kim" "kim@wms.kr" "Kim Jina" "ADMIN" "ACTIVE"
                   (Some "2024-04-30T08:00:00") (Some "2023-01-02T00:00:00")].

Definition sample_orders : list InOutOrderResponse.t :=
  [InOutOrderResponse.mk 482 "INBOUND" "COMPLETED" "C-01" "Acme"
     [InOutOrderItemResponse.mk 11 "SKU-11" "Bolt" "M8" 40;
      InOutOrderItemResponse.mk 12 "" "Nut" "" 0]
     "2024-04-30T08:15:30.123" "";
   InOutOrderResponse.mk 483 "OUTBOUND" "PENDING" "C-02" "Bravo"
     [InOutOrderItemResponse.mk 13 "SKU-13" "Washer" "M8" 5]
     "2024-04-30T09:00:00" ""].

Definition sample_inventory : list BackendInventoryResponse.t :=
  [BackendInventoryResponse.mk 11 "Bolt" "A-01" 0 "2024-04-30T08:00:00";
   BackendInventoryResponse.mk 12 "Nut" "A-02" 7 "2024-04-30T08:00:00";
   BackendInventoryResponse.mk 13 "Washer" "A-03" 25 "2024-04-30T08:00:00"].

(** The payload of each resource path of a well-typed backend. *)
Definition resource (url : string) : payload :=
  if String.eqb url "/api/users" then Users sample_users
  else if String.eqb url "/api/inout/orders" then Orders sample_orders
  else if String.eqb url "/api/inventory" then Inventory sample_inventory
  else Opaque url.

Definition consolidated : payload :=
  Dashboard (resource "/api/items") (resource "/api/users") (resource "/api/inout/orders")
            (resource "/api/inventory") (resource "/api/schedules")
            (resource "/api/dashboard/summary").

(** A backend whose consolidated endpoint is up or down. *)
Definition warehouse (up : bool) : Script := {|
  respond c _ :=
    if String.eqb (Config.url c) "/api/dashboard/all" then
      if up then Responded (Response.mk 200 consolidated)
      else Responded (Response.mk 500 Null)
    else Responded (Response.mk 200 (resource (Config.url c)));
  token_endpoint _ _ := FetchResolved (FetchResponse.mk true (Some (Some "token-1")));
|}.

(** A backend whose consolidated endpoint and schedules endpoint are down. *)
Definition partial_outage : Script := {|
  respond c _ :=
    if String.eqb (Config.url c) "/api/dashboard/all"
       || String.eqb (Config.url c) "/api/schedules"
    then Responded (Response.mk 503 Null)
    else Responded (Response.mk 200 (resource (Config.url c)));
  token_endpoint _ _ := FetchResolved (FetchResponse.mk true (Some (Some "token-1")));
|}.

(** A backend that allows only [PUT] on an order's base path. *)
Definition put_only : Script := {|
  respond c _ :=
    if String.eqb (Config.url c) "/api/inout/orders/482"
       && bool_decide (Config.method c = Some "put")
    then Responded (Response.mk 200 (Opaque "updated"))
    else Responded (Response.mk 405 Null);
  token_endpoint _ _ := FetchResolved (FetchResponse.mk true (Some (Some "token-1")));
|}.

(** A backend whose session has moved on: it accepts only the token
    ["fresh"], which the second token endpoint hands out. *)
Definition stale_session : Script := {|
  respond c _ :=
    if bool_decide (Config.headers c !! "X-CSRF-TOKEN" = Some "fresh")
    then Responded (Response.mk 200 (Opaque "done"))
    else Responded (Response.mk 403 Null);
  token_endpoint url _ :=
    if String.eqb url "/csrf" then FetchResolved (FetchResponse.mk true (Some (Some "fresh")))
    else FetchResolved (FetchResponse.mk false None);
|}.

(** A backend that rejects every request with 403 and whose token endpoints
    cannot be reached. *)
Definition tokens_down : Script := {|
  respond _ _ := Responded (Response.mk 403 Null);
  token_endpoint _ _ := FetchRejected;
|}.

Definition delete_item_3 : Config.t := request "delete" "/api/items/3" ∅ NoBody.

(** ** Resources addressed by a plain identifier

    Companies, items, schedules and users are addressed by [Number(id)] of
    the whole identifier; the two variants differ in the texts of their
    error messages only. *)

Record ResourceMessages : Type := {
  invalid_company_update : string;
  invalid_company_delete : string;
  invalid_item_update : string;
  invalid_schedule_delete : string;   (* followed by the identifier *)
  invalid_user_delete : string;
}.

Module Resources.
Section Resources.
Context {env : Environment}.
Variable apiClient : Config.t → Async Response.t.
Variable msg : ResourceMessages.

Definition updateCompany (id : string) (companyData : body) : Async payload :=
    let numericId := JS.string_to_number id in
    if JS.isNaN numericId then throw (Error (invalid_company_update msg))
    else
      let* response := Accessors.http_put apiClient
                         ("/api/companies/" +:+ JS.toString numericId) companyData in
      Accessors.handleResponse response.

Definition deleteCompany (id : string) : Async unit :=
    let numericId := JS.string_to_number id in
    if JS.isNaN numericId then throw (Error (invalid_company_delete msg))
    else
      Accessors.http_delete apiClient ("/api/companies/" +:+ JS.toString numericId);; ret tt.

Definition updateItem (id : string) (itemData : body) : Async payload :=
    let numericId := JS.string_to_number id in
    if JS.isNaN numericId then throw (Error (invalid_item_update msg))
    else
      let* response := Accessors.http_put apiClient
                         ("/api/items/" +:+ JS.toString numericId) itemData in
      Accessors.handleResponse response.

Definition deleteSchedule (id : id_arg) : Async unit :=
    let numericId := match id with
                     | IdString s => JS.string_to_number s
                     | IdNumber n => n
                     end in
    if JS.isNaN numericId || JS.le_zero numericId then
      throw (Error (invalid_schedule_delete msg +:+
                    match id with IdString s => s | IdNumber n => JS.toString n end))
    else
      Accessors.http_delete apiClient ("/api/schedules/" +:+ JS.toString numericId);; ret tt.

Definition deleteUser (id : string) : Async unit :=
    let numericId := JS.string_to_number id in
    if JS.isNaN numericId then throw (Error (invalid_user_delete msg))
    else
      Accessors.http_delete apiClient ("/api/users/" +:+ JS.toString numericId);; ret tt.

(** [if (startDate) params.start_date = startDate;
    if (endDate) params.end_date = endDate;]; an argument left out is [None]. *)
Definition schedule_params (startDate endDate : option string) : gmap string param :=
    let params : gmap string param := ∅ in
    let params :=
      match startDate with
      | Some d => if JS.truthy d then <["start_date" := PStr d]> params else params
      | None => params
      end in
    match endDate with
    | Some d => if JS.truthy d then <["end_date" := PStr d]> params else params
    | None => params
    end.

Definition fetchSchedules (startDate endDate : option string) : Async payload :=
    let* response := apiClient (request "get" "/api/schedules"
                                        (schedule_params startDate endDate) NoBody) in
    Accessors.handleResponse response.
End Resources.
End Resources.

Definition bearer_resource_messages : ResourceMessages :=
  {| invalid_company_update := "Invalid company ID";
     invalid_company_delete := "Invalid company ID";
     invalid_item_update := "Invalid item ID";
     invalid_schedule_delete := "Invalid schedule ID: ";
     invalid_user_delete := "Invalid user ID" |}.

Definition session_resource_messages : ResourceMessages :=
  {| invalid_company_update := "Invalid company ID provided for update.";
     invalid_company_delete := "Invalid company ID provided for delete.";
     invalid_item_update := "Invalid item ID provided for update.";
     invalid_schedule_delete := "Invalid schedule ID provided for delete: ";
     invalid_user_delete := "Invalid user ID provided for delete." |}.

(** ** Vocabulary: numerals, discarded payloads, reads, clocks *)

(** The characters of a decimal numeral. *)
Definition is_digit (c : ascii) : bool :=
  (48 <=? N_of_ascii c)%N && (N_of_ascii c <=? 57)%N.

Definition digit_chars (d : Decimal.uint) : list ascii :=
  list_ascii_of_string (NilEmpty.string_of_uint d).

(** Text made of white space only, the empty text included. *)
Definition blank (s : string) : Prop :=
  Forall (λ c, JS.is_space c = true) (list_ascii_of_string s).

(** What a call that is handed on without its payload being read returns:
    nothing on success, the instance's error otherwise. *)
Definition discard {env : Environment} (r : result Response.t * State) : result unit * State :=
  match r with
  | (Ok _, s) => (Ok tt, s)
  | (Err e, s) => (Err e, s)
  end.

(** An instance that answers a read with one transmission of it and
    nothing else. *)
Definition reads_once {env : Environment} (apiClient : Config.t → Async Response.t) : Prop :=
  ∀ (url : string) (s : State),
    ∃ c, Config.url c = url ∧ Config.method c = Some "get"
         ∧ (apiClient (request "get" url ∅ NoBody) s).2 = after s c.

(** A clock that does not run backwards while a request is in flight. *)
Definition monotone_clock (env : Environment) : Prop :=
  ∀ (c : Config.t) (w : World), Date_now w <= Date_now (adapter c w).2.

(** The paths of the six reads of the fallback, in array order. *)
Definition dashboard_reads : list string :=
  ["/api/items"; "/api/users"; "/api/inout/orders"; "/api/inventory"; "/api/schedules";
   "/api/dashboard/summary"].


(** Text of ASCII characters only; on such text the case mappings of the
    model are those of JavaScript. *)
Definition ascii_text (s : string) : Prop :=
  Forall (λ c, (nat_of_ascii c < 128)%nat) (list_ascii_of_string s).

(** Two results that are the same but for the text of a TypeError, which
    names the variable of the file that threw it. *)
Definition same_but_for_message {A} (r1 r2 : result A) : Prop :=
  match r1, r2 with
  | Ok a, Ok b => a = b
  | Err (TypeError _), Err (TypeError _) => True
  | Err e1, Err e2 => e1 = e2
  | _, _ => False
  end.

(** *** More sample data *)

Definition bolt : InOutOrderItemResponse.t := InOutOrderItemResponse.mk 11 "SKU-11" "Bolt" "M8" 40.

(** A completed order, and one whose identifier is negative. *)
Definition order_482 : InOutOrderResponse.t :=
  InOutOrderResponse.mk 482 "INBOUND" "COMPLETED" "C-01" "Acme" [bolt]
                        "2024-04-30T08:15:30.123" "".
Definition order_minus_5 : InOutOrderResponse.t :=
  InOutOrderResponse.mk (-5) "INBOUND" "COMPLETED" "C-01" "Acme" [bolt] "" "2024-04-30".

Definition put_item_3 : Config.t := request "put" "/api/items/3" ∅ (RecordBody "{}").

(** * Properties *)

(** ** Conversions *)

Example number_of_leading_segment :
  map leading_number ["482-3"; "abc-3"; ""; "0-1"; "1.5-2"; " 7 -1"]
  = [JS.Finite false 482 0; JS.NaN; JS.Finite false 0 0; JS.Finite false 0 0;
     JS.Finite false 15 (-1); JS.Finite false 7 0].
Proof. reflexivity. Qed.

Example string_to_number_samples :
  map JS.string_to_number
      [" 12 "; "1.5"; ".5"; "5."; "1e3"; "0x1F"; "-7"; "+"; "."; "1e"; "12px"; "0x"; "-0x1";
       "Infinity"; "-Infinity"; "1 2"]
  = [JS.Finite false 12 0; JS.Finite false 15 (-1); JS.Finite false 5 (-1); JS.Finite false 5 0;
     JS.Finite false 1 3; JS.Finite false 31 0; JS.Finite true 7 0; JS.NaN; JS.NaN; JS.NaN;
     JS.NaN; JS.NaN; JS.NaN; JS.Infinity false; JS.Infinity true; JS.NaN].
Proof. reflexivity. Qed.

Example toString_samples :
  map JS.toString
      [JS.Finite false 482 0; JS.Finite false 0 0; JS.Finite true 7 0; JS.Finite false 15 (-1);
       JS.Finite false 1 3; JS.Finite false 1500 (-2); JS.Finite false 5 (-3)]
  = ["482"; "0"; "-7"; "1.5"; "1000"; "15"; "0.005"].
Proof. reflexivity. Qed.

Example isSafeMethod_samples :
  map Session.isSafeMethod
      [Some "get"; Some "HEAD"; Some "options"; None; Some ""; Some "put"; Some "post";
       Some "patch"; Some "delete"]
  = [true; true; true; true; true; false; false; false; false].
Proof. reflexivity. Qed.

Lemma split_head (c : ascii) (s : string) : ∃ seg, JS.split c s !! 0%nat = Some seg.
Proof.
  destruct s as [|d r]; simpl; [eauto|].
  destruct (Ascii.eqb d c); [eauto|].
  destruct (JS.split c r); eauto.
Qed.

(** [id.includes('-') ? id.split('-')[0] : id] is [id.split('-')[0]]. *)
Lemma includes_split (id : string) :
  (if JS.includes "-" id then JS.split "-" id !! 0%nat else Some id) = JS.split "-" id !! 0%nat.
Proof.
  induction id as [|c r IH]; [reflexivity|].
  simpl. destruct (Ascii.eqb c "-") eqn:Hc; [reflexivity|].
  destruct (JS.includes "-" r) eqn:Hi.
  - destruct (JS.split "-" r); reflexivity.
  - destruct (JS.split "-" r) as [|seg segs]; [discriminate|].
    simpl in IH. injection IH as ->. reflexivity.
Qed.

(** The bearer variant writes [(record.type || 'INBOUND').toLowerCase()]
    where the session variant writes [record.type?.toLowerCase() || 'inbound']. *)
Lemma record_type_forms_agree (type : string) :
  JS.toLowerCase (JS.or_else type "INBOUND") = JS.or_else (JS.toLowerCase type) "inbound".
Proof. destruct type; reflexivity. Qed.

(** ** The two pipelines *)

Section Pipelines.
Context {env : Environment}.

Lemma rejected_settle (code : Z) (c : Config.t) (o : outcome) :
  ¬ (200 <= code < 300) →
  rejected_with code (settle c o) = responded_with code o.
Proof.
  intros Hc. destruct o as [|r]; [reflexivity|]. simpl.
  destruct (_ && _) eqn:H2; simpl; unfold has_status; simpl; [|reflexivity].
  apply andb_prop in H2 as [H1 H2]. symmetry. apply Z.eqb_neq. lia.
Qed.

Lemma bearer_interceptor_eq (config : Config.t) (s : State) :
  Bearer.request_interceptor config s = (Ok (Bearer.outgoing s config), s).
Proof. reflexivity. Qed.

(** A call of the bearer instance is one transmission. *)
Lemma bearer_call (config : Config.t) (s : State) :
  Bearer.apiClient config s
  = (settle (Bearer.outgoing s config) (adapter (Bearer.outgoing s config) (world s)).1,
     after s (Bearer.outgoing s config)).
Proof.
  unfold Bearer.apiClient, bind. rewrite bearer_interceptor_eq.
  unfold dispatchRequest, after. destruct (adapter _ (world s)); reflexivity.
Qed.

Lemma outgoing_url (s : State) (config : Config.t) :
  Config.url (Bearer.outgoing s config) = Config.url config
  ∧ Config.method (Bearer.outgoing s config) = Config.method config
  ∧ Config.data (Bearer.outgoing s config) = Config.data config.
Proof.
  unfold Bearer.outgoing. destruct (authToken s) as [t|]; [destruct (JS.truthy t)|]; auto.
Qed.

Lemma bearer_outgoing_same (config : Config.t) (s : State) :
  same_request (Date_now (world s)) config (Bearer.outgoing s config)
  ∧ ∀ k, k ≠ "Authorization" →
         Config.headers (Bearer.outgoing s config) !! k = Config.headers config !! k.
Proof.
  unfold Bearer.outgoing, same_request.
  destruct (authToken s) as [t|]; [destruct (JS.truthy t)|]; simpl;
    (split; [auto 10|]); intros k Hk; try reflexivity.
  by rewrite lookup_insert_ne.
Qed.

(** Token acquisition, by what the two endpoints answer. *)
Lemma fetchCsrfToken_eq (s : State) :
  Session.fetchCsrfToken s =
    let '(o1, w1) := fetch "/api/csrf" (world s) in
    match Session.usable o1 with
    | Some t => (Ok t, mkState w1 (authToken s) (CSRF_TOKEN s) (trace s ++ [Fetch "/api/csrf"]))
    | None =>
        let '(o2, w2) := fetch "/csrf" w1 in
        (match Session.usable o2 with
         | Some t => Ok t
         | None => Err (Session.secondary_failure o2)
         end,
         mkState w2 (authToken s) (CSRF_TOKEN s) (trace s ++ [Fetch "/api/csrf"; Fetch "/csrf"]))
    end.
Proof.
  unfold Session.fetchCsrfToken, bind, try_catch, do_fetch, Session.read_token, throw, ret.
  destruct (fetch "/api/csrf" (world s)) as [[|[[] [[t|]|]]] w1]; simpl;
    try destruct (JS.truthy t); simpl; try reflexivity;
    destruct (fetch "/csrf" w1) as [[|[[] [[t2|]|]]] w2]; simpl;
    try destruct (JS.truthy t2); simpl; rewrite <- ?app_assoc; reflexivity.
Qed.

Lemma usable_truthy (o : fetch_outcome) (t : string) :
  Session.usable o = Some t → JS.truthy t = true.
Proof.
  destruct o as [|[[] [[t'|]|]]]; simpl; try discriminate.
  destruct (JS.truthy t') eqn:H; [|discriminate]. by intros [= <-].
Qed.

Lemma fetchCsrfToken_truthy (s s' : State) (t : string) :
  Session.fetchCsrfToken s = (Ok t, s') → JS.truthy t = true.
Proof.
  rewrite fetchCsrfToken_eq.
  destruct (fetch "/api/csrf" (world s)) as [o1 w1].
  destruct (Session.usable o1) as [t1|] eqn:H1.
  - intros [= <- <-]. eapply usable_truthy, H1.
  - destruct (fetch "/csrf" w1) as [o2 w2].
    destruct (Session.usable o2) as [t2|] eqn:H2; [|discriminate].
    intros [= <- <-]. eapply usable_truthy, H2.
Qed.

(** Acquisition talks to the two token endpoints only, in this order, by
    plain [fetch]; it neither reads nor writes the cached token. *)
Lemma fetchCsrfToken_trace (s : State) :
  ∃ urls, (urls = ["/api/csrf"] ∨ urls = ["/api/csrf"; "/csrf"])
    ∧ trace (Session.fetchCsrfToken s).2 = trace s ++ map Fetch urls
    ∧ CSRF_TOKEN (Session.fetchCsrfToken s).2 = CSRF_TOKEN s
    ∧ authToken (Session.fetchCsrfToken s).2 = authToken s.
Proof.
  rewrite fetchCsrfToken_eq.
  destruct (fetch "/api/csrf" (world s)) as [o1 w1].
  destruct (Session.usable o1) as [t1|].
  - exists ["/api/csrf"]. simpl. auto.
  - destruct (fetch "/csrf" w1) as [o2 w2]. exists ["/api/csrf"; "/csrf"]. simpl. auto.
Qed.

Lemma fetchCsrfToken_https (s : State) :
  https (trace (Session.fetchCsrfToken s).2) = https (trace s).
Proof.
  destruct (fetchCsrfToken_trace s) as (urls & Hurls & Htr & _).
  rewrite Htr. unfold https. rewrite omap_app.
  destruct Hurls as [-> | ->]; simpl; by rewrite app_nil_r.
Qed.

Lemma fetchCsrfToken_never_axios (s s' : State) (e : error) :
  Session.fetchCsrfToken s = (Err e, s') → error_config e = None ∧ e ≠ OutOfFuel.
Proof.
  rewrite fetchCsrfToken_eq.
  destruct (fetch "/api/csrf" (world s)) as [o1 w1].
  destruct (Session.usable o1); [discriminate|].
  destruct (fetch "/csrf" w1) as [o2 w2].
  destruct (Session.usable o2); [discriminate|].
  intros [= <- <-]. destruct o2 as [|[[] [[]|]]]; by split.
Qed.

Lemma request_interceptor_safe (config : Config.t) (s : State) :
  Session.isSafeMethod (Config.method config) = true →
  Session.request_interceptor config s
    = (Ok (with_timestamp (Date_now (world s)) config), s).
Proof.
  intros H. unfold Session.request_interceptor, bind, get_now, ret. simpl.
  rewrite H. reflexivity.
Qed.

Lemma request_interceptor_cached (config : Config.t) (s : State) (t : string) :
  Session.isSafeMethod (Config.method config) = false →
  CSRF_TOKEN s = Some t → JS.truthy t = true →
  Session.request_interceptor config s = (Ok (session_outgoing s t config), s).
Proof.
  intros H Ht Htr. unfold Session.request_interceptor, bind, get_now, get_CSRF_TOKEN, ret. simpl.
  rewrite H. simpl. rewrite Ht. simpl. rewrite Htr. reflexivity.
Qed.

Lemma request_interceptor_acquire (config : Config.t) (s : State) :
  Session.isSafeMethod (Config.method config) = false →
  Session.no_token (CSRF_TOKEN s) = true →
  Session.request_interceptor config s
    = match Session.fetchCsrfToken s with
      | (Ok t, s1) => (Ok (session_outgoing s t config), set_token (Some t) s1)
      | (Err e, s1) => (Err e, s1)
      end.
Proof.
  intros H Hn.
  unfold Session.request_interceptor, bind, get_now, get_CSRF_TOKEN, set_CSRF_TOKEN, ret. simpl.
  rewrite H. simpl. rewrite Hn.
  destruct (Session.fetchCsrfToken s) as [[t|e] s1]; reflexivity.
Qed.

(** The request interceptor, case by case. *)
Lemma request_interceptor_cases (config : Config.t) (s : State) :
  Session.request_interceptor config s
  = if Session.isSafeMethod (Config.method config)
    then (Ok (with_timestamp (Date_now (world s)) config), s)
    else if Session.no_token (CSRF_TOKEN s)
         then match Session.fetchCsrfToken s with
              | (Ok t, s1) => (Ok (session_outgoing s t config), set_token (Some t) s1)
              | (Err e, s1) => (Err e, s1)
              end
         else (Ok (session_outgoing s (default "" (CSRF_TOKEN s)) config), s).
Proof.
  destruct (Session.isSafeMethod (Config.method config)) eqn:Hsafe.
  - by apply request_interceptor_safe.
  - destruct (Session.no_token (CSRF_TOKEN s)) eqn:Hno.
    + by apply request_interceptor_acquire.
    + destruct (CSRF_TOKEN s) as [t|] eqn:Ht; [|discriminate].
      simpl. apply request_interceptor_cached; [exact Hsafe|exact Ht|].
      simpl in Hno. by destruct (JS.truthy t).
Qed.

Lemma session_interceptor_same (config c : Config.t) (s s' : State) :
  Session.request_interceptor config s = (Ok c, s') →
  same_request (Date_now (world s)) config c
  ∧ ∀ k, k ≠ "X-CSRF-TOKEN" → Config.headers c !! k = Config.headers config !! k.
Proof.
  rewrite request_interceptor_cases.
  destruct (Session.isSafeMethod _).
  - intros [= <- <-]. by repeat split.
  - destruct (Session.no_token _).
    + destruct (Session.fetchCsrfToken s) as [[t|e] s2]; intros [= <- <-].
      split; [by repeat split|]. intros k Hk. simpl. by rewrite lookup_insert_ne.
    + intros [= <- <-].
      split; [by repeat split|]. intros k Hk. simpl. by rewrite lookup_insert_ne.
Qed.

Lemma request_interceptor_https (config : Config.t) (s s1 : State) (r : result Config.t) :
  Session.request_interceptor config s = (r, s1) → https (trace s1) = https (trace s).
Proof.
  rewrite request_interceptor_cases.
  destruct (Session.isSafeMethod _); [by intros [= _ <-]|].
  destruct (Session.no_token _); [|by intros [= _ <-]].
  pose proof (fetchCsrfToken_https s) as Hh.
  destruct (Session.fetchCsrfToken s) as [[t|e] s2]; by intros [= _ <-].
Qed.

Lemma request_interceptor_never_axios (config : Config.t) (s s1 : State) (e : error) :
  Session.request_interceptor config s = (Err e, s1) → error_config e = None ∧ e ≠ OutOfFuel.
Proof.
  rewrite request_interceptor_cases.
  destruct (Session.isSafeMethod _); [discriminate|].
  destruct (Session.no_token _); [|discriminate].
  destruct (Session.fetchCsrfToken s) as [[t|e'] s2] eqn:Hacq; [discriminate|].
  intros [= <- <-]. eapply fetchCsrfToken_never_axios, Hacq.
Qed.

(** An attempt that ends in an HTTP rejection has transmitted exactly the
    request the error carries, which is the one asked for up to its headers
    and timestamp. *)
Lemma attempt_rejected (config c : Config.t) (e : error) (s s1 : State) :
  Session.attempt config s = (Err e, s1) → error_config e = Some c →
  Config._retriedOnce c = Config._retriedOnce config
  ∧ Config.method c = Config.method config
  ∧ https (trace s1) = https (trace s) ++ [c].
Proof.
  unfold Session.attempt, bind.
  destruct (Session.request_interceptor config s) as [[c'|e'] s'] eqn:Hri.
  - pose proof (request_interceptor_https _ _ _ _ Hri) as Hh.
    apply session_interceptor_same in Hri as ((_ & Hm & _ & Hr & _) & _).
    unfold dispatchRequest. destruct (adapter c' (world s')) as [o w].
    assert (Hsent : https (trace s' ++ [Http c']) = https (trace s) ++ [c']).
    { unfold https in *. rewrite omap_app, Hh. reflexivity. }
    destruct o as [|r]; simpl.
    + intros [= <- <-] [= <-]. auto.
    + destruct (_ && _); [discriminate|]. intros [= <- <-] [= <-]. auto.
  - intros [= <- <-] Hc. apply request_interceptor_never_axios in Hri as [Hri _]. congruence.
Qed.

Lemma attempt_never_out_of_fuel (config : Config.t) (s : State) :
  (Session.attempt config s).1 ≠ Err OutOfFuel.
Proof.
  unfold Session.attempt, bind.
  destruct (Session.request_interceptor config s) as [[c'|e'] s'] eqn:Hri.
  - unfold dispatchRequest. destruct (adapter c' (world s')) as [[|r] w]; simpl; [discriminate|].
    destruct (_ && _); discriminate.
  - apply request_interceptor_never_axios in Hri as [_ Hri]. simpl. congruence.
Qed.

Lemma apiClient_rec_S (n : nat) (config : Config.t) :
  Session.apiClient_rec (S n) config
    = try_catch (Session.attempt config) (Session.response_rejected (Session.apiClient_rec n)).
Proof. reflexivity. Qed.

(** A request already marked [_retriedOnce] is transmitted once and its
    outcome returned as it is. *)
Lemma apiClient_rec_retried (n : nat) (config : Config.t) (s : State) :
  Config._retriedOnce config = true →
  Session.apiClient_rec (S n) config s = Session.attempt config s.
Proof.
  intros Hr. rewrite apiClient_rec_S. unfold try_catch.
  destruct (Session.attempt config s) as [[r|e] s1] eqn:Ha; [reflexivity|].
  unfold Session.response_rejected.
  destruct (error_config e) as [c|] eqn:Hc; [|reflexivity].
  destruct (attempt_rejected _ _ _ _ _ Ha Hc) as (Hr' & _).
  rewrite Hr', Hr. rewrite andb_false_r. reflexivity.
Qed.

Lemma response_rejected_retries_marked
      (again1 again2 : Config.t → Async Response.t) (e : error) (s : State) :
  (∀ c s', Config._retriedOnce c = true → again1 c s' = again2 c s') →
  Session.response_rejected again1 e s = Session.response_rejected again2 e s.
Proof.
  intros H. unfold Session.response_rejected.
  destruct (error_config e) as [c|]; [|reflexivity].
  destruct (_ && _); [|reflexivity].
  unfold bind, try_catch, set_CSRF_TOKEN, ret.
  destruct (Session.fetchCsrfToken _) as [[t|e'] s1]; simpl; [|reflexivity].
  apply H. reflexivity.
Qed.

(** Termination of the instance calling itself: two levels are all that is
    ever used, and the bound is never hit. *)
Lemma apiClient_fuel (n : nat) (config : Config.t) (s : State) :
  (2 <= n)%nat → Session.apiClient_rec n config s = Session.apiClient config s.
Proof.
  intros Hn. destruct n as [|[|n]]; [lia|lia|].
  unfold Session.apiClient. rewrite !apiClient_rec_S. unfold try_catch.
  destruct (Session.attempt config s) as [[r|e] s1]; [reflexivity|].
  apply response_rejected_retries_marked. intros c s' Hc.
  rewrite (apiClient_rec_retried n c s' Hc).
  symmetry. apply (apiClient_rec_retried 0 c s' Hc).
Qed.

Lemma apiClient_never_out_of_fuel (config : Config.t) (s : State) :
  (Session.apiClient config s).1 ≠ Err OutOfFuel.
Proof.
  unfold Session.apiClient. rewrite apiClient_rec_S. unfold try_catch.
  pose proof (attempt_never_out_of_fuel config s) as Ha.
  destruct (Session.attempt config s) as [[r|e] s1]; [discriminate|].
  assert (He : e ≠ OutOfFuel) by (intros ->; by apply Ha).
  unfold Session.response_rejected.
  destruct (error_config e) as [c|] eqn:Hc; [|simpl; congruence].
  destruct (_ && _); [|simpl; congruence].
  unfold bind, try_catch, set_CSRF_TOKEN, ret.
  destruct (Session.fetchCsrfToken _) as [[t|e'] s2]; cbn [fst];
    [|simpl; destruct e; simpl; congruence].
  rewrite apiClient_rec_retried by reflexivity. apply attempt_never_out_of_fuel.
Qed.


Lemma token_fetches_only (urls : list string) :
  urls = ["/api/csrf"] ∨ urls = ["/api/csrf"; "/csrf"] →
  Forall stamped_or_token_fetch (map Fetch urls).
Proof.
  intros [-> | ->]; simpl.
  - apply Forall_cons. split; [by left|apply Forall_nil_2].
  - apply Forall_cons. split; [by left|].
    apply Forall_cons. split; [by right|apply Forall_nil_2].
Qed.

(** The session pipeline puts on the wire requests that carry the
    parameter, and fetches of the two token endpoints. *)
Lemma attempt_stamped (config : Config.t) (s : State) :
  ∃ tr, trace (Session.attempt config s).2 = trace s ++ tr
        ∧ Forall stamped_or_token_fetch tr.
Proof.
  unfold Session.attempt, bind.
  destruct (Session.request_interceptor config s) as [[c|e] s1] eqn:Hri.
  - pose proof (session_interceptor_same _ _ _ _ Hri) as ((_ & _ & _ & _ & Hp) & _).
    assert (Htr : ∃ tr, trace s1 = trace s ++ tr ∧ Forall stamped_or_token_fetch tr).
    { revert Hri. rewrite request_interceptor_cases.
      destruct (Session.isSafeMethod _).
      - intros [= _ <-]. exists []. by rewrite app_nil_r.
      - destruct (Session.no_token _).
        + destruct (fetchCsrfToken_trace s) as (urls & Hurls%token_fetches_only & Htr & _).
          destruct (Session.fetchCsrfToken s) as [[t|e] s2]; intros [= _ <-].
          simpl in *. eauto.
        + intros [= _ <-]. exists []. by rewrite app_nil_r. }
    destruct Htr as (tr & Htr & Hall).
    unfold dispatchRequest. destruct (adapter c (world s1)) as [o w]. simpl.
    exists (tr ++ [Http c]). rewrite Htr, <- app_assoc. split; [reflexivity|].
    apply Forall_app. split; [exact Hall|]. constructor; [|constructor].
    simpl. exists (Date_now (world s)). rewrite Hp. apply lookup_insert_eq.
  - simpl. revert Hri. rewrite request_interceptor_cases.
    destruct (Session.isSafeMethod _); [discriminate|].
    destruct (Session.no_token _); [|discriminate].
    destruct (fetchCsrfToken_trace s) as (urls & Hurls%token_fetches_only & Htr & _).
    destruct (Session.fetchCsrfToken s) as [[t|e'] s2]; intros [= _ <-].
    simpl in *. eauto.
Qed.

Lemma session_apiClient_stamped (config : Config.t) (s : State) :
  ∃ tr, trace (Session.apiClient config s).2 = trace s ++ tr
        ∧ Forall stamped_or_token_fetch tr.
Proof.
  unfold Session.apiClient. rewrite apiClient_rec_S. unfold try_catch.
  destruct (attempt_stamped config s) as (tr1 & Htr1 & Hall1).
  destruct (Session.attempt config s) as [[r|e] s1]; cbn [snd] in *; [eauto|].
  unfold Session.response_rejected.
  destruct (error_config e) as [c|]; [|simpl; eauto].
  destruct (_ && _); [|simpl; eauto].
  unfold bind, try_catch, set_CSRF_TOKEN, ret.
  destruct (fetchCsrfToken_trace (mkState (world s1) (authToken s1) None (trace s1)))
    as (urls & Hurls%token_fetches_only & Htr2 & _).
  destruct (Session.fetchCsrfToken _) as [[t|e'] s2]; cbn [snd trace] in *.
  - rewrite apiClient_rec_retried by reflexivity.
    match goal with
    | |- context [Session.attempt ?c' ?st] =>
        destruct (attempt_stamped c' st) as (tr3 & Htr3 & Hall3)
    end.
    cbn [trace] in Htr3. exists (tr1 ++ map Fetch urls ++ tr3).
    rewrite Htr3, Htr2, Htr1, <- !app_assoc. split; [reflexivity|].
    rewrite !Forall_app. auto.
  - simpl. exists (tr1 ++ map Fetch urls). rewrite Htr2, Htr1, <- app_assoc.
    split; [reflexivity|]. rewrite Forall_app. auto.
Qed.
End Pipelines.

(** ** Accessors, over any instance *)

Section AccessorFacts.
Context {env : Environment}.
Variable apiClient : Config.t → Async Response.t.
Variable msg : Messages.

Lemma call_data (config : Config.t) (s : State) :
  (let* response := apiClient config in Accessors.handleResponse response) s
  = (data_of (apiClient config s).1, (apiClient config s).2).
Proof.
  unfold bind, Accessors.handleResponse, ret.
  destruct (apiClient config s) as [[r|e] s1]; reflexivity.
Qed.

Lemma updateOrderStatus_eq (orderId status : string) (s : State) :
  Accessors.updateOrderStatus apiClient msg orderId status s =
    if JS.isNaN (leading_number orderId) then (Err (Error (invalid_status_update msg)), s)
    else
      let config := request "put" (Accessors.order_path (leading_number orderId) "/status") ∅
                            (StatusBody (JS.toUpperCase status)) in
      (data_of (apiClient config s).1, (apiClient config s).2).
Proof.
  unfold Accessors.updateOrderStatus, leading_number.
  destruct (JS.isNaN _); [reflexivity|]. apply call_data.
Qed.

Lemma cancelInOutOrder_eq (orderId : string) (s : State) :
  Accessors.cancelInOutOrder apiClient msg (IdString orderId) s =
    if JS.isNaN (leading_number orderId) then (Err (Error (invalid_cancellation msg)), s)
    else
      let config := request "put" (Accessors.order_path (leading_number orderId) "/cancel") ∅
                            NoBody in
      (data_of (apiClient config s).1, (apiClient config s).2).
Proof.
  unfold Accessors.cancelInOutOrder, leading_number.
  destruct (JS.isNaN _); [reflexivity|]. apply call_data.
Qed.

(** The verb fallback, by the outcomes of the instance's calls. *)
Lemma updateInOutRecord_eq (id : string) (recordData : body) (s : State) :
  Accessors.updateInOutRecord apiClient msg id recordData s =
    if JS.isNaN (leading_number id) then (Err (Error (invalid_record_update msg)), s)
    else
      let n := leading_number id in
      let '(r1, s1) := apiClient (status_put n recordData) s in
      if rejected_with 405 r1 then
        let '(r2, s2) := apiClient (base_patch n recordData) s1 in
        if rejected_with 405 r2 then
          let '(r3, s3) := apiClient (base_put n recordData) s2 in
          (data_of r3, s3)
        else (data_of r2, s2)
      else (data_of r1, s1).
Proof.
  unfold Accessors.updateInOutRecord, leading_number. rewrite includes_split.
  destruct (JS.isNaN _); [reflexivity|].
  unfold try_catch, Accessors.http_put, Accessors.http_patch, bind, Accessors.handleResponse,
    ret, throw, status_put, base_patch, base_put.
  destruct (apiClient _ s) as [[r1|e1] s1]; simpl; [reflexivity|].
  destruct (has_status 405 e1); [|reflexivity].
  destruct (apiClient _ s1) as [[r2|e2] s2]; simpl; [reflexivity|].
  destruct (has_status 405 e2); [|reflexivity].
  destruct (apiClient _ s2) as [[r3|e3] s3]; reflexivity.
Qed.

(** An identifier whose leading segment is not numeric is refused by all
    three operations before the instance is called: the state, and with it
    the trace, is returned as it was. *)
Lemma non_numeric_identifier_refused (id status : string) (recordData : body) (s : State) :
  JS.isNaN (leading_number id) = true →
  Accessors.updateOrderStatus apiClient msg id status s
    = (Err (Error (invalid_status_update msg)), s)
  ∧ Accessors.cancelInOutOrder apiClient msg (IdString id) s
    = (Err (Error (invalid_cancellation msg)), s)
  ∧ Accessors.updateInOutRecord apiClient msg id recordData s
    = (Err (Error (invalid_record_update msg)), s).
Proof.
  intros H. rewrite updateOrderStatus_eq, cancelInOutOrder_eq, updateInOutRecord_eq, H. auto.
Qed.

(** The item accessor, which also tests [numericId <= 0], refuses the empty
    identifier. *)
Lemma deleteItem_refuses_empty (s : State) :
  Accessors.deleteItem apiClient msg (IdString "") s
  = (Err (Error (invalid_item_delete msg +:+ "")), s).
Proof. reflexivity. Qed.

Lemma stock_status_cases (q : Z) :
  (q <= 0 → Accessors.stock_status q = "위험")
  ∧ (0 < q <= 10 → Accessors.stock_status q = "부족")
  ∧ (10 < q → Accessors.stock_status q = "정상").
Proof.
  unfold Accessors.stock_status. repeat split; intros H.
  - destruct (Z.leb_spec q 0); [reflexivity|lia].
  - destruct (Z.leb_spec q 0); [lia|]. destruct (Z.leb_spec q 10); [reflexivity|lia].
  - destruct (Z.leb_spec q 0); [lia|]. destruct (Z.leb_spec q 10); [lia|reflexivity].
Qed.

(** C9.  For every inventory entry [fetchInventoryData] returns, the status
    label is decided by the quantity alone: at most 0 gives '위험', from 1
    to 10 gives '부족', above 10 gives '정상'; entry [i] of the result
    comes from entry [i] of the backend's list, and when the backend
    returns no entries ([null] or the empty array) the result is the empty
    list. *)
Theorem inventory_status_by_quantity (p : payload) (s s' : State) :
  Accessors.fetchRawInventoryData apiClient s = (Ok p, s') →
  (p = Null ∨ p = Undefined ∨ p = Inventory [] →
     Accessors.fetchInventoryData apiClient s = (Ok [], s'))
  ∧ ∀ l, p = Inventory l →
      ∃ out,
        Accessors.fetchInventoryData apiClient s = (Ok out, s')
        ∧ length out = length l
        ∧ ∀ (i : nat) (b : BackendInventoryResponse.t), l !! i = Some b →
            ∃ item, out !! i = Some item
              ∧ InventoryItem.quantity item = BackendInventoryResponse.quantity b
              ∧ (BackendInventoryResponse.quantity b <= 0 → InventoryItem.status item = "위험")
              ∧ (0 < BackendInventoryResponse.quantity b <= 10 →
                 InventoryItem.status item = "부족")
              ∧ (10 < BackendInventoryResponse.quantity b → InventoryItem.status item = "정상").
Proof.
  intros Hraw. split.
  - intros Hp. unfold Accessors.fetchInventoryData, bind. rewrite Hraw.
    destruct Hp as [-> | [-> | ->]]; reflexivity.
  - intros l ->. exists (imap (Accessors.to_inventory_item) l).
    split; [|split].
    + unfold Accessors.fetchInventoryData, bind. rewrite Hraw. destruct l; reflexivity.
    + apply length_imap.
    + intros i b Hb. exists (Accessors.to_inventory_item i b). split.
      * rewrite list_lookup_imap, Hb. reflexivity.
      * split; [reflexivity|]. apply stock_status_cases.
Qed.

Lemma elem_of_transform_orders (nowISO : string) (l : list InOutOrderResponse.t)
      (r : InOutRecord.t) :
  r ∈ Accessors.transform_orders nowISO l ↔
  ∃ order i item,
    order ∈ l ∧ InOutOrderResponse.status order = "COMPLETED"
    ∧ InOutOrderResponse.items order !! i = Some item
    ∧ r = Accessors.to_record nowISO order i item.
Proof.
  unfold Accessors.transform_orders. rewrite list_elem_of_In, in_flat_map. split.
  - intros (order & Hin & Hr). apply list_elem_of_In in Hin, Hr.
    apply list_elem_of_filter in Hin as [Hst Hin].
    apply list_elem_of_lookup in Hr as [i Hi].
    rewrite list_lookup_imap in Hi.
    destruct (InOutOrderResponse.items order !! i) as [item|] eqn:Hitem; [|discriminate].
    injection Hi as <-. eauto 10.
  - intros (order & i & item & Hin & Hst & Hitem & ->).
    exists order. split.
    + apply list_elem_of_In, list_elem_of_filter. auto.
    + apply list_elem_of_In, list_elem_of_lookup. exists i.
      rewrite list_lookup_imap, Hitem. reflexivity.
Qed.

Lemma length_transform_orders (nowISO : string) (l : list InOutOrderResponse.t) :
  length (Accessors.transform_orders nowISO l)
  = sum_list (map (λ order, length (InOutOrderResponse.items order))
                  (filter (λ order, InOutOrderResponse.status order = "COMPLETED") l)).
Proof.
  unfold Accessors.transform_orders.
  induction (filter _ l) as [|order rest IH]; [reflexivity|].
  simpl. rewrite length_app, length_imap, IH. reflexivity.
Qed.

(** C10.  For every list of orders the backend returns, [fetchInOutData]
    returns exactly the line items of the orders whose status is
    'COMPLETED', one record per line item: a record is in the result if and
    only if it is the record of line item [i] of a completed order, the
    result is as long as the completed orders have line items, each record
    has id "<orderId>-<i>", individualCode "ORDER-<orderId>-<itemId>" and
    status '완료'; so no line item of an order of another status
    appears. *)
Theorem completed_orders_flattened (l : list InOutOrderResponse.t) (s s' : State) :
  Accessors.fetchRawInOutData apiClient s = (Ok (Orders l), s') →
  ∃ out nowISO,
    Accessors.fetchInOutData apiClient s = (Ok out, s')
    ∧ (∀ r, r ∈ out ↔
         ∃ order i item,
           order ∈ l ∧ InOutOrderResponse.status order = "COMPLETED"
           ∧ InOutOrderResponse.items order !! i = Some item
           ∧ r = Accessors.to_record nowISO order i item)
    ∧ (∀ order i item,
         InOutRecord.id (Accessors.to_record nowISO order i item)
           = JS.toString_Z (InOutOrderResponse.orderId order) +:+ "-"
               +:+ JS.toString_Z (Z.of_nat i)
         ∧ InOutRecord.individualCode (Accessors.to_record nowISO order i item)
           = "ORDER-" +:+ JS.toString_Z (InOutOrderResponse.orderId order) +:+ "-"
               +:+ JS.toString_Z (InOutOrderItemResponse.itemId item))
    ∧ (∀ r, r ∈ out → InOutRecord.status r = "완료")
    ∧ length out
      = sum_list (map (λ order, length (InOutOrderResponse.items order))
                      (filter (λ order, InOutOrderResponse.status order = "COMPLETED") l)).
Proof.
  intros Hraw.
  exists (Accessors.transform_orders (toISOString (Date_now (world s'))) l),
         (toISOString (Date_now (world s'))).
  split; [|split; [|split; [|split]]].
  - unfold Accessors.fetchInOutData, bind. rewrite Hraw. reflexivity.
  - apply elem_of_transform_orders.
  - intros order i item. split; reflexivity.
  - intros r (order & i & item & _ & Hst & _ & ->)%elem_of_transform_orders.
    unfold Accessors.to_record. simpl. rewrite Hst. reflexivity.
  - apply length_transform_orders.
Qed.
End AccessorFacts.

(** The three thresholds on a backend that stocks 0, 7 and 25 pieces. *)
Lemma inventory_status_by_quantity_witness :
  let s := start_state (warehouse true) None in
  Accessors.fetchRawInventoryData Bearer.apiClient s
  = (Ok (Inventory sample_inventory), (Accessors.fetchRawInventoryData Bearer.apiClient s).2)
  ∧ ∃ out,
      (BearerApi.fetchInventoryData s).1 = Ok out
      ∧ map InventoryItem.status out = ["위험"; "부족"; "정상"]
      ∧ map InventoryItem.quantity out = [0; 7; 25].
Proof.
  cbv zeta. split; [vm_compute; reflexivity|].
  destruct (inventory_status_by_quantity
              (env := scripted (warehouse true)) Bearer.apiClient
              (Inventory sample_inventory) (start_state (warehouse true) None) _ eq_refl)
    as [_ H].
  destruct (H sample_inventory eq_refl) as (out & Hout & _).
  exists out. unfold BearerApi.fetchInventoryData. rewrite Hout. split; [reflexivity|].
  vm_compute in Hout. injection Hout as <-. split; reflexivity.
Defined.

(** Two orders, one completed with two line items, one pending. *)
Lemma completed_orders_flattened_witness :
  let s := start_state (warehouse true) None in
  Accessors.fetchRawInOutData Bearer.apiClient s
  = (Ok (Orders sample_orders), (Accessors.fetchRawInOutData Bearer.apiClient s).2)
  ∧ ∃ out,
      (BearerApi.fetchInOutData s).1 = Ok out
      ∧ map InOutRecord.id out = ["482-0"; "482-1"]
      ∧ map InOutRecord.individualCode out = ["ORDER-482-11"; "ORDER-482-12"]
      ∧ map InOutRecord.status out = ["완료"; "완료"]
      ∧ map InOutRecord.time out = ["08:15:30"; "08:15:30"].
Proof.
  cbv zeta. split; [vm_compute; reflexivity|].
  destruct (completed_orders_flattened
              (env := scripted (warehouse true)) Bearer.apiClient
              sample_orders (start_state (warehouse true) None) _ eq_refl)
    as (out & nowISO & Hout & _).
  exists out. unfold BearerApi.fetchInOutData. rewrite Hout. split; [reflexivity|].
  vm_compute in Hout. injection Hout as <-. repeat split; reflexivity.
Defined.

(** ** Composite identifiers and the verb fallback, on the wire *)

Section Wire.
Context {env : Environment}.

Lemma bearer_verb_fallback (id : string) (recordData : body) (s : State) :
  JS.isNaN (leading_number id) = false →
  let n := leading_number id in
  let c1 := Bearer.outgoing s (status_put n recordData) in
  let s1 := after s c1 in
  let c2 := Bearer.outgoing s1 (base_patch n recordData) in
  let s2 := after s1 c2 in
  let c3 := Bearer.outgoing s2 (base_put n recordData) in
  let s3 := after s2 c3 in
  let o1 := (adapter c1 (world s)).1 in
  let o2 := (adapter c2 (world s1)).1 in
  let o3 := (adapter c3 (world s2)).1 in
  BearerApi.updateInOutRecord id recordData s
  = (if responded_with 405 o1 then
       if responded_with 405 o2 then (data_of (settle c3 o3), s3)
       else (data_of (settle c2 o2), s2)
     else (data_of (settle c1 o1), s1)).
Proof.
  intros Hvalid n. cbv zeta.
  unfold BearerApi.updateInOutRecord. rewrite updateInOutRecord_eq, Hvalid.
  cbv zeta. fold n.
  rewrite bearer_call. cbv beta iota. rewrite rejected_settle by lia.
  destruct (responded_with 405 _); [|reflexivity].
  rewrite bearer_call. cbv beta iota. rewrite rejected_settle by lia.
  destruct (responded_with 405 _); [|reflexivity].
  rewrite bearer_call. reflexivity.
Qed.


(** C1.  The empty identifier is not refused: its leading segment converts
    to 0, which is not [NaN], so each of the three operations hands a
    request for order 0 to the instance, and in the bearer variant that
    request goes on the wire.  (Identifiers such as "abc-3" are refused
    before any call, lemma [non_numeric_identifier_refused], and "482-3"
    addresses order 482, example [number_of_leading_segment].) *)
Theorem empty_identifier_is_sent (status : string) (recordData : body) (s : State) :
  JS.isNaN (leading_number "") = false
  ∧ (∀ (apiClient : Config.t → Async Response.t) (msg : Messages),
       let put_status := request "put" "/api/inout/orders/0/status" ∅
                                 (StatusBody (JS.toUpperCase status)) in
       let put_cancel := request "put" "/api/inout/orders/0/cancel" ∅ NoBody in
       let put_record := request "put" "/api/inout/orders/0/status" ∅ recordData in
       Accessors.updateOrderStatus apiClient msg "" status s
       = (data_of (apiClient put_status s).1, (apiClient put_status s).2)
       ∧ Accessors.cancelInOutOrder apiClient msg (IdString "") s
       = (data_of (apiClient put_cancel s).1, (apiClient put_cancel s).2)
       ∧ Accessors.updateInOutRecord apiClient msg "" recordData s
         = (let '(r1, s1) := apiClient put_record s in
            if rejected_with 405 r1 then
              let '(r2, s2) :=
                apiClient (request "patch" "/api/inout/orders/0" ∅ recordData) s1 in
              if rejected_with 405 r2 then
                let '(r3, s3) :=
                  apiClient (request "put" "/api/inout/orders/0" ∅ recordData) s2 in
                (data_of r3, s3)
              else (data_of r2, s2)
            else (data_of r1, s1)))
  ∧ (let c := Bearer.outgoing s (request "put" "/api/inout/orders/0/status" ∅
                                         (StatusBody (JS.toUpperCase status))) in
     BearerApi.updateOrderStatus "" status s
     = (data_of (settle c (adapter c (world s)).1), after s c)
     ∧ trace (after s c) = trace s ++ [Http c]
     ∧ Config.url c = "/api/inout/orders/0/status")
  ∧ (let c := Bearer.outgoing s (request "put" "/api/inout/orders/0/cancel" ∅ NoBody) in
     BearerApi.cancelInOutOrder (IdString "") s
     = (data_of (settle c (adapter c (world s)).1), after s c)
     ∧ trace (after s c) = trace s ++ [Http c]
     ∧ Config.url c = "/api/inout/orders/0/cancel")
  ∧ (∃ rest, let c := Bearer.outgoing s (status_put (JS.Finite false 0 0) recordData) in
       trace (BearerApi.updateInOutRecord "" recordData s).2 = trace s ++ Http c :: rest
       ∧ Config.url c = "/api/inout/orders/0/status").
Proof.
  split; [reflexivity|]. split; [|split; [|split]].
  - intros apiClient msg. cbv zeta.
    rewrite updateOrderStatus_eq, cancelInOutOrder_eq, updateInOutRecord_eq.
    change (JS.isNaN (leading_number "")) with false. cbv iota zeta.
    change (Accessors.order_path (leading_number "") "/status") with "/api/inout/orders/0/status".
    split; [reflexivity|]. split; reflexivity.
  - cbv zeta. unfold BearerApi.updateOrderStatus. rewrite updateOrderStatus_eq.
    change (JS.isNaN (leading_number "")) with false.
    cbv iota zeta. rewrite bearer_call.
    split; [reflexivity|]. split; [reflexivity|]. apply outgoing_url.
  - cbv zeta. unfold BearerApi.cancelInOutOrder. rewrite cancelInOutOrder_eq.
    change (JS.isNaN (leading_number "")) with false.
    cbv iota zeta. rewrite bearer_call.
    split; [reflexivity|]. split; [reflexivity|]. apply outgoing_url.
  - pose proof (bearer_verb_fallback "" recordData s eq_refl) as Heq.
    change (leading_number "") with (JS.Finite false 0 0) in Heq.
    cbv zeta in *. rewrite Heq.
    destruct (responded_with 405 _); [destruct (responded_with 405 _)|]; cbn [snd].
    + eexists. split; [|apply outgoing_url]. unfold after. simpl.
      rewrite <- !app_assoc. reflexivity.
    + eexists. split; [|apply outgoing_url]. unfold after. simpl.
      rewrite <- !app_assoc. reflexivity.
    + exists []. split; [reflexivity|apply outgoing_url].
Qed.

End Wire.

(** ** Token injection, acquisition, cache busting, recovery *)

Section Interceptors.
Context {env : Environment}.

(** C7 (amended).  Acquisition fetches /api/csrf; if that answer yields a
    usable token it is returned after this one call; otherwise /csrf is
    fetched and its token returned if it yields one; otherwise acquisition
    fails: with the error 'CSRF token endpoint not reachable' when the
    second endpoint answered (not ok, or JSON without a token), and with
    the second call's own error when that call or its decoding threw.  The
    failure is never an HTTP rejection, and no other path is fetched. *)
Theorem token_acquisition_order (s : State) :
  let o1 := (fetch "/api/csrf" (world s)).1 in
  let w1 := (fetch "/api/csrf" (world s)).2 in
  let o2 := (fetch "/csrf" w1).1 in
  let w2 := (fetch "/csrf" w1).2 in
  let once := mkState w1 (authToken s) (CSRF_TOKEN s) (trace s ++ [Fetch "/api/csrf"]) in
  let twice := mkState w2 (authToken s) (CSRF_TOKEN s)
                       (trace s ++ [Fetch "/api/csrf"; Fetch "/csrf"]) in
  (∀ t, Session.usable o1 = Some t → Session.fetchCsrfToken s = (Ok t, once))
  ∧ (∀ t, Session.usable o1 = None → Session.usable o2 = Some t →
       Session.fetchCsrfToken s = (Ok t, twice))
  ∧ (Session.usable o1 = None → Session.usable o2 = None →
       Session.fetchCsrfToken s = (Err (Session.secondary_failure o2), twice)
       ∧ (o2 ≠ FetchRejected →
          (∀ r, o2 = FetchResolved r → FetchResponse.ok r = true → FetchResponse.json r ≠ None) →
          Session.secondary_failure o2 = Error "CSRF token endpoint not reachable")
       ∧ (o2 = FetchRejected → Session.secondary_failure o2 = TypeError "Failed to fetch")
       ∧ (∀ c r, Session.secondary_failure o2 ≠ AxiosError c r)).
Proof.
  cbv zeta. rewrite fetchCsrfToken_eq.
  destruct (fetch "/api/csrf" (world s)) as [o1 w1]. cbn [fst snd].
  split; [|split].
  - intros t ->. reflexivity.
  - intros t -> H2. destruct (fetch "/csrf" w1) as [o2 w2]. cbn [fst snd] in *.
    rewrite H2. reflexivity.
  - intros -> H2. destruct (fetch "/csrf" w1) as [o2 w2]. cbn [fst snd] in *.
    rewrite H2. split; [reflexivity|]. split; [|split].
    + intros Hrej Hjson. destruct o2 as [|r]; [done|]. simpl.
      destruct (FetchResponse.ok r) eqn:Hok; [|reflexivity].
      specialize (Hjson r eq_refl Hok).
      destruct (FetchResponse.json r); [reflexivity|done].
    + intros ->. reflexivity.
    + intros c r. destruct o2 as [|[[] [[]|]]]; discriminate.
Qed.

(** C6.  In the session variant the request interceptor leaves the headers
    of a GET, HEAD or OPTIONS request as they are and fetches nothing; for
    any other verb with no token cached it runs token acquisition once
    before the request is sent (one fetch of /api/csrf, followed by one of
    /csrf only when the first yields no token), stores the token and sends
    the request with that token in X-CSRF-TOKEN; when acquisition fails the
    request is not sent.  Acquisition itself goes through plain [fetch]
    calls and not through the instance, so nothing is injected into it, and
    it leaves the cached token alone. *)
Theorem csrf_injection (config : Config.t) (s : State) :
  (Session.isSafeMethod (Config.method config) = true
   ↔ JS.toUpperCase (Session.method_or_GET (Config.method config)) ∈ ["GET"; "HEAD"; "OPTIONS"])
  ∧ (Session.isSafeMethod (Config.method config) = true →
     ∃ c, Session.request_interceptor config s = (Ok c, s)
          ∧ Config.headers c = Config.headers config)
  ∧ (Session.isSafeMethod (Config.method config) = false →
     Session.no_token (CSRF_TOKEN s) = true →
     match Session.fetchCsrfToken s with
     | (Ok t, s1) =>
         let c := session_outgoing s t config in
         Session.request_interceptor config s = (Ok c, set_token (Some t) s1)
         ∧ Config.headers c !! "X-CSRF-TOKEN" = Some t
         ∧ ∃ urls, (urls = ["/api/csrf"] ∨ urls = ["/api/csrf"; "/csrf"])
             ∧ trace (Session.attempt config s).2 = trace s ++ map Fetch urls ++ [Http c]
     | (Err e, s1) =>
         Session.attempt config s = (Err e, s1)
         ∧ https (trace s1) = https (trace s)
     end)
  ∧ (∃ urls, (urls = ["/api/csrf"] ∨ urls = ["/api/csrf"; "/csrf"])
       ∧ trace (Session.fetchCsrfToken s).2 = trace s ++ map Fetch urls
       ∧ CSRF_TOKEN (Session.fetchCsrfToken s).2 = CSRF_TOKEN s).
Proof.
  split; [|split; [|split]].
  - unfold Session.isSafeMethod. apply bool_decide_eq_true.
  - intros Hsafe. eexists. split; [apply request_interceptor_safe, Hsafe|reflexivity].
  - intros Hsafe Hno.
    destruct (fetchCsrfToken_trace s) as (urls & Hurls & Htr & _).
    pose proof (fetchCsrfToken_https s) as Hh.
    destruct (Session.fetchCsrfToken s) as [[t|e] s1] eqn:Hacq; cbn [snd] in Htr, Hh.
    + cbv zeta. rewrite (request_interceptor_acquire config s Hsafe Hno), Hacq.
      split; [reflexivity|]. split.
      { unfold session_outgoing, with_header. simpl. apply lookup_insert_eq. }
      exists urls. split; [exact Hurls|].
      unfold Session.attempt, bind.
      rewrite (request_interceptor_acquire config s Hsafe Hno), Hacq.
      unfold dispatchRequest. destruct (adapter _ _) as [o w]. simpl.
      rewrite Htr, <- app_assoc. reflexivity.
    + unfold Session.attempt, bind.
      rewrite (request_interceptor_acquire config s Hsafe Hno), Hacq. auto.
  - destruct (fetchCsrfToken_trace s) as (urls & Hurls & Htr & Htok & _). eauto.
Qed.

(** C8 (amended).  In both variants the request interceptor gives every
    request handed to the axios instance the query parameter [_t] with the
    current time and leaves its URL, verb, body and other parameters as
    they are; of the headers, the variant's security header (Authorization,
    X-CSRF-TOKEN) may change and no other.  Every request the instance
    transmits, a retry included, carries the parameter.  The session
    variant also puts plain fetches of /api/csrf and /csrf on the wire, and
    those carry no such parameter.  Two requests intercepted at different
    times carry different values, whatever their paths and bodies. *)
Theorem cache_busting_timestamp (config : Config.t) (s : State) :
  (∃ c, Bearer.request_interceptor config s = (Ok c, s)
        ∧ same_request (Date_now (world s)) config c
        ∧ (∀ k, k ≠ "Authorization" → Config.headers c !! k = Config.headers config !! k)
        ∧ trace (Bearer.apiClient config s).2 = trace s ++ [Http c])
  ∧ (∀ c s', Session.request_interceptor config s = (Ok c, s') →
        same_request (Date_now (world s)) config c
        ∧ (∀ k, k ≠ "X-CSRF-TOKEN" → Config.headers c !! k = Config.headers config !! k))
  ∧ (∃ tr, trace (Session.apiClient config s).2 = trace s ++ tr
           ∧ Forall stamped_or_token_fetch tr)
  ∧ (∀ url, stamped_or_token_fetch (Fetch url) → ¬ carries_timestamp (Fetch url))
  ∧ (∀ now (c : Config.t), same_request now config c →
        Config.params c !! "_t" = Some (PNum now)
        ∧ ∀ k, k ≠ "_t" → Config.params c !! k = Config.params config !! k)
  ∧ (∀ (config2 : Config.t) (s2 : State),
        Date_now (world s) ≠ Date_now (world s2) →
        Config.params (Bearer.outgoing s config) !! "_t"
          ≠ Config.params (Bearer.outgoing s2 config2) !! "_t"
        ∧ ∀ c c2 s' s2',
            Session.request_interceptor config s = (Ok c, s') →
            Session.request_interceptor config2 s2 = (Ok c2, s2') →
            Config.params c !! "_t" ≠ Config.params c2 !! "_t").
Proof.
  assert (Hread : ∀ now (cfg c : Config.t), same_request now cfg c →
            Config.params c !! "_t" = Some (PNum now)
            ∧ ∀ k, k ≠ "_t" → Config.params c !! k = Config.params cfg !! k).
  { intros now cfg c (_ & _ & _ & _ & ->). split; [apply lookup_insert_eq|].
    intros k Hk. by rewrite lookup_insert_ne. }
  split; [|split; [|split; [|split; [|split]]]].
  - exists (Bearer.outgoing s config).
    destruct (bearer_outgoing_same config s) as [Hsame Hh].
    split; [apply bearer_interceptor_eq|]. split; [exact Hsame|]. split; [exact Hh|].
    rewrite bearer_call. reflexivity.
  - intros c s'. apply session_interceptor_same.
  - apply session_apiClient_stamped.
  - intros url [-> | ->]; simpl; discriminate.
  - intros now c. apply Hread.
  - intros config2 s2 Hne. split.
    + destruct (bearer_outgoing_same config s) as [(Ht & _)%Hread _].
      destruct (bearer_outgoing_same config2 s2) as [(Ht2 & _)%Hread _].
      rewrite Ht, Ht2. congruence.
    + intros c c2 s' s2' [(Ht & _)%Hread _]%session_interceptor_same
             [(Ht2 & _)%Hread _]%session_interceptor_same.
      rewrite Ht, Ht2. congruence.
Qed.

(** C2 (amended).  A state-changing request whose first attempt is rejected
    with 403 has its cached token discarded and a fresh one acquired; if
    that acquisition succeeds the request is transmitted exactly once more,
    marked as retried and carrying the new token, and the outcome of that
    transmission, success or any failure, is returned with no further
    retry; if the acquisition fails nothing more is transmitted and the
    original rejection is returned.  A failure that is not a 403, or of a
    request already marked as retried, or of a read-only request, is
    returned unchanged with nothing more transmitted. *)
Theorem recovery_retries_once (config : Config.t) (s : State) :
  (∀ c1 r s1,
     Session.isSafeMethod (Config.method config) = false →
     Config._retriedOnce config = false →
     Session.attempt config s = (Err (AxiosError c1 (Some r)), s1) →
     Response.status r = 403 →
     match Session.fetchCsrfToken (set_token None s1) with
     | (Ok t, s2) =>
         let c2 := session_outgoing s2 t (with_retried c1) in
         Session.apiClient config s
         = (settle c2 (adapter c2 (world s2)).1, after (set_token (Some t) s2) c2)
         ∧ Config.headers c2 !! "X-CSRF-TOKEN" = Some t
         ∧ https (trace (after (set_token (Some t) s2) c2)) = https (trace s) ++ [c1; c2]
     | (Err _, s2) =>
         Session.apiClient config s = (Err (AxiosError (with_retried c1) (Some r)), s2)
         ∧ CSRF_TOKEN s2 = None
         ∧ https (trace s2) = https (trace s) ++ [c1]
     end)
  ∧ (∀ e s1,
       Session.attempt config s = (Err e, s1) →
       has_status 403 e = false ∨ Config._retriedOnce config = true
       ∨ Session.isSafeMethod (Config.method config) = true →
       Session.apiClient config s = (Err e, s1))
  ∧ (∀ response s1,
       Session.attempt config s = (Ok response, s1) →
       Session.apiClient config s = (Ok response, s1)).
Proof.
  split; [|split].
  - intros c1 r s1 Hsafe Hfirst Hatt H403.
    pose proof (attempt_rejected _ _ _ _ _ Hatt eq_refl) as (Hr1 & Hm1 & Hh1).
    unfold Session.apiClient. rewrite apiClient_rec_S. unfold try_catch. rewrite Hatt.
    unfold Session.response_rejected. cbn [error_config].
    unfold has_status. cbn [error_status]. rewrite H403, Hr1, Hfirst, Hm1, Hsafe.
    cbn [Z.eqb Pos.eqb negb andb].
    unfold bind, try_catch, set_CSRF_TOKEN, ret.
    fold (set_token None s1).
    pose proof (fetchCsrfToken_https (set_token None s1)) as Hh2.
    pose proof (fetchCsrfToken_trace (set_token None s1)) as (urls & _ & _ & Htok & _).
    destruct (Session.fetchCsrfToken (set_token None s1)) as [[t|e'] s2] eqn:Hacq;
      cbn [snd] in *.
    + pose proof (fetchCsrfToken_truthy _ _ _ Hacq) as Htr.
      cbv zeta. fold (set_token (Some t) s2).
      rewrite apiClient_rec_retried by reflexivity.
      unfold Session.attempt, bind.
      rewrite (request_interceptor_cached _ (set_token (Some t) s2) t);
        [|simpl; by rewrite Hm1|reflexivity|exact Htr].
      assert (Hc2 : session_outgoing (set_token (Some t) s2) t
                      (with_header "X-CSRF-TOKEN" t (with_retried c1))
                    = session_outgoing s2 t (with_retried c1)).
      { unfold session_outgoing, with_header, with_timestamp. simpl.
        by rewrite insert_insert_eq. }
      rewrite Hc2. split; [|split].
      * unfold dispatchRequest, after. simpl.
        destruct (adapter _ (world s2)); reflexivity.
      * unfold session_outgoing, with_header. simpl. apply lookup_insert_eq.
      * unfold after. simpl. unfold https in *. rewrite omap_app. simpl.
        rewrite Hh2. simpl. rewrite Hh1, <- app_assoc. reflexivity.
    + split; [reflexivity|]. split; [exact Htok|].
      rewrite Hh2. exact Hh1.
  - intros e s1 Hatt Hwhy.
    unfold Session.apiClient. rewrite apiClient_rec_S. unfold try_catch. rewrite Hatt.
    unfold Session.response_rejected.
    destruct (error_config e) as [c|] eqn:Hc; [|reflexivity].
    destruct (attempt_rejected _ _ _ _ _ Hatt Hc) as (Hr & Hm & _).
    rewrite Hr, Hm.
    destruct Hwhy as [-> | [-> | ->]]; [reflexivity| |].
    + by rewrite andb_false_r.
    + by rewrite andb_false_r.
  - intros response s1 Hatt.
    unfold Session.apiClient. rewrite apiClient_rec_S. unfold try_catch. by rewrite Hatt.
Qed.
End Interceptors.

(** The first endpoint answers 404, the second hands out a token. *)
Lemma token_acquisition_order_witness :
  let s := start_state stale_session None in
  Session.usable (fetch (Environment := scripted stale_session) "/api/csrf" (world s)).1 = None
  ∧ (Session.fetchCsrfToken s).1 = Ok "fresh"
  ∧ trace (Session.fetchCsrfToken s).2 = [Fetch "/api/csrf"; Fetch "/csrf"].
Proof.
  cbv zeta. split; [reflexivity|].
  destruct (token_acquisition_order (env := scripted stale_session)
                                    (start_state stale_session None)) as (_ & H & _).
  rewrite (H "fresh" eq_refl eq_refl). split; reflexivity.
Defined.

(** C7, as stated, fails: with both endpoints unreachable acquisition fails
    with the second [fetch]'s own error, not with the reserved one. *)
Lemma acquisition_can_fail_otherwise :
  (Session.fetchCsrfToken (start_state tokens_down None)).1 = Err (TypeError "Failed to fetch")
  ∧ ¬ acquisition_fails_only_as_unavailable.
Proof.
  split; [reflexivity|].
  intros H.
  specialize (H (scripted tokens_down) (start_state tokens_down None) _ _ eq_refl).
  discriminate H.
Qed.

(** A [DELETE] with no token cached, acquired from the second endpoint. *)
Lemma csrf_injection_witness :
  let s := start_state stale_session None in
  let c := session_outgoing s "fresh" delete_item_3 in
  Session.isSafeMethod (Config.method delete_item_3) = false
  ∧ Session.no_token (CSRF_TOKEN s) = true
  ∧ (Session.request_interceptor delete_item_3 s).1 = Ok c
  ∧ CSRF_TOKEN (Session.request_interceptor delete_item_3 s).2 = Some "fresh"
  ∧ Config.headers c !! "X-CSRF-TOKEN" = Some "fresh"
  ∧ trace (Session.attempt delete_item_3 s).2 = [Fetch "/api/csrf"; Fetch "/csrf"; Http c].
Proof.
  cbv zeta. split; [reflexivity|]. split; [reflexivity|].
  pose proof (proj1 (proj2 (proj2 (csrf_injection (env := scripted stale_session) delete_item_3
                                     (start_state stale_session None)))) eq_refl eq_refl) as H.
  set (acq := Session.fetchCsrfToken _) in H.
  vm_compute in (value of acq). subst acq. cbv beta iota zeta in H.
  destruct H as (Hri & Hhdr & _).
  rewrite Hri. split; [reflexivity|]. split; [reflexivity|]. split; [exact Hhdr|].
  vm_compute. reflexivity.
Defined.

(** The same request intercepted at 1000 and at 2000. *)
Lemma cache_busting_timestamp_witness :
  let s := start_state stale_session (Some "stale") in
  let later := mkState (env := scripted stale_session) 2000 None (Some "stale") [] in
  let c := session_outgoing s "stale" delete_item_3 in
  Session.request_interceptor delete_item_3 s = (Ok c, s)
  ∧ same_request 1000 delete_item_3 c
  ∧ Config.params c !! "_t" = Some (PNum 1000)
  ∧ Config.params (Bearer.outgoing s delete_item_3) !! "_t"
    ≠ Config.params (Bearer.outgoing later delete_item_3) !! "_t".
Proof.
  cbv zeta.
  destruct (cache_busting_timestamp (env := scripted stale_session) delete_item_3
                                    (start_state stale_session (Some "stale")))
    as (_ & Hsession & _ & _ & Hread & Hfresh).
  assert (Hri : Session.request_interceptor delete_item_3 (start_state stale_session (Some "stale"))
                = (Ok (session_outgoing (start_state stale_session (Some "stale")) "stale"
                                        delete_item_3),
                   start_state stale_session (Some "stale"))) by reflexivity.
  split; [exact Hri|].
  destruct (Hsession _ _ Hri) as [Hsame _].
  split; [exact Hsame|]. split; [exact (proj1 (Hread _ _ Hsame))|].
  refine (proj1 (Hfresh delete_item_3
                        (mkState (env := scripted stale_session) 2000 None (Some "stale") []) _)).
  simpl. lia.
Defined.

(** With no token cached, a delete goes out behind a fetch of /api/csrf:
    the fetch carries no [_t], and the request leaves with a header it was
    not given. *)
Lemma token_fetch_goes_out_unstamped :
  (let s := start_state (warehouse true) None in
   let c := session_outgoing s "token-1" delete_item_3 in
   trace (Session.apiClient delete_item_3 s).2 = [Fetch "/api/csrf"; Http c]
   ∧ carries_timestamp (Http c)
   ∧ ¬ carries_timestamp (Fetch "/api/csrf")
   ∧ Config.headers c !! "X-CSRF-TOKEN" = Some "token-1"
   ∧ Config.headers delete_item_3 !! "X-CSRF-TOKEN" = None)
  ∧ ¬ every_outgoing_request_is_stamped
  ∧ ¬ other_fields_are_unchanged.
Proof.
  split; [|split].
  - cbv zeta. split; [reflexivity|]. split; [by exists 1000|].
    split; [simpl; discriminate|]. split; reflexivity.
  - intros H.
    specialize (H (scripted (warehouse true)) delete_item_3 (start_state (warehouse true) None)
                  _ eq_refl).
    inversion H as [|? ? Hfetch _]. simpl in Hfetch. discriminate Hfetch.
  - intros H.
    specialize (H (scripted (warehouse true)) delete_item_3
                  (session_outgoing (start_state (warehouse true) (Some "token-1")) "token-1"
                                    delete_item_3)
                  (start_state (warehouse true) (Some "token-1"))
                  (start_state (warehouse true) (Some "token-1"))
                  (or_introl eq_refl)).
    apply (f_equal (λ c, Config.headers c !! "X-CSRF-TOKEN")) in H. discriminate H.
Qed.

(** A stale token: 403, acquisition of a fresh one, one retry, success. *)
Lemma recovery_retries_once_witness :
  let s := start_state stale_session (Some "stale") in
  Session.isSafeMethod (Config.method delete_item_3) = false
  ∧ Config._retriedOnce delete_item_3 = false
  ∧ rejected_with 403 (Session.attempt delete_item_3 s).1 = true
  ∧ (Session.apiClient delete_item_3 s).1 = Ok (Response.mk 200 (Opaque "done"))
  ∧ map (λ c, (Config.headers c !! "X-CSRF-TOKEN", Config._retriedOnce c))
        (https (trace (Session.apiClient delete_item_3 s).2))
    = [(Some "stale", false); (Some "fresh", true)]
  ∧ fetches (trace (Session.apiClient delete_item_3 s).2) = ["/api/csrf"; "/csrf"]
  ∧ CSRF_TOKEN (Session.apiClient delete_item_3 s).2 = Some "fresh".
Proof.
  cbv zeta. split; [reflexivity|]. split; [reflexivity|]. split; [reflexivity|].
  eassert (Ha : Session.attempt (env := scripted stale_session) delete_item_3
                  (start_state stale_session (Some "stale"))
                = (Err (AxiosError _ (Some _)), _)) by (vm_compute; reflexivity).
  pose proof (proj1 (recovery_retries_once (env := scripted stale_session) delete_item_3
                       (start_state stale_session (Some "stale")))
                    _ _ _ eq_refl eq_refl Ha eq_refl) as H.
  set (acq := Session.fetchCsrfToken _) in H.
  vm_compute in (value of acq). subst acq. cbv beta iota zeta in H.
  destruct H as (Heq & _). rewrite Heq.
  repeat split; vm_compute; reflexivity.
Defined.

(** C2, as stated, fails: when the token endpoints cannot be reached a
    state-changing request rejected with 403 is transmitted once only, and
    the rejection is returned. *)
Lemma retry_needs_a_fresh_token :
  let s := start_state tokens_down (Some "stale") in
  (Session.isSafeMethod (Config.method delete_item_3) = false
   ∧ rejected_with 403 (Session.attempt delete_item_3 s).1 = true
   ∧ rejected_with 403 (Session.apiClient delete_item_3 s).1 = true
   ∧ length (https (trace (Session.apiClient delete_item_3 s).2)) = 1%nat)
  ∧ ¬ every_rejection_is_retried.
Proof.
  cbv zeta. split; [repeat split; reflexivity|].
  intros H.
  eassert (Ha : Session.attempt (env := scripted tokens_down) delete_item_3
                  (start_state tokens_down (Some "stale"))
                = (Err (AxiosError _ (Some _)), _)) by (vm_compute; reflexivity).
  specialize (H (scripted tokens_down) delete_item_3 _ _ _ _ eq_refl eq_refl Ha eq_refl).
  vm_compute in H. discriminate H.
Qed.

(** ** The dashboard *)

Section Dashboard.
Context {env : Environment}.

Lemma fetch_all_six_ok (apiClient : Config.t → Async Response.t) (s1 : State) :
  (false ∉ six_reads apiClient s1 →
     ∃ items users orders inventory schedules summary,
       (Accessors.fetch_all_six apiClient s1).1
       = Ok (items, (users, (orders, (inventory, (schedules, summary))))))
  ∧ (false ∈ six_reads apiClient s1 →
     ∃ err, (Accessors.fetch_all_six apiClient s1).1 = Err err).
Proof.
  unfold six_reads, Accessors.fetch_all_six, Accessors.both.
  destruct (Accessors.fetchItems apiClient s1) as [r1 s2].
  destruct (Accessors.fetchUsers apiClient s2) as [r2 s3].
  destruct (Accessors.fetchRawInOutData apiClient s3) as [r3 s4].
  destruct (Accessors.fetchRawInventoryData apiClient s4) as [r4 s5].
  destruct (Accessors.fetchSchedules apiClient s5) as [r5 s6].
  destruct (Accessors.fetchDashboardSummary apiClient s6) as [r6 s7].
  destruct r1 as [a1|e1], r2 as [a2|e2], r3 as [a3|e3], r4 as [a4|e4], r5 as [a5|e5],
    r6 as [a6|e6]; cbn [is_ok fst];
    (split; [intros Hall | intros Hsome]);
    try (by eauto 10);
    try (exfalso; apply Hall; repeat first [apply list_elem_of_here | apply list_elem_of_further]).
  exfalso. repeat (apply elem_of_cons in Hsome as [Hsome|Hsome]; [discriminate|]).
  by apply elem_of_nil in Hsome.
Qed.

Lemma bearer_fallback_eq (s s1 : State) (e : error) :
  Accessors.http_get Bearer.apiClient "/api/dashboard/all" s = (Err e, s1) →
  BearerApi.fetchDashboardAll s
  = match Accessors.fetch_all_six Bearer.apiClient s1 with
    | (Ok r, s7) => (Ok (Accessors.assemble r (Date_now (world s7) - Date_now (world s))), s7)
    | (Err err, s7) => (Err err, s7)
    end.
Proof.
  intros H. unfold BearerApi.fetchDashboardAll, bind, try_catch, get_now, ret.
  rewrite H. destruct (Accessors.fetch_all_six Bearer.apiClient s1) as [[r|err] s7]; reflexivity.
Qed.

Lemma session_fallback_eq (s s1 : State) (e : error) :
  Accessors.http_get Session.apiClient "/api/dashboard/all" s = (Err e, s1) →
  SessionApi.fetchDashboardAll s
  = match Accessors.fetch_all_six Session.apiClient s1 with
    | (Ok r, s7) => (Ok (Accessors.assemble r (Date_now (world s7) - Date_now (world s1))), s7)
    | (Err err, s7) => (Err err, s7)
    end.
Proof.
  intros H.
  unfold SessionApi.fetchDashboardAll, SessionApi.fetchDashboardAllFallback,
    bind, try_catch, get_now, ret, throw.
  rewrite H. destruct (Accessors.fetch_all_six Session.apiClient s1) as [[r|err] s7]; reflexivity.
Qed.

Lemma assemble_time r (t : Z) : DashboardData.totalLoadTime (Accessors.assemble r t) = t.
Proof. destruct r as (? & ? & ? & ? & ? & ?). reflexivity. Qed.

(** In the bearer variant the reported time runs from the start of the
    consolidated attempt, on either path. *)
Lemma bearer_total_time (s s' : State) (d : DashboardData.t) :
  BearerApi.fetchDashboardAll s = (Ok d, s') →
  DashboardData.totalLoadTime d = Date_now (world s') - Date_now (world s).
Proof.
  destruct (Accessors.http_get Bearer.apiClient "/api/dashboard/all" s) as [[res|e] s1] eqn:H.
  - unfold BearerApi.fetchDashboardAll, bind, try_catch, get_now, ret, Accessors.handleResponse.
    rewrite H. intros [= <- <-]. by destruct (Response.data res).
  - rewrite (bearer_fallback_eq s s1 e H).
    destruct (Accessors.fetch_all_six Bearer.apiClient s1) as [[r|err] s7]; [|discriminate].
    intros [= <- <-]. apply assemble_time.
Qed.

(** C3.  In the session variant, when the consolidated read fails and the
    fallback succeeds, the reported [totalLoadTime] is the time from the
    start of the fallback to its end: [fetchDashboardAllFallback] reads the
    clock anew, so the time spent on the failed consolidated attempt is
    left out.  (The bearer variant measures from the start of the first
    attempt, lemma [bearer_total_time].) *)
Theorem session_fallback_time_restarts (s s1 s' : State) (e : error) (d : DashboardData.t) :
  Accessors.http_get Session.apiClient "/api/dashboard/all" s = (Err e, s1) →
  SessionApi.fetchDashboardAll s = (Ok d, s') →
  DashboardData.totalLoadTime d = Date_now (world s') - Date_now (world s1).
Proof.
  intros H. rewrite (session_fallback_eq s s1 e H).
  destruct (Accessors.fetch_all_six Session.apiClient s1) as [[r|err] s7]; [|discriminate].
  intros [= <- <-]. apply assemble_time.
Qed.

(** C4.  When the consolidated read fails, the fallback is all or nothing
    in both variants: if any of its six reads (items, users, orders,
    inventory, schedules, summary) fails, [fetchDashboardAll] fails and
    returns no snapshot; if all succeed, the snapshot has the seven fields
    of [DashboardData], with items, orders, inventory, schedules and
    summary as the reads returned them.  Its user objects, though, carry
    userId, username, email, fullName, role and status as the backend sent
    them and neither lastLogin nor joinedAt, which [UserResponse], the
    declared type of the field, requires. *)
Theorem fallback_all_or_nothing (s s1 : State) (e : error) :
  (Accessors.http_get Bearer.apiClient "/api/dashboard/all" s = (Err e, s1) →
     (false ∈ six_reads Bearer.apiClient s1 →
        ∃ err s', BearerApi.fetchDashboardAll s = (Err err, s'))
     ∧ (false ∉ six_reads Bearer.apiClient s1 →
        ∃ items users orders inventory schedules summary t s',
          (Accessors.fetch_all_six Bearer.apiClient s1).1
            = Ok (items, (users, (orders, (inventory, (schedules, summary)))))
          ∧ BearerApi.fetchDashboardAll s
            = (Ok (DashboardData.mk items (Users (map Accessors.to_dashboard_user users))
                                    orders inventory schedules summary t), s')))
  ∧ (Accessors.http_get Session.apiClient "/api/dashboard/all" s = (Err e, s1) →
     (false ∈ six_reads Session.apiClient s1 →
        ∃ err s', SessionApi.fetchDashboardAll s = (Err err, s'))
     ∧ (false ∉ six_reads Session.apiClient s1 →
        ∃ items users orders inventory schedules summary t s',
          (Accessors.fetch_all_six Session.apiClient s1).1
            = Ok (items, (users, (orders, (inventory, (schedules, summary)))))
          ∧ SessionApi.fetchDashboardAll s
            = (Ok (DashboardData.mk items (Users (map Accessors.to_dashboard_user users))
                                    orders inventory schedules summary t), s')))
  ∧ (∀ (now : Z) (b : UserResponse.t),
       Accessors.to_dashboard_user (Accessors.to_user now b)
       = UserResponse.mk (UserResponse.userId b) (UserResponse.username b)
                         (UserResponse.email b) (UserResponse.fullName b)
                         (UserResponse.role b) (UserResponse.status b) None None
       ∧ user_fields (Accessors.to_dashboard_user (Accessors.to_user now b))
         = ["userId"; "username"; "email"; "fullName"; "role"; "status"]).
Proof.
  split; [|split].
  - intros H. rewrite (bearer_fallback_eq s s1 e H).
    destruct (fetch_all_six_ok Bearer.apiClient s1) as [Hok Herr]. split.
    + intros (err & Hr)%Herr.
      destruct (Accessors.fetch_all_six Bearer.apiClient s1) as [[r|err'] s7];
        [discriminate|eauto].
    + intros (i & u & o & inv & sch & sm & Hr)%Hok.
      destruct (Accessors.fetch_all_six Bearer.apiClient s1) as [[r|err'] s7];
        [|discriminate].
      simpl in Hr. injection Hr as ->. repeat eexists.
  - intros H. rewrite (session_fallback_eq s s1 e H).
    destruct (fetch_all_six_ok Session.apiClient s1) as [Hok Herr]. split.
    + intros (err & Hr)%Herr.
      destruct (Accessors.fetch_all_six Session.apiClient s1) as [[r|err'] s7];
        [discriminate|eauto].
    + intros (i & u & o & inv & sch & sm & Hr)%Hok.
      destruct (Accessors.fetch_all_six Session.apiClient s1) as [[r|err'] s7];
        [|discriminate].
      simpl in Hr. injection Hr as ->. repeat eexists.
  - intros now b. split; reflexivity.
Qed.
End Dashboard.

(** A failed consolidated read of 10 ms, then six reads of 10 ms each: the
    session variant reports 60, the bearer variant 70. *)
Lemma session_fallback_time_restarts_witness :
  let s := start_state (warehouse false) None in
  rejected_with 500 (Accessors.http_get Session.apiClient "/api/dashboard/all" s).1 = true
  ∧ ∃ d s',
      SessionApi.fetchDashboardAll s = (Ok d, s')
      ∧ DashboardData.totalLoadTime d = 60
      ∧ Date_now (world s') - Date_now (world s) = 70
      ∧ match (BearerApi.fetchDashboardAll s).1 with
        | Ok d' => DashboardData.totalLoadTime d' = 70
        | Err _ => False
        end.
Proof.
  cbv zeta. split; [reflexivity|].
  eassert (Hc : Accessors.http_get (env := scripted (warehouse false)) Session.apiClient
                  "/api/dashboard/all" (start_state (warehouse false) None)
                = (Err _, _)) by (vm_compute; reflexivity).
  eassert (Hd : SessionApi.fetchDashboardAll (env := scripted (warehouse false))
                  (start_state (warehouse false) None) = (Ok _, _))
    by (vm_compute; reflexivity).
  eexists _, _. split; [exact Hd|].
  rewrite (session_fallback_time_restarts (env := scripted (warehouse false)) _ _ _ _ _ Hc Hd).
  repeat split; vm_compute; reflexivity.
Defined.

(** A backend with only the consolidated endpoint down, and one with the
    schedules endpoint down as well. *)
Lemma fallback_all_or_nothing_witness :
  (let s := start_state (warehouse false) None in
   rejected_with 500 (Accessors.http_get Session.apiClient "/api/dashboard/all" s).1 = true
   ∧ ∃ d,
       (SessionApi.fetchDashboardAll s).1 = Ok d
       ∧ DashboardData.items d = Opaque "/api/items"
       ∧ DashboardData.orders d = Orders sample_orders
       ∧ DashboardData.inventory d = Inventory sample_inventory
       ∧ users_fields (DashboardData.users d)
         = [["userId"; "username"; "email"; "fullName"; "role"; "status"]])
  ∧ (let s := start_state partial_outage None in
     rejected_with 503 (Accessors.http_get Session.apiClient "/api/dashboard/all" s).1 = true
     ∧ is_ok (SessionApi.fetchDashboardAll s).1 = false
     ∧ is_ok (BearerApi.fetchDashboardAll s).1 = false).
Proof.
  cbv zeta. split.
  - split; [reflexivity|].
    eassert (Hc : Accessors.http_get (env := scripted (warehouse false)) Session.apiClient
                    "/api/dashboard/all" (start_state (warehouse false) None)
                  = (Err _, _)) by (vm_compute; reflexivity).
    destruct (proj1 (proj2 (fallback_all_or_nothing (env := scripted (warehouse false))
                              _ _ _)) Hc) as [_ Hok].
    destruct Hok as (items & users & orders & inventory & schedules & summary & t & s'
                     & Hsix & Heq).
    { vm_compute. intros Hin.
      repeat (apply elem_of_cons in Hin as [Hin|Hin]; [discriminate|]).
      by apply elem_of_nil in Hin. }
    rewrite Heq. eexists. split; [reflexivity|].
    vm_compute in Hsix. injection Hsix as <- <- <- <- <- <-.
    repeat split; reflexivity.
  - split; [reflexivity|].
    eassert (Hc : Accessors.http_get (env := scripted partial_outage) Session.apiClient
                    "/api/dashboard/all" (start_state partial_outage None)
                  = (Err _, _)) by (vm_compute; reflexivity).
    eassert (Hb : Accessors.http_get (env := scripted partial_outage) Bearer.apiClient
                    "/api/dashboard/all" (start_state partial_outage None)
                  = (Err _, _)) by (vm_compute; reflexivity).
    split.
    + destruct (proj1 (proj2 (fallback_all_or_nothing (env := scripted partial_outage)
                                _ _ _)) Hc) as [Hfail _].
      destruct Hfail as (err & s' & Heq); [|by rewrite Heq].
      vm_compute. do 4 apply list_elem_of_further. apply list_elem_of_here.
    + destruct (proj1 (fallback_all_or_nothing (env := scripted partial_outage)
                         _ _ _) Hb) as [Hfail _].
      destruct Hfail as (err & s' & Heq); [|by rewrite Heq].
      vm_compute. do 4 apply list_elem_of_further. apply list_elem_of_here.
Defined.

(** On one and the same backend the consolidated payload has users with
    the eight properties of [UserResponse], and the snapshot the fallback
    assembles has users with six. *)
Lemma fallback_users_lack_fields :
  (users_fields (match (SessionApi.fetchDashboardAll (start_state (warehouse true) None)).1 with
                 | Ok d => DashboardData.users d
                 | Err _ => Undefined
                 end)
   = [UserResponse_fields]
   ∧ users_fields (match (SessionApi.fetchDashboardAll (start_state (warehouse false) None)).1 with
                   | Ok d => DashboardData.users d
                   | Err _ => Undefined
                   end)
     = [["userId"; "username"; "email"; "fullName"; "role"; "status"]]
   ∧ six_reads Session.apiClient
               (Accessors.http_get Session.apiClient "/api/dashboard/all"
                                   (start_state (warehouse false) None)).2
     = [true; true; true; true; true; true])
  ∧ ¬ fallback_users_have_every_field.
Proof.
  split; [repeat split; reflexivity|].
  intros H.
  eassert (Hc : Accessors.http_get (env := scripted (warehouse false)) Session.apiClient
                  "/api/dashboard/all" (start_state (warehouse false) None)
                = (Err _, _)) by (vm_compute; reflexivity).
  eassert (Hd : SessionApi.fetchDashboardAll (env := scripted (warehouse false))
                  (start_state (warehouse false) None) = (Ok _, _))
    by (vm_compute; reflexivity).
  specialize (H (scripted (warehouse false)) _ _ _ _ _ Hc Hd).
  vm_compute in H. inversion H as [|? ? Hhead _]. discriminate Hhead.
Qed.

(** * Identifiers, whole calls and the remaining accessors *)

(** ** Decimal numerals *)

Lemma is_digit_facts (c : ascii) :
  is_digit c = true →
  JS.is_space c = false
  ∧ (∃ v, JS.digit_value 10 c = Some v ∧ v = (N_of_ascii c - 48)%N)
  ∧ Ascii.eqb c "-" = false ∧ Ascii.eqb c "+" = false ∧ Ascii.eqb c "." = false
  ∧ Ascii.eqb c "x" = false ∧ Ascii.eqb c "X" = false
  ∧ Ascii.eqb c "o" = false ∧ Ascii.eqb c "O" = false
  ∧ Ascii.eqb c "b" = false ∧ Ascii.eqb c "B" = false
  ∧ Ascii.eqb c "I" = false ∧ Ascii.eqb c "T" = false.
Proof.
  destruct c as [[] [] [] [] [] [] [] []]; try discriminate; intros _;
    repeat split; try reflexivity; eexists; split; reflexivity.
Qed.

Lemma digit_chars_digits (d : Decimal.uint) : Forall (λ c, is_digit c = true) (digit_chars d).
Proof. induction d; constructor; try reflexivity; assumption. Qed.

Lemma digit_chars_nonempty (d : Decimal.uint) : d ≠ Decimal.Nil → digit_chars d ≠ [].
Proof. destruct d; [congruence|..]; discriminate. Qed.

Lemma of_uint_acc_value (d : Decimal.uint) (acc : positive) :
  Npos (Pos.of_uint_acc d acc)
  = (Npos acc * 10 ^ N.of_nat (Decimal.nb_digits d) + Pos.of_uint d)%N.
Proof.
  revert acc. induction d; intros acc; cbn [Decimal.nb_digits Pos.of_uint_acc Pos.of_uint];
    rewrite ?IHd, ?Nat2N.inj_succ, ?N.pow_succ_r', ?N.pow_0_r; lia.
Qed.

Lemma digits_uint_app (d : Decimal.uint) (acc : N) (cnt : nat) (r : list ascii) :
  JS.digits 10 acc cnt (digit_chars d ++ r)
  = JS.digits 10 (acc * 10 ^ N.of_nat (Decimal.nb_digits d) + Pos.of_uint d)%N
              (cnt + Decimal.nb_digits d)%nat r.
Proof.
  revert acc cnt.
  induction d; intros acc cnt;
    [simpl; rewrite N.mul_1_r, N.add_0_r, Nat.add_0_r; reflexivity|..];
    unfold digit_chars in *;
    cbn [NilEmpty.string_of_uint list_ascii_of_string JS.digits Decimal.nb_digits app];
    (match goal with
     | |- context [JS.digit_value 10 ?c] =>
         change (JS.digit_value 10 c) with (Some (N_of_ascii c - 48)%N)
     end);
    cbn [N_of_ascii N_of_digits N.sub N.add N.mul Pos.sub Pos.pred_double N.double
         Pos.sub_mask Pos.succ_double_mask Pos.double_mask Pos.double_pred_mask];
    rewrite IHd, Nat.add_succ_r, Nat2N.inj_succ, N.pow_succ_r';
    cbn [Pos.of_uint]; rewrite ?of_uint_acc_value; try lia; f_equal; lia.
Qed.

Lemma digits_uint (d : Decimal.uint) (acc : N) (cnt : nat) :
  JS.digits 10 acc cnt (digit_chars d)
  = ((acc * 10 ^ N.of_nat (Decimal.nb_digits d) + Pos.of_uint d)%N,
     (cnt + Decimal.nb_digits d)%nat, []).
Proof. rewrite <- (app_nil_r (digit_chars d)) at 1. apply digits_uint_app. Qed.

Lemma trim_start_id (l : list ascii) :
  match l with c :: _ => JS.is_space c = false | [] => True end → JS.trim_start l = l.
Proof. destruct l as [|c r]; [reflexivity|]. simpl. by intros ->. Qed.

(** Text that neither begins nor ends with white space is its own trim. *)
Lemma trim_id (l : list ascii) (c : ascii) (r : list ascii) (z : ascii) (m : list ascii) :
  l = c :: r → l = m ++ [z] → JS.is_space c = false → JS.is_space z = false → JS.trim l = l.
Proof.
  intros Hl Hm Hc Hz. unfold JS.trim.
  rewrite (trim_start_id l) by (rewrite Hl; exact Hc).
  rewrite Hm at 1. rewrite rev_app_distr. cbn [rev app].
  rewrite (trim_start_id (z :: rev m)) by exact Hz.
  change (z :: rev m) with (rev [z] ++ rev m). rewrite <- rev_app_distr, rev_involutive.
  symmetry. exact Hm.
Qed.

Lemma snoc_of_nonempty {A} (l : list A) : l ≠ [] → ∃ m z, l = m ++ [z].
Proof.
  intros Hl. destruct (rev l) as [|z m] eqn:Hr.
  - apply (f_equal (@rev A)) in Hr. rewrite rev_involutive in Hr. done.
  - exists (rev m), z. apply (f_equal (@rev A)) in Hr. rewrite rev_involutive in Hr. exact Hr.
Qed.

Lemma trim_digits (l : list ascii) :
  Forall (λ c, is_digit c = true) l → JS.trim l = l.
Proof.
  intros Hall. destruct l as [|c r] eqn:Hl; [reflexivity|]. rewrite <- Hl in *.
  destruct (snoc_of_nonempty l) as (m & z & Hm); [by rewrite Hl|].
  assert (Hz : is_digit z = true).
  { rewrite Forall_forall in Hall. apply Hall. rewrite Hm. apply elem_of_app. right.
    apply list_elem_of_here. }
  assert (Hc : is_digit c = true).
  { rewrite Forall_forall in Hall. apply Hall. rewrite Hl. apply list_elem_of_here. }
  apply (trim_id l c r z m Hl Hm).
  - by apply is_digit_facts in Hc as (? & _).
  - by apply is_digit_facts in Hz as (? & _).
Qed.

(** [Number] of a decimal numeral is its value. *)
Lemma string_to_number_uint (d : Decimal.uint) :
  d ≠ Decimal.Nil →
  JS.string_to_number (NilEmpty.string_of_uint d) = JS.Finite false (Pos.of_uint d) 0.
Proof.
  intros Hd. unfold JS.string_to_number.
  fold (digit_chars d). rewrite trim_digits by apply digit_chars_digits.
  pose proof (digit_chars_digits d) as Hall.
  pose proof (digits_uint d 0 0) as Hdig.
  assert (Hn : Decimal.nb_digits d ≠ O) by (destruct d; [done|..]; discriminate).
  destruct (digit_chars d) as [|c r] eqn:Hl; [by apply digit_chars_nonempty in Hl|].
  apply Forall_cons in Hall as [Hc Hr].
  apply is_digit_facts in Hc as (_ & _ & Hm & Hp & _ & _ & _ & _ & _ & _ & _ & HI & _).
  assert (Hpre : match r with
                 | x :: d0 =>
                     if Ascii.eqb c "0" then
                       if Ascii.eqb x "x" || Ascii.eqb x "X" then Some (JS.non_decimal 16 d0)
                       else if Ascii.eqb x "o" || Ascii.eqb x "O" then Some (JS.non_decimal 8 d0)
                       else if Ascii.eqb x "b" || Ascii.eqb x "B" then Some (JS.non_decimal 2 d0)
                       else None
                     else None
                 | [] => None
                 end = None).
  { destruct r as [|x d0]; [reflexivity|].
    apply Forall_cons in Hr as [Hx _].
    apply is_digit_facts in Hx as (_ & _ & _ & _ & _ & -> & -> & -> & -> & -> & -> & _).
    simpl. by destruct (Ascii.eqb c "0"). }
  rewrite Hpre, Hm, Hp. unfold JS.unsigned_decimal.
  assert (Hinf : String.eqb (string_of_list_ascii (c :: r)) "Infinity" = false).
  { simpl. by rewrite HI. }
  rewrite Hinf, Hdig. simpl.
  destruct (Decimal.nb_digits d); [done|]. reflexivity.
Qed.

Lemma string_to_number_decimal (n : N) :
  JS.string_to_number (JS.decimal n) = JS.Finite false n 0.
Proof.
  unfold JS.decimal.
  assert (Hd : N.to_uint n ≠ Decimal.Nil).
  { destruct n; [discriminate|]. apply DecimalPos.Unsigned.to_uint_nonnil. }
  assert (Hs : NilZero.string_of_uint (N.to_uint n) = NilEmpty.string_of_uint (N.to_uint n)).
  { unfold NilZero.string_of_uint. by destruct (N.to_uint n). }
  rewrite Hs, (string_to_number_uint _ Hd).
  f_equal. apply DecimalN.Unsigned.of_to.
Qed.

Lemma toString_natural (n : N) : JS.toString (JS.Finite false n 0) = JS.decimal n.
Proof.
  unfold JS.toString. destruct (N.eqb_spec n 0) as [->|Hn]; [reflexivity|].
  simpl. by rewrite N.mul_1_r.
Qed.

Lemma toString_Z_nonneg (z : Z) : 0 <= z → JS.toString_Z z = JS.decimal (Z.to_N z).
Proof.
  intros Hz. unfold JS.toString_Z, JS.of_Z.
  destruct (Z.ltb_spec z 0); [lia|].
  replace (Z.abs_N z) with (Z.to_N z) by lia. apply toString_natural.
Qed.

Lemma toString_Z_neg (z : Z) : z < 0 → JS.toString_Z z = "-" +:+ JS.decimal (Z.abs_N z).
Proof.
  intros Hz. unfold JS.toString_Z, JS.of_Z.
  destruct (Z.ltb_spec z 0); [|lia].
  unfold JS.toString. destruct (N.eqb_spec (Z.abs_N z) 0) as [H0|Hn]; [lia|].
  simpl. by rewrite N.mul_1_r.
Qed.

Lemma string_to_number_negated (n : N) :
  JS.string_to_number ("-" +:+ JS.decimal n) = JS.Finite true n 0.
Proof.
  unfold JS.decimal.
  assert (Hd : N.to_uint n ≠ Decimal.Nil).
  { destruct n; [discriminate|]. apply DecimalPos.Unsigned.to_uint_nonnil. }
  assert (Hs : NilZero.string_of_uint (N.to_uint n) = NilEmpty.string_of_uint (N.to_uint n)).
  { unfold NilZero.string_of_uint. by destruct (N.to_uint n). }
  rewrite Hs. unfold JS.string_to_number.
  change (list_ascii_of_string ("-" +:+ NilEmpty.string_of_uint (N.to_uint n)))
    with ("-"%char :: digit_chars (N.to_uint n)).
  pose proof (digit_chars_digits (N.to_uint n)) as Hall.
  pose proof (digits_uint (N.to_uint n) 0 0) as Hdig.
  assert (Hn : Decimal.nb_digits (N.to_uint n) ≠ O)
    by (destruct (N.to_uint n); [done|..]; discriminate).
  destruct (snoc_of_nonempty (digit_chars (N.to_uint n))) as (m & z & Hm);
    [by apply digit_chars_nonempty|].
  assert (Hz : is_digit z = true).
  { rewrite Forall_forall in Hall. apply Hall. rewrite Hm. apply elem_of_app. right.
    apply list_elem_of_here. }
  rewrite (trim_id _ "-"%char (digit_chars (N.to_uint n)) z ("-"%char :: m));
    [|reflexivity|by rewrite Hm|reflexivity|by apply is_digit_facts in Hz as (? & _)].
  assert (Hpre : match digit_chars (N.to_uint n) with
                 | x :: d0 =>
                     if Ascii.eqb "-" "0" then
                       if Ascii.eqb x "x" || Ascii.eqb x "X" then Some (JS.non_decimal 16 d0)
                       else if Ascii.eqb x "o" || Ascii.eqb x "O" then Some (JS.non_decimal 8 d0)
                       else if Ascii.eqb x "b" || Ascii.eqb x "B" then Some (JS.non_decimal 2 d0)
                       else None
                     else None
                 | [] => None
                 end = None) by (by destruct (digit_chars (N.to_uint n))).
  rewrite Hpre. cbn [Ascii.eqb Bool.eqb]. unfold JS.unsigned_decimal.
  assert (Hinf : String.eqb (string_of_list_ascii (digit_chars (N.to_uint n))) "Infinity" = false).
  { destruct (digit_chars (N.to_uint n)) as [|c r]; [reflexivity|].
    apply Forall_cons in Hall as [Hc _].
    apply is_digit_facts in Hc as (_ & _ & _ & _ & _ & _ & _ & _ & _ & _ & _ & HI & _).
    simpl. by rewrite HI. }
  rewrite Hinf, Hdig. simpl.
  destruct (Decimal.nb_digits (N.to_uint n)); [done|].
  f_equal. apply DecimalN.Unsigned.of_to.
Qed.

Lemma toString_negated (n : N) :
  (0 < n)%N → JS.toString (JS.Finite true n 0) = "-" +:+ JS.decimal n.
Proof.
  intros Hn. unfold JS.toString. destruct (N.eqb_spec n 0) as [H0|_]; [lia|].
  simpl. by rewrite N.mul_1_r.
Qed.

Lemma trim_start_blank (l : list ascii) :
  Forall (λ c, JS.is_space c = true) l → JS.trim_start l = [].
Proof. induction 1 as [|c r Hc _ IH]; [reflexivity|]. simpl. by rewrite Hc. Qed.

(** [Number] of white space only is 0. *)
Lemma string_to_number_blank (s : string) :
  blank s → JS.string_to_number s = JS.Finite false 0 0.
Proof.
  intros Hb. unfold JS.string_to_number, JS.trim.
  by rewrite (trim_start_blank _ Hb).
Qed.

(** ** Splitting *)

Lemma split_prefix (c : ascii) (a b : string) :
  JS.includes c a = false → JS.split c (a +:+ String c b) = a :: JS.split c b.
Proof.
  induction a as [|d r IH]; intros Hi; simpl.
  - by rewrite Ascii.eqb_refl.
  - simpl in Hi. destruct (Ascii.eqb d c); [discriminate|]. by rewrite (IH Hi).
Qed.

Lemma split_whole (c : ascii) (a : string) : JS.includes c a = false → JS.split c a = [a].
Proof.
  induction a as [|d r IH]; intros Hi; simpl; [reflexivity|].
  simpl in Hi. destruct (Ascii.eqb d c); [discriminate|]. by rewrite (IH Hi).
Qed.

Lemma includes_digits (c : ascii) (s : string) :
  is_digit c = false →
  Forall (λ d, is_digit d = true) (list_ascii_of_string s) → JS.includes c s = false.
Proof.
  intros Hc. induction s as [|d r IH]; intros Hall; [reflexivity|].
  simpl in *. apply Forall_cons in Hall as [Hd Hr].
  destruct (Ascii.eqb_spec d c) as [->|_]; [congruence|]. by apply IH.
Qed.

Lemma decimal_digits (n : N) :
  Forall (λ d, is_digit d = true) (list_ascii_of_string (JS.decimal n))
  ∧ JS.decimal n ≠ "".
Proof.
  unfold JS.decimal, NilZero.string_of_uint.
  destruct (N.to_uint n) as [| | | | | | | | | |] eqn:Hd;
    try (split; [rewrite <- Hd; apply digit_chars_digits|discriminate]).
  split; [by repeat constructor|discriminate].
Qed.

(** The leading segment of a decimal numeral followed by a dash is the
    numeral, whatever comes after. *)
Lemma leading_number_decimal (n : N) (rest : string) :
  leading_number (JS.decimal n +:+ "-" +:+ rest) = JS.Finite false n 0.
Proof.
  unfold leading_number.
  change (JS.decimal n +:+ "-" +:+ rest) with (JS.decimal n +:+ String "-" rest).
  rewrite split_prefix by (apply includes_digits; [reflexivity|apply decimal_digits]).
  simpl. apply string_to_number_decimal.
Qed.

Lemma leading_number_plain (n : N) : leading_number (JS.decimal n) = JS.Finite false n 0.
Proof.
  unfold leading_number.
  rewrite split_whole by (apply includes_digits; [reflexivity|apply decimal_digits]).
  simpl. apply string_to_number_decimal.
Qed.

Lemma leading_number_dash (rest : string) :
  leading_number ("-" +:+ rest) = JS.Finite false 0 0.
Proof. unfold leading_number. simpl. reflexivity. Qed.

Lemma trim_start_app (p q : list ascii) (x : ascii) :
  JS.is_space x = false → JS.trim_start (p ++ x :: q) = JS.trim_start p ++ x :: q.
Proof.
  intros Hx. induction p as [|c r IH]; simpl; [by rewrite Hx|].
  destruct (JS.is_space c); [exact IH|reflexivity].
Qed.

(** A decimal numeral followed by a dash is not a number, whatever comes
    after the dash. *)
Lemma string_to_number_composite (n : N) (rest : string) :
  JS.string_to_number (JS.decimal n +:+ "-" +:+ rest) = JS.NaN.
Proof.
  unfold JS.decimal.
  assert (Hd : N.to_uint n ≠ Decimal.Nil).
  { destruct n; [discriminate|]. apply DecimalPos.Unsigned.to_uint_nonnil. }
  assert (Hs : NilZero.string_of_uint (N.to_uint n) = NilEmpty.string_of_uint (N.to_uint n)).
  { unfold NilZero.string_of_uint. by destruct (N.to_uint n). }
  rewrite Hs. unfold JS.string_to_number.
  assert (Hl : list_ascii_of_string (NilEmpty.string_of_uint (N.to_uint n) +:+ "-" +:+ rest)
               = digit_chars (N.to_uint n) ++ "-"%char :: list_ascii_of_string rest).
  { unfold digit_chars. generalize (NilEmpty.string_of_uint (N.to_uint n)).
    intros t. induction t as [|c r IH]; [reflexivity|]. simpl. by rewrite IH. }
  rewrite Hl. clear Hl.
  pose proof (digit_chars_digits (N.to_uint n)) as Hall.
  assert (Hn : Decimal.nb_digits (N.to_uint n) ≠ O)
    by (destruct (N.to_uint n); [done|..]; discriminate).
  pose proof (digit_chars_nonempty _ Hd) as Hne.
  set (tail := rev (JS.trim_start (rev (list_ascii_of_string rest)))).
  assert (Htrim : JS.trim (digit_chars (N.to_uint n) ++ "-"%char :: list_ascii_of_string rest)
                  = digit_chars (N.to_uint n) ++ "-"%char :: tail).
  { unfold JS.trim.
    rewrite (trim_start_id (digit_chars (N.to_uint n) ++ "-"%char :: list_ascii_of_string rest)).
    - rewrite rev_app_distr. cbn [rev]. rewrite <- app_assoc. cbn [app].
      rewrite trim_start_app by reflexivity.
      rewrite rev_app_distr. cbn [rev]. rewrite rev_involutive, <- app_assoc. reflexivity.
    - destruct (digit_chars (N.to_uint n)) as [|c r]; [done|].
      apply Forall_cons in Hall as [Hc _]. by apply is_digit_facts in Hc as (? & _). }
  rewrite Htrim.
  pose proof (digits_uint_app (N.to_uint n) 0 0 ("-"%char :: tail)) as Hdig.
  destruct (digit_chars (N.to_uint n)) as [|c r] eqn:Hchars; [done|].
  apply Forall_cons in Hall as [Hc Hr].
  apply is_digit_facts in Hc as (_ & _ & Hm & Hp & _ & _ & _ & _ & _ & _ & _ & HI & _).
  cbn [app].
  assert (Hpre : match r ++ "-"%char :: tail with
                 | x :: d0 =>
                     if Ascii.eqb c "0" then
                       if Ascii.eqb x "x" || Ascii.eqb x "X" then Some (JS.non_decimal 16 d0)
                       else if Ascii.eqb x "o" || Ascii.eqb x "O" then Some (JS.non_decimal 8 d0)
                       else if Ascii.eqb x "b" || Ascii.eqb x "B" then Some (JS.non_decimal 2 d0)
                       else None
                     else None
                 | [] => None
                 end = None).
  { destruct r as [|x d0]; cbn [app].
    - by destruct (Ascii.eqb c "0").
    - apply Forall_cons in Hr as [Hx _].
      apply is_digit_facts in Hx as (_ & _ & _ & _ & _ & -> & -> & -> & -> & -> & -> & _).
      simpl. by destruct (Ascii.eqb c "0"). }
  rewrite Hpre, Hm, Hp. unfold JS.unsigned_decimal.
  assert (Hinf : String.eqb (string_of_list_ascii (c :: r ++ "-"%char :: tail)) "Infinity"
                 = false).
  { simpl. by rewrite HI. }
  rewrite Hinf. cbn [app] in Hdig. rewrite Hdig.
  cbn [JS.digits]. change (JS.digit_value 10 "-") with (@None N).
  cbn [Ascii.eqb Bool.eqb]. cbn [Nat.add].
  destruct (Decimal.nb_digits (N.to_uint n)); [done|]. reflexivity.
Qed.

(** ** Identifiers, from the record list back to the backend *)

Section Identifiers.
Context {env : Environment}.
Variable apiClient : Config.t → Async Response.t.
Variable msg : Messages.
Variable rmsg : ResourceMessages.

Lemma discard_call (config : Config.t) (s : State) :
  (apiClient config;; ret tt) s = discard (apiClient config s).
Proof. unfold bind, ret, discard. destruct (apiClient config s) as [[r|e] s1]; reflexivity. Qed.

Lemma deleteItem_eq (id : string) (s : State) :
  Accessors.deleteItem apiClient msg (IdString id) s
  = if JS.isNaN (JS.string_to_number id) || JS.le_zero (JS.string_to_number id)
    then (Err (Error (invalid_item_delete msg +:+ id)), s)
    else discard (apiClient (request "delete" ("/api/items/" +:+ JS.toString (JS.string_to_number id))
                                     ∅ NoBody) s).
Proof.
  unfold Accessors.deleteItem. destruct (_ || _); [reflexivity|]. apply discard_call.
Qed.

Lemma deleteSchedule_eq (id : string) (s : State) :
  Resources.deleteSchedule apiClient rmsg (IdString id) s
  = if JS.isNaN (JS.string_to_number id) || JS.le_zero (JS.string_to_number id)
    then (Err (Error (invalid_schedule_delete rmsg +:+ id)), s)
    else discard (apiClient (request "delete"
                                     ("/api/schedules/" +:+ JS.toString (JS.string_to_number id))
                                     ∅ NoBody) s).
Proof.
  unfold Resources.deleteSchedule. destruct (_ || _); [reflexivity|]. apply discard_call.
Qed.

(** X1.  The identifier [fetchInOutData] gives a record leads back to its
    order.  For an order id from 0 up to 2^53 (the integers a Number holds
    exactly) the record id "<orderId>-<i>" has the order id as its leading
    number; so [updateOrderStatus] puts to /api/inout/orders/<orderId>/status,
    [cancelInOutOrder] puts to /api/inout/orders/<orderId>/cancel, and
    [updateInOutRecord] does for the record id what it does for the bare
    order id. *)
Theorem record_identifier_round_trip
        (nowISO : string) (order : InOutOrderResponse.t) (i : nat)
        (item : InOutOrderItemResponse.t) (status : string) (recordData : body) (s : State) :
  0 <= InOutOrderResponse.orderId order < 2 ^ 53 →
  let id := InOutRecord.id (Accessors.to_record nowISO order i item) in
  let n := JS.of_Z (InOutOrderResponse.orderId order) in
  let update := request "put" (Accessors.order_path n "/status") ∅
                        (StatusBody (JS.toUpperCase status)) in
  let cancel := request "put" (Accessors.order_path n "/cancel") ∅ NoBody in
  leading_number id = n
  ∧ Accessors.order_path n "/status"
    = "/api/inout/orders/" +:+ JS.decimal (Z.to_N (InOutOrderResponse.orderId order))
        +:+ "/status"
  ∧ Accessors.updateOrderStatus apiClient msg id status s
    = (data_of (apiClient update s).1, (apiClient update s).2)
  ∧ Accessors.cancelInOutOrder apiClient msg (IdString id) s
    = (data_of (apiClient cancel s).1, (apiClient cancel s).2)
  ∧ Accessors.updateInOutRecord apiClient msg id recordData s
    = Accessors.updateInOutRecord apiClient msg
        (JS.toString_Z (InOutOrderResponse.orderId order)) recordData s.
Proof.
  intros [Hlo Hhi]. cbv zeta.
  assert (Hn : JS.of_Z (InOutOrderResponse.orderId order)
               = JS.Finite false (Z.to_N (InOutOrderResponse.orderId order)) 0).
  { unfold JS.of_Z. destruct (Z.ltb_spec (InOutOrderResponse.orderId order) 0); [lia|].
    f_equal. lia. }
  assert (Hid : leading_number (InOutRecord.id (Accessors.to_record nowISO order i item))
                = JS.of_Z (InOutOrderResponse.orderId order)).
  { cbn [Accessors.to_record InOutRecord.id]. rewrite (toString_Z_nonneg _ Hlo), Hn.
    apply leading_number_decimal. }
  split; [exact Hid|]. split; [|split; [|split]].
  - unfold Accessors.order_path. by rewrite Hn, toString_natural.
  - rewrite updateOrderStatus_eq, Hid, Hn. reflexivity.
  - rewrite cancelInOutOrder_eq, Hid, Hn. reflexivity.
  - rewrite !updateInOutRecord_eq, Hid.
    rewrite (toString_Z_nonneg _ Hlo), leading_number_plain, <- Hn. reflexivity.
Qed.

(** X2.  For a negative order id the record id begins with the minus sign,
    so its leading segment is the empty text, and [Number('')] is 0: the
    status update and the cancellation of such a record are not refused,
    they address order 0. *)
Theorem negative_order_id_addresses_order_zero
        (nowISO : string) (order : InOutOrderResponse.t) (i : nat)
        (item : InOutOrderItemResponse.t) (status : string) (s : State) :
  InOutOrderResponse.orderId order < 0 →
  let id := InOutRecord.id (Accessors.to_record nowISO order i item) in
  let update := request "put" "/api/inout/orders/0/status" ∅
                        (StatusBody (JS.toUpperCase status)) in
  let cancel := request "put" "/api/inout/orders/0/cancel" ∅ NoBody in
  leading_number id = JS.Finite false 0 0
  ∧ Accessors.updateOrderStatus apiClient msg id status s
    = (data_of (apiClient update s).1, (apiClient update s).2)
  ∧ Accessors.cancelInOutOrder apiClient msg (IdString id) s
    = (data_of (apiClient cancel s).1, (apiClient cancel s).2).
Proof.
  intros Hneg. cbv zeta.
  assert (Hid : leading_number (InOutRecord.id (Accessors.to_record nowISO order i item))
                = JS.Finite false 0 0).
  { cbn [Accessors.to_record InOutRecord.id]. rewrite (toString_Z_neg _ Hneg).
    apply leading_number_dash. }
  split; [exact Hid|]. split.
  - rewrite updateOrderStatus_eq, Hid. reflexivity.
  - rewrite cancelInOutOrder_eq, Hid. reflexivity.
Qed.

(** X3.  [deleteItem] and [deleteSchedule] send DELETE /api/items/<n> and
    DELETE /api/schedules/<n> for a decimal identifier with 0 < n < 2^53,
    and return nothing on success and the error of the instance otherwise.
    They refuse "0", white space only (the empty text included), a negative
    numeral and a composite identifier "<n>-<rest>", each with their error,
    the message followed by the identifier as given, before the instance is
    called. *)
Theorem delete_requires_positive (n : N) (rest id : string) (s : State) :
  ((0 < n < 2 ^ 53)%N →
     Accessors.deleteItem apiClient msg (IdString (JS.decimal n)) s
     = discard (apiClient (request "delete" ("/api/items/" +:+ JS.decimal n) ∅ NoBody) s)
     ∧ Resources.deleteSchedule apiClient rmsg (IdString (JS.decimal n)) s
       = discard (apiClient (request "delete" ("/api/schedules/" +:+ JS.decimal n) ∅ NoBody) s))
  ∧ (id = "0" ∨ blank id ∨ id = "-" +:+ JS.decimal n ∨ id = JS.decimal n +:+ "-" +:+ rest →
     Accessors.deleteItem apiClient msg (IdString id) s
     = (Err (Error (invalid_item_delete msg +:+ id)), s)
     ∧ Resources.deleteSchedule apiClient rmsg (IdString id) s
       = (Err (Error (invalid_schedule_delete rmsg +:+ id)), s)).
Proof.
  split.
  - intros [Hpos _].
    rewrite deleteItem_eq, deleteSchedule_eq, string_to_number_decimal, toString_natural.
    cbn [JS.isNaN JS.le_zero orb]. destruct (N.eqb_spec n 0); [lia|]. auto.
  - intros Hid. rewrite deleteItem_eq, deleteSchedule_eq.
    assert (Hrefuse : JS.isNaN (JS.string_to_number id) || JS.le_zero (JS.string_to_number id)
                      = true).
    { destruct Hid as [-> | [Hb | [-> | ->]]].
      - reflexivity.
      - by rewrite (string_to_number_blank _ Hb).
      - by rewrite string_to_number_negated.
      - by rewrite string_to_number_composite. }
    rewrite Hrefuse. auto.
Qed.

Lemma resource_call (id : string) (data : body) (s : State) :
  JS.isNaN (JS.string_to_number id) = false →
  (Resources.updateCompany apiClient rmsg id data s
   = let c := request "put" ("/api/companies/" +:+ JS.toString (JS.string_to_number id)) ∅ data in
     (data_of (apiClient c s).1, (apiClient c s).2))
  ∧ (Resources.updateItem apiClient rmsg id data s
     = let c := request "put" ("/api/items/" +:+ JS.toString (JS.string_to_number id)) ∅ data in
       (data_of (apiClient c s).1, (apiClient c s).2))
  ∧ Resources.deleteCompany apiClient rmsg id s
    = discard (apiClient (request "delete"
                 ("/api/companies/" +:+ JS.toString (JS.string_to_number id)) ∅ NoBody) s)
  ∧ Resources.deleteUser apiClient rmsg id s
    = discard (apiClient (request "delete"
                 ("/api/users/" +:+ JS.toString (JS.string_to_number id)) ∅ NoBody) s).
Proof.
  intros Hn.
  unfold Resources.updateCompany, Resources.updateItem, Resources.deleteCompany,
    Resources.deleteUser.
  rewrite Hn. cbv zeta. unfold Accessors.http_put, Accessors.http_delete.
  repeat split; try apply discard_call; apply (call_data apiClient).
Qed.

(** X4.  [updateCompany], [updateItem], [deleteCompany] and [deleteUser]
    convert the identifier as a whole.  A decimal numeral n addresses
    /api/companies/<n>, /api/items/<n> and /api/users/<n>.  A composite
    identifier "<n>-<rest>", whose leading segment the order accessors
    accept, is not a number to them: each refuses it with its error before
    the instance is called. *)
Theorem plain_identifier_is_parsed_whole (n : N) (rest : string) (data : body) (s : State) :
  ((n < 2 ^ 53)%N →
     (let c := request "put" ("/api/companies/" +:+ JS.decimal n) ∅ data in
      Resources.updateCompany apiClient rmsg (JS.decimal n) data s
      = (data_of (apiClient c s).1, (apiClient c s).2))
     ∧ (let c := request "put" ("/api/items/" +:+ JS.decimal n) ∅ data in
        Resources.updateItem apiClient rmsg (JS.decimal n) data s
        = (data_of (apiClient c s).1, (apiClient c s).2))
     ∧ Resources.deleteCompany apiClient rmsg (JS.decimal n) s
       = discard (apiClient (request "delete" ("/api/companies/" +:+ JS.decimal n) ∅ NoBody) s)
     ∧ Resources.deleteUser apiClient rmsg (JS.decimal n) s
       = discard (apiClient (request "delete" ("/api/users/" +:+ JS.decimal n) ∅ NoBody) s))
  ∧ (let id := JS.decimal n +:+ "-" +:+ rest in
     Resources.updateCompany apiClient rmsg id data s
     = (Err (Error (invalid_company_update rmsg)), s)
     ∧ Resources.updateItem apiClient rmsg id data s
       = (Err (Error (invalid_item_update rmsg)), s)
     ∧ Resources.deleteCompany apiClient rmsg id s
       = (Err (Error (invalid_company_delete rmsg)), s)
     ∧ Resources.deleteUser apiClient rmsg id s
       = (Err (Error (invalid_user_delete rmsg)), s)
     ∧ JS.isNaN (leading_number id) = false).
Proof.
  split.
  - intros _.
    destruct (resource_call (JS.decimal n) data s) as (H1 & H2 & H3 & H4);
      [by rewrite string_to_number_decimal|].
    rewrite string_to_number_decimal, toString_natural in H1, H2, H3, H4. auto.
  - cbv zeta.
    unfold Resources.updateCompany, Resources.updateItem, Resources.deleteCompany,
      Resources.deleteUser.
    rewrite string_to_number_composite, leading_number_decimal. auto.
Qed.

(** X5.  The same four accessors test the identifier for NaN only, where
    the two delete accessors of items and schedules also test [<= 0].
    White space only, the empty text included, converts to 0 and addresses
    resource 0; a negative numeral -n addresses /api/companies/-n and
    /api/users/-n. *)
Theorem blank_identifier_addresses_resource_zero (id : string) (n : N) (data : body) (s : State) :
  (blank id →
     (let c := request "put" "/api/companies/0" ∅ data in
      Resources.updateCompany apiClient rmsg id data s
      = (data_of (apiClient c s).1, (apiClient c s).2))
     ∧ (let c := request "put" "/api/items/0" ∅ data in
        Resources.updateItem apiClient rmsg id data s
        = (data_of (apiClient c s).1, (apiClient c s).2))
     ∧ Resources.deleteCompany apiClient rmsg id s
       = discard (apiClient (request "delete" "/api/companies/0" ∅ NoBody) s)
     ∧ Resources.deleteUser apiClient rmsg id s
       = discard (apiClient (request "delete" "/api/users/0" ∅ NoBody) s))
  ∧ ((0 < n < 2 ^ 53)%N →
     Resources.deleteCompany apiClient rmsg ("-" +:+ JS.decimal n) s
     = discard (apiClient (request "delete" ("/api/companies/-" +:+ JS.decimal n) ∅ NoBody) s)
     ∧ Resources.deleteUser apiClient rmsg ("-" +:+ JS.decimal n) s
       = discard (apiClient (request "delete" ("/api/users/-" +:+ JS.decimal n) ∅ NoBody) s)).
Proof.
  split.
  - intros Hb.
    destruct (resource_call id data s) as (H1 & H2 & H3 & H4);
      [by rewrite (string_to_number_blank _ Hb)|].
    rewrite (string_to_number_blank _ Hb) in H1, H2, H3, H4. auto.
  - intros [Hpos _].
    destruct (resource_call ("-" +:+ JS.decimal n) NoBody s) as (_ & _ & H3 & H4);
      [by rewrite string_to_number_negated|].
    rewrite string_to_number_negated, (toString_negated _ Hpos) in H3, H4. auto.
Qed.

(** X6.  [cancelInOutOrder] takes a number or a text.  For n below 2^53
    the number n, its decimal text, and any composite text "<n>-<rest>" all
    put to /api/inout/orders/<n>/cancel with the same outcome; the number
    NaN is refused before the instance is called. *)
Theorem cancel_by_text_or_number (n : N) (rest : string) (s : State) :
  (n < 2 ^ 53)%N →
  let cancel := request "put" ("/api/inout/orders/" +:+ JS.decimal n +:+ "/cancel") ∅ NoBody in
  Accessors.cancelInOutOrder apiClient msg (IdNumber (JS.Finite false n 0)) s
  = (data_of (apiClient cancel s).1, (apiClient cancel s).2)
  ∧ Accessors.cancelInOutOrder apiClient msg (IdString (JS.decimal n)) s
    = Accessors.cancelInOutOrder apiClient msg (IdNumber (JS.Finite false n 0)) s
  ∧ Accessors.cancelInOutOrder apiClient msg (IdString (JS.decimal n +:+ "-" +:+ rest)) s
    = Accessors.cancelInOutOrder apiClient msg (IdNumber (JS.Finite false n 0)) s
  ∧ Accessors.cancelInOutOrder apiClient msg (IdNumber JS.NaN) s
    = (Err (Error (invalid_cancellation msg)), s).
Proof.
  intros _. cbv zeta.
  assert (Hnum : Accessors.cancelInOutOrder apiClient msg (IdNumber (JS.Finite false n 0)) s
                 = (data_of (apiClient (request "put"
                       ("/api/inout/orders/" +:+ JS.decimal n +:+ "/cancel") ∅ NoBody) s).1,
                    (apiClient (request "put"
                       ("/api/inout/orders/" +:+ JS.decimal n +:+ "/cancel") ∅ NoBody) s).2)).
  { unfold Accessors.cancelInOutOrder. cbn [JS.isNaN].
    unfold Accessors.order_path, Accessors.http_put. rewrite toString_natural. apply call_data. }
  split; [exact Hnum|]. rewrite Hnum. split; [|split].
  - rewrite cancelInOutOrder_eq, leading_number_plain. cbn [JS.isNaN].
    unfold Accessors.order_path. by rewrite toString_natural.
  - rewrite cancelInOutOrder_eq, leading_number_decimal. cbn [JS.isNaN].
    unfold Accessors.order_path. by rewrite toString_natural.
  - reflexivity.
Qed.
End Identifiers.

(** ** What one call of an instance puts on the wire *)

Lemma https_fetches (urls : list string) :
  https (map Fetch urls) = [] ∧ fetches (map Fetch urls) = urls.
Proof. induction urls as [|u r [IH1 IH2]]; [done|]. simpl. by rewrite IH1, IH2. Qed.

Lemma https_sent (sent : list Config.t) :
  https (map Http sent) = sent ∧ fetches (map Http sent) = [].
Proof. induction sent as [|c r [IH1 IH2]]; [done|]. simpl. by rewrite IH1, IH2. Qed.

Lemma https_app (a b : list event) : https (a ++ b) = https a ++ https b.
Proof. apply omap_app. Qed.

Lemma fetches_app (a b : list event) : fetches (a ++ b) = fetches a ++ fetches b.
Proof. apply omap_app. Qed.

Section Activity.
Context {env : Environment}.

Lemma session_safe_call (config : Config.t) (s : State) :
  Session.isSafeMethod (Config.method config) = true →
  Session.apiClient config s
  = (settle (with_timestamp (Date_now (world s)) config)
            (adapter (with_timestamp (Date_now (world s)) config) (world s)).1,
     after s (with_timestamp (Date_now (world s)) config)).
Proof.
  intros Hs.
  unfold Session.apiClient. rewrite apiClient_rec_S. unfold try_catch, Session.attempt, bind.
  rewrite (request_interceptor_safe config s Hs). unfold dispatchRequest, after.
  destruct (adapter _ (world s)) as [o w]. cbn [fst snd].
  destruct o as [|r]; [reflexivity|]. cbn [settle].
  destruct (_ && _); [reflexivity|].
  unfold Session.response_rejected.
  cbn [error_config with_timestamp Config.method Config._retriedOnce].
  rewrite Hs. cbn [negb]. rewrite andb_false_r. reflexivity.
Qed.

(** The token fetches of the request interceptor: none for a read-only
    request or with a token cached, at most two otherwise. *)
Lemma interceptor_activity (config : Config.t) (s : State) :
  ∃ urls,
    trace (Session.request_interceptor config s).2 = trace s ++ map Fetch urls
    ∧ (length urls <= 2)%nat
    ∧ (Session.isSafeMethod (Config.method config) = true
       ∨ Session.no_token (CSRF_TOKEN s) = false → urls = []).
Proof.
  rewrite request_interceptor_cases.
  destruct (Session.isSafeMethod _).
  { exists []. simpl. rewrite app_nil_r. auto with lia. }
  destruct (Session.no_token _).
  - destruct (fetchCsrfToken_trace s) as (urls & Hurls & Htr & _).
    exists urls. split; [|split].
    + destruct (Session.fetchCsrfToken s) as [[t|e] s1]; exact Htr.
    + destruct Hurls as [-> | ->]; simpl; lia.
    + intros [?|?]; discriminate.
  - exists []. simpl. rewrite app_nil_r. auto with lia.
Qed.

Lemma attempt_activity (config : Config.t) (s : State) :
  ∃ urls sent,
    trace (Session.attempt config s).2 = trace s ++ map Fetch urls ++ map Http sent
    ∧ (length urls <= 2)%nat ∧ (length sent <= 1)%nat
    ∧ (Session.isSafeMethod (Config.method config) = true
       ∨ Session.no_token (CSRF_TOKEN s) = false → urls = [])
    ∧ (∀ r, (Session.attempt config s).1 = Ok r → length sent = 1%nat)
    ∧ (∀ c, c ∈ sent → Session.request_interceptor config s = (Ok c, (Session.request_interceptor config s).2)).
Proof.
  destruct (interceptor_activity config s) as (urls & Htr & Hlen & Hnone).
  unfold Session.attempt, bind.
  destruct (Session.request_interceptor config s) as [[c|e] s1]; cbn [snd] in Htr.
  - exists urls, [c]. unfold dispatchRequest.
    destruct (adapter c (world s1)) as [o w]. cbn [snd fst trace].
    rewrite Htr, <- app_assoc. repeat split; auto.
    intros c' ->%list_elem_of_singleton. reflexivity.
  - exists urls, []. cbn [snd fst map]. rewrite app_nil_r.
    repeat split; auto with lia; [discriminate|]. intros c' []%elem_of_nil.
Qed.

(** X7.  One call of the session instance transmits at most two requests
    and fetches a token endpoint at most four times; when it succeeds it
    has transmitted at least one request.  The instance calls itself from
    its own rejection handler: the call never exhausts the recursion bound
    of the model, and its result is the same for every bound from 2 on. *)
Theorem session_call_is_bounded (config : Config.t) (s : State) :
  (∃ tr, trace (Session.apiClient config s).2 = trace s ++ tr
     ∧ (length (https tr) <= 2)%nat
     ∧ (length (fetches tr) <= 4)%nat
     ∧ (is_ok (Session.apiClient config s).1 = true → (1 <= length (https tr))%nat))
  ∧ (Session.apiClient config s).1 ≠ Err OutOfFuel
  ∧ ∀ fuel, (2 <= fuel)%nat → Session.apiClient_rec fuel config s = Session.apiClient config s.
Proof.
  split; [|split; [apply apiClient_never_out_of_fuel | intros fuel; apply apiClient_fuel]].
  unfold Session.apiClient. rewrite apiClient_rec_S. unfold try_catch.
  destruct (attempt_activity config s) as (urls1 & sent1 & Htr1 & Hu1 & Hs1 & _ & Hok1 & _).
  assert (Hdone : ∀ st (e0 : error), trace st = trace s ++ map Fetch urls1 ++ map Http sent1 →
            ∃ tr, trace st = trace s ++ tr ∧ (length (https tr) <= 2)%nat
                  ∧ (length (fetches tr) <= 4)%nat
                  ∧ (is_ok (Err (A := Response.t) e0) = true → (1 <= length (https tr))%nat)).
  { intros st e0 Hst. eexists. split; [exact Hst|].
    rewrite https_app, fetches_app, !length_app.
    rewrite (proj1 (https_fetches _)), (proj2 (https_fetches _)),
      (proj1 (https_sent _)), (proj2 (https_sent _)). simpl.
    split; [lia|]. split; [lia|discriminate]. }
  destruct (Session.attempt config s) as [[r|e] s1] eqn:Hatt; cbn [fst snd] in *.
  { eexists. split; [exact Htr1|].
    rewrite https_app, fetches_app, !length_app.
    rewrite (proj1 (https_fetches _)), (proj2 (https_fetches _)),
      (proj1 (https_sent _)), (proj2 (https_sent _)). simpl.
    specialize (Hok1 r eq_refl). lia. }
  unfold Session.response_rejected.
  destruct (error_config e) as [c|] eqn:Hc;
    [|exact (Hdone s1 e Htr1)].
  destruct (_ && _) eqn:Hcond;
    [|exact (Hdone s1 e Htr1)].
  apply andb_prop in Hcond as [_ Hunsafe]. apply negb_true_iff in Hunsafe.
  unfold bind, try_catch, set_CSRF_TOKEN, ret.
  destruct (fetchCsrfToken_trace (mkState (world s1) (authToken s1) None (trace s1)))
    as (urls2 & Hurls2 & Htr2 & _).
  assert (Hu2 : (length urls2 <= 2)%nat) by (destruct Hurls2 as [-> | ->]; simpl; lia).
  destruct (Session.fetchCsrfToken _) as [[t|e'] s2] eqn:Hacq; cbn [snd trace] in *.
  - pose proof (fetchCsrfToken_truthy _ _ _ Hacq) as Htruthy.
    rewrite apiClient_rec_retried by reflexivity.
    match goal with
    | |- context [Session.attempt ?c' ?st] =>
        destruct (attempt_activity c' st) as (urls3 & sent3 & Htr3 & _ & Hs3 & Hnone3 & Hok3 & _)
    end.
    cbn [trace CSRF_TOKEN] in Htr3, Hnone3.
    rewrite Hnone3 in Htr3 by (right; simpl; by rewrite Htruthy).
    match goal with
    | |- context [Session.attempt ?c' ?st] => destruct (Session.attempt c' st) as [r3 s3]
    end.
    cbn [fst snd] in *.
    exists (map Fetch urls1 ++ map Http sent1 ++ map Fetch urls2 ++ map Http sent3).
    split; [|split; [|split]].
    + rewrite Htr3, Htr2, Htr1. simpl. rewrite <- !app_assoc. reflexivity.
    + rewrite !https_app, !length_app.
      rewrite !(proj1 (https_fetches _)), !(proj1 (https_sent _)). simpl. lia.
    + rewrite !fetches_app, !length_app.
      rewrite !(proj2 (https_fetches _)), !(proj2 (https_sent _)). simpl. lia.
    + intros Hok. destruct r3 as [r3|]; [|discriminate].
      specialize (Hok3 r3 eq_refl).
      rewrite !https_app, !length_app.
      rewrite !(proj1 (https_fetches _)), !(proj1 (https_sent _)). simpl. lia.
  - exists (map Fetch urls1 ++ map Http sent1 ++ map Fetch urls2).
    simpl. split; [|split; [|split]].
    + rewrite Htr2, Htr1. rewrite <- !app_assoc. reflexivity.
    + rewrite !https_app, !length_app.
      rewrite !(proj1 (https_fetches _)), !(proj1 (https_sent _)). simpl. lia.
    + rewrite !fetches_app, !length_app.
      rewrite !(proj2 (https_fetches _)), !(proj2 (https_sent _)). simpl. lia.
    + discriminate.
Qed.

(** X8.  In the session variant a read-only request (GET, HEAD, OPTIONS or
    no verb) is exactly one transmission: the request with the timestamp
    added, no token fetched, the cached token left alone, and the outcome
    returned as it is, a 403 included.  Every [apiClient.get(url)] is such
    a call. *)
Theorem session_read_is_one_transmission (config : Config.t) (url : string) (s : State) :
  (Session.isSafeMethod (Config.method config) = true →
   let c := with_timestamp (Date_now (world s)) config in
   Session.apiClient config s = (settle c (adapter c (world s)).1, after s c))
  ∧ (let c := with_timestamp (Date_now (world s)) (request "get" url ∅ NoBody) in
     Accessors.http_get Session.apiClient url s
     = (settle c (adapter c (world s)).1, after s c)).
Proof.
  split; [apply session_safe_call|]. exact (session_safe_call (request "get" url ∅ NoBody) s eq_refl).
Qed.

(** A state-changing attempt puts the token it has, or has just acquired,
    on the request, and leaves that token cached. *)
Lemma attempt_unsafe (config : Config.t) (s : State) :
  Session.isSafeMethod (Config.method config) = false →
  match Session.request_interceptor config s with
  | (Ok c, s1) =>
      ∃ t, CSRF_TOKEN s1 = Some t ∧ JS.truthy t = true
           ∧ c = session_outgoing s t config
           ∧ Session.attempt config s = (settle c (adapter c (world s1)).1, after s1 c)
  | (Err e, s1) => Session.attempt config s = (Err e, s1)
  end.
Proof.
  intros Hunsafe. unfold Session.attempt, bind.
  rewrite request_interceptor_cases, Hunsafe.
  destruct (Session.no_token (CSRF_TOKEN s)) eqn:Hno.
  - destruct (Session.fetchCsrfToken s) as [[t|e] s1] eqn:Hacq; [|reflexivity].
    exists t. split; [reflexivity|]. split; [eapply fetchCsrfToken_truthy, Hacq|].
    split; [reflexivity|].
    unfold dispatchRequest, after. cbn [world set_token authToken CSRF_TOKEN trace].
    destruct (adapter _ (world s1)); reflexivity.
  - destruct (CSRF_TOKEN s) as [t|] eqn:Ht; [|discriminate].
    exists t. split; [reflexivity|]. split; [simpl in Hno; by destruct (JS.truthy t)|].
    split; [reflexivity|].
    unfold dispatchRequest, after. cbn [default]. destruct (adapter _ (world s)); reflexivity.
Qed.

Lemma attempt_ok_token (config : Config.t) (s s' : State) (r : Response.t) :
  Session.isSafeMethod (Config.method config) = false →
  Session.attempt config s = (Ok r, s') →
  ∃ t c, CSRF_TOKEN s' = Some t ∧ JS.truthy t = true
         ∧ last (https (trace s')) = Some c ∧ Config.headers c !! "X-CSRF-TOKEN" = Some t.
Proof.
  intros Hunsafe Hatt. pose proof (attempt_unsafe config s Hunsafe) as H.
  destruct (Session.request_interceptor config s) as [[c|e] s1]; [|congruence].
  destruct H as (t & Ht & Htruthy & -> & Heq). rewrite Heq in Hatt.
  injection Hatt as _ <-. exists t, (session_outgoing s t config).
  split; [exact Ht|]. split; [exact Htruthy|]. split.
  - unfold after. cbn [trace]. rewrite https_app. simpl. apply last_snoc.
  - unfold session_outgoing, with_header. simpl. apply lookup_insert_eq.
Qed.

(** The retry the rejection handler issues, when it issues one. *)
Lemma retried_call (config : Config.t) (s s' : State) (r : Response.t) :
  Session.apiClient config s = (Ok r, s') →
  Session.attempt config s = (Ok r, s')
  ∨ ∃ c s2, Session.isSafeMethod (Config.method c) = Session.isSafeMethod (Config.method config)
            ∧ Session.attempt c s2 = (Ok r, s').
Proof.
  unfold Session.apiClient. rewrite apiClient_rec_S. unfold try_catch.
  destruct (Session.attempt config s) as [[r1|e] s1] eqn:Hatt; [auto|].
  unfold Session.response_rejected.
  destruct (error_config e) as [c|] eqn:Hc; [|discriminate].
  destruct (_ && _); [|discriminate].
  destruct (attempt_rejected _ _ _ _ _ Hatt Hc) as (_ & Hm & _).
  unfold bind, try_catch, set_CSRF_TOKEN, ret.
  destruct (Session.fetchCsrfToken _) as [[t|e'] s2]; [|discriminate].
  rewrite apiClient_rec_retried by reflexivity.
  intros H. right. eexists _, _. split; [|exact H]. simpl. by rewrite Hm.
Qed.

(** X9.  After a state-changing call of the session instance has
    succeeded, the cached token is not empty and is the one the last
    transmitted request carried; the next state-changing request is sent
    with that same token and without a token fetch. *)
Theorem token_is_reused (config config2 : Config.t) (s s' : State) (r : Response.t) :
  Session.isSafeMethod (Config.method config) = false →
  Session.isSafeMethod (Config.method config2) = false →
  Session.apiClient config s = (Ok r, s') →
  ∃ t c,
    CSRF_TOKEN s' = Some t ∧ JS.truthy t = true
    ∧ last (https (trace s')) = Some c
    ∧ Config.headers c !! "X-CSRF-TOKEN" = Some t
    ∧ let c2 := session_outgoing s' t config2 in
      Session.attempt config2 s' = (settle c2 (adapter c2 (world s')).1, after s' c2)
      ∧ Config.headers c2 !! "X-CSRF-TOKEN" = Some t.
Proof.
  intros Hunsafe Hunsafe2 Hcall.
  assert (Htok : ∃ t c, CSRF_TOKEN s' = Some t ∧ JS.truthy t = true
                   ∧ last (https (trace s')) = Some c
                   ∧ Config.headers c !! "X-CSRF-TOKEN" = Some t).
  { destruct (retried_call _ _ _ _ Hcall) as [Hatt | (c & s2 & Hm & Hatt)].
    - eapply attempt_ok_token; [exact Hunsafe|exact Hatt].
    - eapply attempt_ok_token; [|exact Hatt]. by rewrite Hm. }
  destruct Htok as (t & c & Ht & Htruthy & Hlast & Hhdr).
  exists t, c. repeat (split; [assumption|]). cbv zeta. split.
  - unfold Session.attempt, bind.
    rewrite (request_interceptor_cached config2 s' t Hunsafe2 Ht Htruthy).
    unfold dispatchRequest, after. destruct (adapter _ (world s')); reflexivity.
  - unfold session_outgoing, with_header. simpl. apply lookup_insert_eq.
Qed.

Lemma attempt_sends_token (config : Config.t) (s : State) :
  Session.isSafeMethod (Config.method config) = false →
  ∃ tr, trace (Session.attempt config s).2 = trace s ++ tr
    ∧ ∀ c, Http c ∈ tr →
        Config.method c = Config.method config
        ∧ ∃ t, Config.headers c !! "X-CSRF-TOKEN" = Some t ∧ JS.truthy t = true.
Proof.
  intros Hunsafe. pose proof (attempt_unsafe config s Hunsafe) as H.
  destruct (interceptor_activity config s) as (urls & Htr & _).
  destruct (Session.request_interceptor config s) as [[c|e] s1]; cbn [snd] in Htr.
  - destruct H as (t & Ht & Htruthy & -> & ->). cbn [snd]. unfold after. cbn [trace].
    exists (map Fetch urls ++ [Http (session_outgoing s t config)]).
    rewrite Htr, <- app_assoc. split; [reflexivity|].
    intros c [Hin|Hin]%elem_of_app.
    + apply list_elem_of_fmap in Hin as (u & [=] & _).
    + apply list_elem_of_singleton in Hin as [= ->]. split; [reflexivity|].
      exists t. split; [|exact Htruthy].
      unfold session_outgoing, with_header. simpl. apply lookup_insert_eq.
  - rewrite H. cbn [snd]. exists (map Fetch urls). split; [exact Htr|].
    intros c Hin. apply list_elem_of_fmap in Hin as (u & [=] & _).
Qed.

(** X10.  Every request a state-changing call of the session instance
    puts on the wire, the retry included, has the verb of the call and
    carries a non-empty X-CSRF-TOKEN header. *)
Theorem state_changing_requests_carry_a_token (config : Config.t) (s : State) :
  Session.isSafeMethod (Config.method config) = false →
  ∃ tr, trace (Session.apiClient config s).2 = trace s ++ tr
    ∧ ∀ c, Http c ∈ tr →
        Config.method c = Config.method config
        ∧ ∃ t, Config.headers c !! "X-CSRF-TOKEN" = Some t ∧ JS.truthy t = true.
Proof.
  intros Hunsafe.
  unfold Session.apiClient. rewrite apiClient_rec_S. unfold try_catch.
  destruct (attempt_sends_token config s Hunsafe) as (tr1 & Htr1 & Hall1).
  destruct (Session.attempt config s) as [[r|e] s1] eqn:Hatt; cbn [snd] in Htr1; [eauto|].
  unfold Session.response_rejected.
  destruct (error_config e) as [c|] eqn:Hc; [|cbn [throw snd]; eauto].
  destruct (_ && _); [|cbn [throw snd]; eauto].
  destruct (attempt_rejected _ _ _ _ _ Hatt Hc) as (_ & Hm & _).
  unfold bind, try_catch, set_CSRF_TOKEN, ret.
  destruct (fetchCsrfToken_trace (mkState (world s1) (authToken s1) None (trace s1)))
    as (urls2 & _ & Htr2 & _).
  destruct (Session.fetchCsrfToken _) as [[t|e'] s2]; cbn [snd trace] in Htr2.
  - rewrite apiClient_rec_retried by reflexivity.
    match goal with
    | |- context [Session.attempt ?c' ?st] =>
        destruct (attempt_sends_token c' st) as (tr3 & Htr3 & Hall3);
          [simpl; by rewrite Hm|]
    end.
    cbn [trace] in Htr3.
    exists (tr1 ++ map Fetch urls2 ++ tr3).
    rewrite Htr3, Htr2, Htr1, <- !app_assoc. split; [reflexivity|].
    intros c' [Hin|[Hin|Hin]%elem_of_app]%elem_of_app.
    + by apply Hall1.
    + apply list_elem_of_fmap in Hin as (u & [=] & _).
    + destruct (Hall3 c' Hin) as [Hm3 Ht3]. split; [|exact Ht3].
      rewrite Hm3. simpl. exact Hm.
  - cbn [throw snd]. exists (tr1 ++ map Fetch urls2).
    rewrite Htr2, Htr1, <- app_assoc. split; [reflexivity|].
    intros c' [Hin|Hin]%elem_of_app; [by apply Hall1|].
    apply list_elem_of_fmap in Hin as (u & [=] & _).
Qed.

(** X11.  A call of the bearer instance is exactly one transmission,
    whatever the answer.  With a non-empty token in storage the request
    carries Authorization: Bearer <token>; with none, or the empty one, its
    headers are as given.  A response outside 2xx, 401 and 403 included, is
    returned as the rejection without a retry; no token endpoint is fetched
    and the stored token is not changed. *)
Theorem bearer_call_is_one_transmission (config : Config.t) (s : State) :
  ∃ c,
    Bearer.apiClient config s = (settle c (adapter c (world s)).1, after s c)
    ∧ (∀ t, authToken s = Some t → JS.truthy t = true →
         Config.headers c = <["Authorization" := "Bearer " +:+ t]> (Config.headers config))
    ∧ (authToken s = None ∨ authToken s = Some "" → Config.headers c = Config.headers config)
    ∧ (∀ r, (adapter c (world s)).1 = Responded r →
         ¬ (200 <= Response.status r < 300) →
         (Bearer.apiClient config s).1 = Err (AxiosError c (Some r)))
    ∧ https (trace (after s c)) = https (trace s) ++ [c]
    ∧ fetches (trace (after s c)) = fetches (trace s)
    ∧ authToken (after s c) = authToken s.
Proof.
  exists (Bearer.outgoing s config). rewrite bearer_call.
  split; [reflexivity|]. split; [|split; [|split; [|split; [|split]]]].
  - intros t Ht Htruthy. unfold Bearer.outgoing. rewrite Ht, Htruthy. reflexivity.
  - intros [Ht | Ht]; unfold Bearer.outgoing; rewrite Ht; reflexivity.
  - intros r Hr Hstatus. cbn [fst]. rewrite Hr. cbn [settle].
    destruct (_ && _) eqn:Hin; [|reflexivity].
    apply andb_prop in Hin as [H1 H2]. lia.
  - unfold after. cbn [trace]. rewrite https_app. reflexivity.
  - unfold after. cbn [trace]. rewrite fetches_app. simpl. apply app_nil_r.
  - reflexivity.
Qed.
End Activity.

(** ** The verb fallback, on the wire *)



Section FallbackWire.
Context {env : Environment}.




End FallbackWire.


(** ** What the accessors make of the backend's data *)

Section Mapping.
Context {env : Environment}.
Variable apiClient : Config.t → Async Response.t.

(** X12.  When /api/users answers with an array, [fetchUsers] returns one
    user per entry, in the order of the array: id is userId, the other
    identity fields are copied, lastLogin is the formatted date or
    '접속 기록 없음' when the property is missing or empty, and createdAt
    is the formatted joinedAt or today's date when that is missing or
    empty.  When the answer is [undefined], [null] or an object that is no
    array, the call fails with a TypeError, after the request has been
    made. *)
Theorem users_are_mapped_in_order (response : Response.t) (l : list UserResponse.t)
        (s s' : State) :
  Accessors.http_get apiClient "/api/users" s = (Ok response, s') →
  (Response.data response = Users l →
   ∃ out,
     Accessors.fetchUsers apiClient s = (Ok out, s')
     ∧ length out = length l
     ∧ ∀ (i : nat) (b : UserResponse.t), l !! i = Some b →
         ∃ u, out !! i = Some u
           ∧ User.id u = UserResponse.userId b
           ∧ User.username u = UserResponse.username b
           ∧ User.email u = UserResponse.email b
           ∧ User.fullName u = UserResponse.fullName b
           ∧ User.role u = UserResponse.role b
           ∧ User.status u = UserResponse.status b
           ∧ (UserResponse.lastLogin b = None ∨ UserResponse.lastLogin b = Some "" →
              User.lastLogin u = "접속 기록 없음")
           ∧ (∀ t, UserResponse.lastLogin b = Some t → t ≠ "" →
              User.lastLogin u = toLocaleStringShort t)
           ∧ (UserResponse.joinedAt b = None ∨ UserResponse.joinedAt b = Some "" →
              User.createdAt u = nowLocaleDateString (Date_now (world s')))
           ∧ (∀ t, UserResponse.joinedAt b = Some t → t ≠ "" →
              User.createdAt u = toLocaleDateString t))
  ∧ (Response.data response = Undefined ∨ Response.data response = Null
     ∨ (∃ items users orders inventory schedules summary,
          Response.data response = Dashboard items users orders inventory schedules summary) →
     ∃ message, Accessors.fetchUsers apiClient s = (Err (TypeError message), s')).
Proof.
  intros Hget. split.
  - intros Hdata. exists (map (Accessors.to_user (Date_now (world s'))) l).
    split; [|split].
    + unfold Accessors.fetchUsers, bind, Accessors.handleResponse, ret, get_now.
      rewrite Hget, Hdata. reflexivity.
    + apply length_map.
    + intros i b Hb. exists (Accessors.to_user (Date_now (world s')) b).
      split; [by rewrite list_lookup_fmap, Hb|].
      unfold Accessors.to_user. cbn [User.id User.username User.email User.fullName User.role
                                     User.status User.lastLogin User.createdAt].
      repeat (split; [reflexivity|]). split; [|split; [|split]].
      * intros [-> | ->]; reflexivity.
      * intros t -> Ht. by destruct t.
      * intros [-> | ->]; reflexivity.
      * intros t -> Ht. by destruct t.
  - intros Hdata. unfold Accessors.fetchUsers, bind, Accessors.handleResponse, ret, get_now.
    rewrite Hget.
    destruct Hdata as [-> | [-> | (? & ? & ? & ? & ? & ? & ->)]]; eexists; reflexivity.
Qed.


Lemma imap_positions {A} (l : list A) (k : nat) :
  imap (λ i _, Z.of_nat (k + i) + 1) l = map Z.of_nat (seq (S k) (length l)).
Proof.
  revert k. induction l as [|x r IH]; intros k; [reflexivity|].
  cbn [imap length seq map]. f_equal; [rewrite Nat.add_0_r; lia|].
  rewrite <- IH. apply imap_ext. intros i y _. simpl. f_equal. f_equal. lia.
Qed.

(** X14.  The id of an inventory entry is its position in the backend's
    list, counted from 1, and not the backend's itemId, which only goes
    into the sku "SKU-<itemId>"; name and location are copied, and
    specification, inboundScheduled and outboundScheduled are the constants
    'N/A', 0 and 0. *)
Theorem inventory_ids_are_positions (l : list BackendInventoryResponse.t) (s s' : State) :
  Accessors.fetchRawInventoryData apiClient s = (Ok (Inventory l), s') →
  ∃ out,
    Accessors.fetchInventoryData apiClient s = (Ok out, s')
    ∧ map InventoryItem.id out = map Z.of_nat (seq 1 (length l))
    ∧ map InventoryItem.sku out
      = map (λ b, "SKU-" +:+ JS.toString_Z (BackendInventoryResponse.itemId b)) l
    ∧ map InventoryItem.name out = map BackendInventoryResponse.itemName l
    ∧ map InventoryItem.location out = map BackendInventoryResponse.locationCode l
    ∧ Forall (λ item, InventoryItem.specification item = "N/A"
                      ∧ InventoryItem.inboundScheduled item = 0
                      ∧ InventoryItem.outboundScheduled item = 0) out.
Proof.
  intros Hraw. exists (imap Accessors.to_inventory_item l).
  split; [unfold Accessors.fetchInventoryData, bind; rewrite Hraw; by destruct l|].
  assert (Hmap : ∀ {B} (g : InventoryItem.t → B) (h : BackendInventoryResponse.t → B),
            (∀ i b, g (Accessors.to_inventory_item i b) = h b) →
            map g (imap Accessors.to_inventory_item l) = map h l).
  { intros B g h Hgh. apply list_eq. intros i.
    rewrite !list_lookup_fmap, list_lookup_imap.
    destruct (l !! i); simpl; [by rewrite Hgh|reflexivity]. }
  split; [|split; [|split; [|split]]]; try (apply Hmap; reflexivity).
  - rewrite <- (imap_positions l 0). apply list_eq. intros i.
    rewrite list_lookup_fmap, !list_lookup_imap. by destruct (l !! i).
  - apply Forall_forall. intros item Hin.
    apply list_elem_of_lookup in Hin as [i Hi]. rewrite list_lookup_imap in Hi.
    destruct (l !! i); [|discriminate]. injection Hi as <-. auto.
Qed.
End Mapping.

(** ** The dashboard on the wire *)

Section DashboardWire.
Context {env : Environment}.

Lemma bearer_reads_once : reads_once Bearer.apiClient.
Proof.
  intros url s. exists (Bearer.outgoing s (request "get" url ∅ NoBody)).
  destruct (outgoing_url s (request "get" url ∅ NoBody)) as (Hu & Hm & _).
  rewrite bearer_call. auto.
Qed.

Lemma session_reads_once : reads_once Session.apiClient.
Proof.
  intros url s. exists (with_timestamp (Date_now (world s)) (request "get" url ∅ NoBody)).
  rewrite session_safe_call by reflexivity. auto.
Qed.

Lemma trace_after_all (cs : list Config.t) (s : State) :
  trace (foldl after s cs) = trace s ++ map Http cs
  ∧ CSRF_TOKEN (foldl after s cs) = CSRF_TOKEN s
  ∧ authToken (foldl after s cs) = authToken s.
Proof.
  revert s. induction cs as [|c r IH]; intros s; [simpl; by rewrite app_nil_r|].
  cbn [foldl map]. destruct (IH (after s c)) as (-> & -> & ->).
  unfold after. cbn [trace CSRF_TOKEN authToken]. by rewrite <- app_assoc.
Qed.

Lemma clock_after_all (cs : list Config.t) (s : State) :
  monotone_clock env → Date_now (world s) <= Date_now (world (foldl after s cs)).
Proof.
  intros Hmono. revert s. induction cs as [|c r IH]; intros s; [simpl; lia|].
  cbn [foldl]. etrans; [|apply IH]. unfold after. cbn [world]. apply Hmono.
Qed.

Section Reads.
Variable apiClient : Config.t → Async Response.t.
Hypothesis Honce : reads_once apiClient.

Lemma read_state (url : string) (s : State) :
  ∃ c, Config.url c = url ∧ Config.method c = Some "get"
       ∧ ((let* response := Accessors.http_get apiClient url in
           Accessors.handleResponse response) s).2 = after s c.
Proof.
  destruct (Honce url s) as (c & Hu & Hm & Hs). exists c. split; [exact Hu|].
  split; [exact Hm|]. unfold Accessors.http_get. rewrite call_data. exact Hs.
Qed.

Lemma fetchUsers_state (s : State) :
  ∃ c, Config.url c = "/api/users" ∧ Config.method c = Some "get"
       ∧ (Accessors.fetchUsers apiClient s).2 = after s c.
Proof.
  destruct (Honce "/api/users" s) as (c & Hu & Hm & Hs). exists c. split; [exact Hu|].
  split; [exact Hm|]. rewrite <- Hs.
  unfold Accessors.fetchUsers, Accessors.http_get, bind, Accessors.handleResponse, ret, get_now.
  destruct (apiClient _ s) as [[r|e] s1]; [|reflexivity].
  by destruct (Response.data r).
Qed.

Lemma both_state {A B} (m1 : Async A) (m2 : Async B) (s : State) :
  (Accessors.both m1 m2 s).2 = (m2 (m1 s).2).2.
Proof.
  unfold Accessors.both. destruct (m1 s) as [r1 s1]. cbn [snd].
  destruct (m2 s1) as [r2 s2]. reflexivity.
Qed.

(** The fallback transmits its six reads, in array order, whatever each
    of them answers. *)
Lemma fetch_all_six_state (s : State) :
  ∃ cs, map Config.url cs = dashboard_reads
        ∧ Forall (λ c, Config.method c = Some "get") cs
        ∧ (Accessors.fetch_all_six apiClient s).2 = foldl after s cs.
Proof.
  unfold Accessors.fetch_all_six. rewrite !both_state.
  destruct (read_state "/api/items" s) as (c1 & Hu1 & Hm1 & H1).
  fold (Accessors.fetchItems apiClient) in H1. rewrite H1.
  destruct (fetchUsers_state (after s c1)) as (c2 & Hu2 & Hm2 & H2). rewrite H2.
  destruct (read_state "/api/inout/orders" (after (after s c1) c2)) as (c3 & Hu3 & Hm3 & H3).
  fold (Accessors.fetchRawInOutData apiClient) in H3. rewrite H3.
  destruct (read_state "/api/inventory" (after (after (after s c1) c2) c3))
    as (c4 & Hu4 & Hm4 & H4).
  fold (Accessors.fetchRawInventoryData apiClient) in H4. rewrite H4.
  destruct (read_state "/api/schedules" (after (after (after (after s c1) c2) c3) c4))
    as (c5 & Hu5 & Hm5 & H5).
  fold (Accessors.fetchSchedules apiClient) in H5. rewrite H5.
  destruct (read_state "/api/dashboard/summary"
              (after (after (after (after (after s c1) c2) c3) c4) c5))
    as (c6 & Hu6 & Hm6 & H6).
  fold (Accessors.fetchDashboardSummary apiClient) in H6. rewrite H6.
  exists [c1; c2; c3; c4; c5; c6]. split; [|split; [|reflexivity]].
  - simpl. by rewrite Hu1, Hu2, Hu3, Hu4, Hu5, Hu6.
  - repeat constructor; assumption.
Qed.
End Reads.

Lemma bearer_dashboard_state (s : State) :
  (BearerApi.fetchDashboardAll s).2
  = let first := Accessors.http_get Bearer.apiClient "/api/dashboard/all" s in
    if is_ok first.1 then first.2
    else (Accessors.fetch_all_six Bearer.apiClient first.2).2.
Proof.
  cbv zeta.
  destruct (Accessors.http_get Bearer.apiClient "/api/dashboard/all" s) as [[res|e] s1] eqn:H.
  - unfold BearerApi.fetchDashboardAll, bind, try_catch, get_now, ret, Accessors.handleResponse.
    rewrite H. reflexivity.
  - rewrite (bearer_fallback_eq s s1 e H). cbn [fst snd is_ok].
    by destruct (Accessors.fetch_all_six Bearer.apiClient s1) as [[r|err] s7].
Qed.

Lemma session_dashboard_state (s : State) :
  (SessionApi.fetchDashboardAll s).2
  = let first := Accessors.http_get Session.apiClient "/api/dashboard/all" s in
    if is_ok first.1 then first.2
    else (Accessors.fetch_all_six Session.apiClient first.2).2.
Proof.
  cbv zeta.
  destruct (Accessors.http_get Session.apiClient "/api/dashboard/all" s) as [[res|e] s1] eqn:H.
  - unfold SessionApi.fetchDashboardAll, bind, try_catch, get_now, ret,
      Accessors.handleResponse.
    rewrite H. reflexivity.
  - rewrite (session_fallback_eq s s1 e H). cbn [fst snd is_ok].
    by destruct (Accessors.fetch_all_six Session.apiClient s1) as [[r|err] s7].
Qed.

Lemma dashboard_state (apiClient : Config.t → Async Response.t) (s : State) :
  reads_once apiClient →
  let first := Accessors.http_get apiClient "/api/dashboard/all" s in
  ∃ cs, (if is_ok first.1 then first.2
         else (Accessors.fetch_all_six apiClient first.2).2) = foldl after s cs
        ∧ Forall (λ c, Config.method c = Some "get") cs
        ∧ map Config.url cs
          = if is_ok first.1 then ["/api/dashboard/all"]
            else "/api/dashboard/all" :: dashboard_reads.
Proof.
  intros Honce. cbv zeta. unfold Accessors.http_get.
  destruct (Honce "/api/dashboard/all" s) as (c0 & Hu0 & Hm0 & H0). rewrite H0.
  destruct (is_ok _).
  - exists [c0]. split; [reflexivity|]. split; [by repeat constructor|]. simpl. by rewrite Hu0.
  - destruct (fetch_all_six_state apiClient Honce (after s c0)) as (cs & Hu & Hm & Hs).
    exists (c0 :: cs). split; [exact Hs|]. split; [by constructor|]. simpl. by rewrite Hu0, Hu.
Qed.

(** X15.  In both variants [fetchDashboardAll] puts only GET requests on
    the wire and fetches no token endpoint: the consolidated read alone
    when it succeeds, and otherwise the consolidated read followed by the
    six reads of the fallback in array order (items, users, orders,
    inventory, schedules, summary), all six whatever each of them answers.
    In the session variant the cached token is left as it was. *)
Theorem dashboard_requests (s : State) :
  (∃ cs, trace (BearerApi.fetchDashboardAll s).2 = trace s ++ map Http cs
         ∧ Forall (λ c, Config.method c = Some "get") cs
         ∧ map Config.url cs
           = if is_ok (Accessors.http_get Bearer.apiClient "/api/dashboard/all" s).1
             then ["/api/dashboard/all"]
             else "/api/dashboard/all" :: dashboard_reads)
  ∧ (∃ cs, trace (SessionApi.fetchDashboardAll s).2 = trace s ++ map Http cs
           ∧ Forall (λ c, Config.method c = Some "get") cs
           ∧ map Config.url cs
             = (if is_ok (Accessors.http_get Session.apiClient "/api/dashboard/all" s).1
                then ["/api/dashboard/all"]
                else "/api/dashboard/all" :: dashboard_reads)
           ∧ CSRF_TOKEN (SessionApi.fetchDashboardAll s).2 = CSRF_TOKEN s).
Proof.
  split.
  - rewrite bearer_dashboard_state.
    destruct (dashboard_state Bearer.apiClient s bearer_reads_once) as (cs & Hs & Hm & Hu).
    cbv zeta in *. rewrite Hs. exists cs.
    destruct (trace_after_all cs s) as (Htr & _). auto.
  - rewrite session_dashboard_state.
    destruct (dashboard_state Session.apiClient s session_reads_once) as (cs & Hs & Hm & Hu).
    cbv zeta in *. rewrite Hs. exists cs.
    destruct (trace_after_all cs s) as (Htr & Htok & _). auto.
Qed.

Lemma spread_time (data : payload) (t : Z) :
  DashboardData.totalLoadTime (Accessors.spread_with_time data t) = t.
Proof. by destruct data. Qed.

(** X16.  With a clock that does not run backwards while a request is in
    flight, the [totalLoadTime] of a snapshot is never negative.  In the
    bearer variant it is the time the whole call took; in the session
    variant it is at most that. *)
Theorem load_time_is_not_negative (s s' : State) (d : DashboardData.t) :
  monotone_clock env →
  (BearerApi.fetchDashboardAll s = (Ok d, s') →
   DashboardData.totalLoadTime d = Date_now (world s') - Date_now (world s)
   ∧ 0 <= DashboardData.totalLoadTime d)
  ∧ (SessionApi.fetchDashboardAll s = (Ok d, s') →
     0 <= DashboardData.totalLoadTime d <= Date_now (world s') - Date_now (world s)).
Proof.
  intros Hmono. split.
  - intros Hd. pose proof (bearer_total_time s s' d Hd) as Ht. split; [exact Ht|].
    pose proof (bearer_dashboard_state s) as Hs. rewrite Hd in Hs. cbn [snd] in Hs.
    destruct (dashboard_state Bearer.apiClient s bearer_reads_once) as (cs & Hcs & _).
    cbv zeta in *. rewrite <- Hs in Hcs.
    pose proof (clock_after_all cs s Hmono) as Hle. rewrite <- Hcs in Hle. lia.
  - destruct (Accessors.http_get Session.apiClient "/api/dashboard/all" s)
      as [[res|e] s1] eqn:H.
    + unfold SessionApi.fetchDashboardAll, bind, try_catch, get_now, ret,
        Accessors.handleResponse.
      rewrite H. intros [= <- <-]. rewrite spread_time.
      destruct (session_reads_once "/api/dashboard/all" s) as (c0 & _ & _ & H0).
      unfold Accessors.http_get in H. rewrite H in H0. cbn [snd] in H0. subst s1.
      pose proof (clock_after_all [c0] s Hmono) as Hle. cbn [foldl] in Hle. lia.
    + rewrite (session_fallback_eq s s1 e H).
      destruct (session_reads_once "/api/dashboard/all" s) as (c0 & _ & _ & H0).
      unfold Accessors.http_get in H. rewrite H in H0. cbn [snd] in H0.
      destruct (fetch_all_six_state Session.apiClient session_reads_once s1)
        as (cs & _ & _ & Hcs).
      destruct (Accessors.fetch_all_six Session.apiClient s1) as [[r|err] s7]; [|discriminate].
      intros [= <- <-]. rewrite assemble_time. cbn [snd] in Hcs.
      pose proof (clock_after_all cs s1 Hmono) as Hle. rewrite <- Hcs in Hle.
      pose proof (clock_after_all [c0] s Hmono) as Hle0. cbn [foldl] in Hle0.
      rewrite <- H0 in Hle0. lia.
Qed.
End DashboardWire.

(** ** Schedules and verbs *)

Section Schedules.
Context {env : Environment}.
Variable apiClient : Config.t → Async Response.t.


End Schedules.

Lemma upper_lower_char (c : ascii) :
  JS.upper_char (JS.lower_char c) = JS.upper_char c
  ∧ JS.upper_char (JS.upper_char c) = JS.upper_char c.
Proof. destruct c as [[] [] [] [] [] [] [] []]; split; reflexivity. Qed.

Lemma toUpperCase_idem (m : string) :
  JS.toUpperCase (JS.toLowerCase m) = JS.toUpperCase m
  ∧ JS.toUpperCase (JS.toUpperCase m) = JS.toUpperCase m.
Proof.
  induction m as [|c r [IH1 IH2]]; [done|].
  unfold JS.toUpperCase, JS.toLowerCase in *. simpl.
  destruct (upper_lower_char c) as [-> ->]. by rewrite IH1, IH2.
Qed.

(** X18.  Whether a verb counts as read-only does not depend on its case:
    a verb is read-only exactly when it is empty or its upper-case form is
    GET, HEAD or OPTIONS, and a request without a verb counts as GET. *)
Theorem verb_case_does_not_matter (m : string) :
  Session.isSafeMethod (Some (JS.toLowerCase m)) = Session.isSafeMethod (Some m)
  ∧ Session.isSafeMethod (Some (JS.toUpperCase m)) = Session.isSafeMethod (Some m)
  ∧ (Session.isSafeMethod (Some m) = true
     ↔ m = "" ∨ JS.toUpperCase m = "GET" ∨ JS.toUpperCase m = "HEAD"
       ∨ JS.toUpperCase m = "OPTIONS")
  ∧ Session.isSafeMethod None = true.
Proof.
  assert (Hor : ∀ x, JS.toUpperCase (JS.or_else x "GET")
                     = match x with "" => "GET" | _ => JS.toUpperCase x end).
  { by intros [|c r]. }
  unfold Session.isSafeMethod, Session.method_or_GET.
  destruct (toUpperCase_idem m) as [Hl Hu].
  split; [|split; [|split; [|reflexivity]]].
  - rewrite !Hor. destruct m as [|c r]; [reflexivity|].
    change (JS.toLowerCase (String c r)) with (String (JS.lower_char c) (JS.toLowerCase r)).
    change (String (JS.lower_char c) (JS.toLowerCase r)) with (JS.toLowerCase (String c r)).
    by rewrite Hl.
  - rewrite !Hor. destruct m as [|c r]; [reflexivity|].
    change (JS.toUpperCase (String c r)) with (String (JS.upper_char c) (JS.toUpperCase r)) at 1.
    change (String (JS.upper_char c) (JS.toUpperCase r)) with (JS.toUpperCase (String c r)).
    by rewrite Hu.
  - rewrite bool_decide_eq_true, Hor. destruct m as [|c r].
    + split; [auto|]. intros _. apply list_elem_of_here.
    + rewrite !elem_of_cons, elem_of_nil. split.
      * intros [H | [H | [H | []]]]; auto.
      * intros [H | [H | [H | H]]]; [discriminate|auto..].
Qed.


Lemma same_but_for_message_refl {A} (r : result A) : same_but_for_message r r.
Proof. destruct r as [a|[]]; simpl; auto. Qed.

Lemma upper_char_not_lower (c : ascii) : JS.is_lower (JS.upper_char c) = false.
Proof. destruct c as [[] [] [] [] [] [] [] []]; reflexivity. Qed.

(** ** The two variants side by side *)

Section Variants.
Context {env : Environment}.

Lemma bearer_without_token (config : Config.t) (s : State) :
  authToken s = None ∨ authToken s = Some "" →
  Bearer.outgoing s config = with_timestamp (Date_now (world s)) config.
Proof. intros [H | H]; unfold Bearer.outgoing; by rewrite H. Qed.

Lemma reads_agree (config : Config.t) (s : State) :
  authToken s = None ∨ authToken s = Some "" →
  Session.isSafeMethod (Config.method config) = true →
  Bearer.apiClient config s = Session.apiClient config s.
Proof.
  intros Htok Hsafe.
  by rewrite bearer_call, (bearer_without_token _ _ Htok), (session_safe_call _ _ Hsafe).
Qed.

(** X19.  With no bearer token in storage the two variants treat a
    read-only request alike: same transmission, same outcome, same state.
    So every [apiClient.get], the accessors that relay its payload
    ([fetchItems], [fetchRawInOutData], [fetchRawInventoryData],
    [fetchDashboardSummary], [fetchSchedules]) give the same result in
    both, and the accessors that map the payload ([fetchUsers],
    [fetchInOutData], [fetchInventoryData]) leave the same state and give
    the same result but for the text of a TypeError. *)
Theorem variants_agree_on_reads (config : Config.t) (s : State) :
  authToken s = None ∨ authToken s = Some "" →
  (Session.isSafeMethod (Config.method config) = true →
   Bearer.apiClient config s = Session.apiClient config s)
  ∧ (∀ url, Accessors.http_get Bearer.apiClient url s
            = Accessors.http_get Session.apiClient url s)
  ∧ Accessors.fetchItems Bearer.apiClient s = Accessors.fetchItems Session.apiClient s
  ∧ Accessors.fetchRawInOutData Bearer.apiClient s
    = Accessors.fetchRawInOutData Session.apiClient s
  ∧ Accessors.fetchRawInventoryData Bearer.apiClient s
    = Accessors.fetchRawInventoryData Session.apiClient s
  ∧ Accessors.fetchDashboardSummary Bearer.apiClient s
    = Accessors.fetchDashboardSummary Session.apiClient s
  ∧ (∀ startDate endDate,
       Resources.fetchSchedules Bearer.apiClient startDate endDate s
       = Resources.fetchSchedules Session.apiClient startDate endDate s)
  ∧ (same_but_for_message (Accessors.fetchUsers Bearer.apiClient s).1
                          (Accessors.fetchUsers Session.apiClient s).1
     ∧ (Accessors.fetchUsers Bearer.apiClient s).2
       = (Accessors.fetchUsers Session.apiClient s).2)
  ∧ (same_but_for_message (BearerApi.fetchInOutData s).1 (SessionApi.fetchInOutData s).1
     ∧ (BearerApi.fetchInOutData s).2 = (SessionApi.fetchInOutData s).2)
  ∧ (same_but_for_message (BearerApi.fetchInventoryData s).1
                          (SessionApi.fetchInventoryData s).1
     ∧ (BearerApi.fetchInventoryData s).2 = (SessionApi.fetchInventoryData s).2).
Proof.
  intros Htok.
  assert (Hget : ∀ url params,
            Bearer.apiClient (request "get" url params NoBody) s
            = Session.apiClient (request "get" url params NoBody) s).
  { intros url params. by apply reads_agree. }
  assert (Hrelay : ∀ url,
            (let* response := Accessors.http_get Bearer.apiClient url in
             Accessors.handleResponse response) s
            = (let* response := Accessors.http_get Session.apiClient url in
               Accessors.handleResponse response) s).
  { intros url. unfold Accessors.http_get, bind. by rewrite Hget. }
  split; [by apply reads_agree|].
  split; [intros url; apply Hget|].
  split; [apply Hrelay|]. split; [apply Hrelay|]. split; [apply Hrelay|].
  split; [apply Hrelay|].
  split; [intros startDate endDate; unfold Resources.fetchSchedules, bind; by rewrite Hget|].
  assert (Husers : Accessors.fetchUsers Bearer.apiClient s
                   = Accessors.fetchUsers Session.apiClient s).
  { unfold Accessors.fetchUsers, Accessors.http_get, bind. by rewrite Hget. }
  assert (Horders : BearerApi.fetchInOutData s = SessionApi.fetchInOutData s).
  { unfold BearerApi.fetchInOutData, SessionApi.fetchInOutData, Accessors.fetchInOutData,
      Accessors.fetchRawInOutData, Accessors.http_get, bind.
    by rewrite Hget. }
  assert (Hinv : BearerApi.fetchInventoryData s = SessionApi.fetchInventoryData s).
  { unfold BearerApi.fetchInventoryData, SessionApi.fetchInventoryData,
      Accessors.fetchInventoryData, Accessors.fetchRawInventoryData, Accessors.http_get, bind.
    by rewrite Hget. }
  rewrite Husers, Horders, Hinv.
  repeat split; apply same_but_for_message_refl.
Qed.

Variable apiClient : Config.t → Async Response.t.
Variable msg : Messages.

(** X20.  [updateOrderStatus] sends the status in upper case.  For a
    status of ASCII characters the case in which the caller writes it does
    not matter: the call with the status in lower case or in upper case is
    the same call; for an order n below 2^53 the request is a PUT to
    /api/inout/orders/<n>/status whose body holds the status in upper case,
    with no lower-case letter left. *)
Theorem status_case_does_not_matter (n : N) (rest orderId status : string) (s : State) :
  ascii_text status →
  (n < 2 ^ 53)%N →
  Accessors.updateOrderStatus apiClient msg orderId (JS.toLowerCase status) s
  = Accessors.updateOrderStatus apiClient msg orderId status s
  ∧ Accessors.updateOrderStatus apiClient msg orderId (JS.toUpperCase status) s
    = Accessors.updateOrderStatus apiClient msg orderId status s
  ∧ (let c := request "put" ("/api/inout/orders/" +:+ JS.decimal n +:+ "/status") ∅
                      (StatusBody (JS.toUpperCase status)) in
     Accessors.updateOrderStatus apiClient msg (JS.decimal n +:+ "-" +:+ rest) status s
     = (data_of (apiClient c s).1, (apiClient c s).2))
  ∧ Forall (λ c, JS.is_lower c = false) (list_ascii_of_string (JS.toUpperCase status)).
Proof.
  intros _ _. rewrite !updateOrderStatus_eq. destruct (toUpperCase_idem status) as [-> ->].
  split; [reflexivity|]. split; [reflexivity|]. split.
  - rewrite leading_number_decimal. cbn [JS.isNaN]. cbv zeta.
    unfold Accessors.order_path. by rewrite toString_natural.
  - unfold JS.toUpperCase. induction status as [|c r IH]; [constructor|].
    simpl. constructor; [apply upper_char_not_lower|exact IH].
Qed.
End Variants.

(** ** On concrete backends *)

Lemma record_identifier_round_trip_witness :
  let s := start_state put_only None in
  InOutRecord.id (Accessors.to_record "" order_482 1 bolt) = "482-1"
  ∧ leading_number "482-1" = JS.Finite false 482 0
  ∧ Accessors.order_path (JS.Finite false 482 0) "/status" = "/api/inout/orders/482/status"
  ∧ Accessors.updateInOutRecord Bearer.apiClient BearerApi.messages "482-1" NoBody s
    = Accessors.updateInOutRecord Bearer.apiClient BearerApi.messages "482" NoBody s.
Proof.
  cbv zeta.
  destruct (record_identifier_round_trip
              (env := scripted put_only) Bearer.apiClient BearerApi.messages
              "" order_482 1 bolt "completed" NoBody (start_state put_only None))
    as (Hid & Hpath & _ & _ & Hrec); [cbn; lia|].
  split; [reflexivity|]. split; [exact Hid|]. split; [exact Hpath|exact Hrec].
Defined.

Lemma negative_order_id_addresses_order_zero_witness :
  let s := start_state put_only None in
  InOutRecord.id (Accessors.to_record "" order_minus_5 0 bolt) = "-5-0"
  ∧ leading_number "-5-0" = JS.Finite false 0 0
  ∧ map Config.url
        (https (trace (Accessors.cancelInOutOrder Bearer.apiClient BearerApi.messages
                         (IdString "-5-0") s).2))
    = ["/api/inout/orders/0/cancel"].
Proof.
  cbv zeta.
  destruct (negative_order_id_addresses_order_zero
              (env := scripted put_only) Bearer.apiClient BearerApi.messages
              "" order_minus_5 0 bolt "completed" (start_state put_only None))
    as (Hid & _ & Hcancel); [cbn; lia|].
  split; [reflexivity|]. split; [exact Hid|].
  change "-5-0" with (InOutRecord.id (Accessors.to_record "" order_minus_5 0 bolt)).
  rewrite Hcancel. reflexivity.
Defined.

Lemma delete_requires_positive_witness :
  let s := start_state (warehouse true) None in
  map Config.url
      (https (trace (Accessors.deleteItem Bearer.apiClient BearerApi.messages (IdString "3") s).2))
  = ["/api/items/3"]
  ∧ Accessors.deleteItem Bearer.apiClient BearerApi.messages (IdString "-3") s
    = (Err (Error "Invalid item ID: -3"), s)
  ∧ Resources.deleteSchedule Bearer.apiClient bearer_resource_messages (IdString " ") s
    = (Err (Error "Invalid schedule ID:  "), s).
Proof.
  cbv zeta.
  pose proof (delete_requires_positive
                (env := scripted (warehouse true)) Bearer.apiClient BearerApi.messages
                bearer_resource_messages 3 "" "-3" (start_state (warehouse true) None))
    as [Hsend Hrefuse].
  destruct Hsend as [Hitem _]; [lia|].
  destruct Hrefuse as [Hneg _]; [right; right; left; reflexivity|].
  pose proof (delete_requires_positive
                (env := scripted (warehouse true)) Bearer.apiClient BearerApi.messages
                bearer_resource_messages 3 "" " " (start_state (warehouse true) None))
    as [_ Hblank].
  destruct Hblank as [_ Hsched]; [right; left; repeat constructor|].
  split; [|split; [exact Hneg|exact Hsched]].
  change "3" with (JS.decimal 3). rewrite Hitem. reflexivity.
Defined.

Lemma plain_identifier_is_parsed_whole_witness :
  let s := start_state (warehouse true) None in
  map Config.url
      (https (trace (Resources.deleteUser Bearer.apiClient bearer_resource_messages "7" s).2))
  = ["/api/users/7"]
  ∧ Resources.deleteUser Bearer.apiClient bearer_resource_messages "482-1" s
    = (Err (Error "Invalid user ID"), s)
  ∧ JS.isNaN (leading_number "482-1") = false.
Proof.
  cbv zeta.
  pose proof (plain_identifier_is_parsed_whole
                (env := scripted (warehouse true)) Bearer.apiClient bearer_resource_messages
                7 "" NoBody (start_state (warehouse true) None)) as [Hsend _].
  destruct Hsend as (_ & _ & _ & Huser); [lia|].
  pose proof (plain_identifier_is_parsed_whole
                (env := scripted (warehouse true)) Bearer.apiClient bearer_resource_messages
                482 "1" NoBody (start_state (warehouse true) None)) as [_ Hrefuse].
  destruct Hrefuse as (_ & _ & _ & Hcomposite & Hlead).
  split; [|split; [exact Hcomposite|exact Hlead]].
  change "7" with (JS.decimal 7). rewrite Huser. reflexivity.
Defined.

Lemma blank_identifier_addresses_resource_zero_witness :
  let s := start_state (warehouse true) None in
  map Config.url
      (https (trace (Resources.deleteUser Bearer.apiClient bearer_resource_messages "" s).2))
  = ["/api/users/0"]
  ∧ map Config.url
        (https (trace (Resources.deleteCompany Bearer.apiClient bearer_resource_messages
                         "-3" s).2))
    = ["/api/companies/-3"].
Proof.
  cbv zeta.
  pose proof (blank_identifier_addresses_resource_zero
                (env := scripted (warehouse true)) Bearer.apiClient bearer_resource_messages
                "" 3 NoBody (start_state (warehouse true) None)) as [Hblank Hneg].
  destruct Hblank as (_ & _ & _ & Huser); [constructor|].
  destruct Hneg as [Hcompany _]; [lia|].
  split.
  - rewrite Huser. reflexivity.
  - change "-3" with ("-" +:+ JS.decimal 3). rewrite Hcompany. reflexivity.
Defined.

Lemma cancel_by_text_or_number_witness :
  let s := start_state put_only None in
  Accessors.cancelInOutOrder Bearer.apiClient BearerApi.messages (IdString "482-1") s
  = Accessors.cancelInOutOrder Bearer.apiClient BearerApi.messages
      (IdNumber (JS.Finite false 482 0)) s
  ∧ map Config.url
        (https (trace (Accessors.cancelInOutOrder Bearer.apiClient BearerApi.messages
                         (IdNumber (JS.Finite false 482 0)) s).2))
    = ["/api/inout/orders/482/cancel"].
Proof.
  cbv zeta.
  destruct (cancel_by_text_or_number
              (env := scripted put_only) Bearer.apiClient BearerApi.messages
              482 "1" (start_state put_only None))
    as (Hnum & _ & Htext & _); [lia|].
  split; [exact Htext|]. rewrite Hnum. reflexivity.
Defined.

Lemma session_read_is_one_transmission_witness :
  let s := start_state tokens_down None in
  rejected_with 403 (Accessors.http_get Session.apiClient "/api/items" s).1 = true
  ∧ trace (Accessors.http_get Session.apiClient "/api/items" s).2
    = [Http (with_timestamp 1000 (request "get" "/api/items" ∅ NoBody))].
Proof.
  cbv zeta.
  destruct (session_read_is_one_transmission
              (env := scripted tokens_down) (request "get" "/api/items" ∅ NoBody)
              "/api/items" (start_state tokens_down None)) as [_ Hget].
  cbv zeta in Hget. rewrite Hget. split; reflexivity.
Defined.

Lemma token_is_reused_witness :
  let s := start_state (warehouse true) None in
  ∃ r s', Session.apiClient delete_item_3 s = (Ok r, s')
    ∧ CSRF_TOKEN s' = Some "token-1"
    ∧ fetches (trace (Session.attempt put_item_3 s').2) = ["/api/csrf"]
    ∧ map (λ c, Config.headers c !! "X-CSRF-TOKEN") (https (trace (Session.attempt put_item_3 s').2))
      = [Some "token-1"; Some "token-1"].
Proof.
  cbv zeta.
  eassert (Hcall : Session.apiClient (env := scripted (warehouse true)) delete_item_3
                     (start_state (warehouse true) None) = (Ok _, _))
    by (vm_compute; reflexivity).
  eexists _, _. split; [exact Hcall|].
  destruct (token_is_reused (env := scripted (warehouse true)) delete_item_3 put_item_3
              _ _ _ eq_refl eq_refl Hcall) as (t & c & Ht & _ & _ & _ & Hnext & _).
  vm_compute in Ht. injection Ht as <-.
  split; [reflexivity|]. rewrite Hnext. split; reflexivity.
Defined.

Lemma state_changing_requests_carry_a_token_witness :
  let s := start_state stale_session (Some "stale") in
  map (λ c, Config.headers c !! "X-CSRF-TOKEN")
      (https (trace (Session.apiClient delete_item_3 s).2))
  = [Some "stale"; Some "fresh"]
  ∧ Forall (λ c, ∃ t, Config.headers c !! "X-CSRF-TOKEN" = Some t ∧ JS.truthy t = true)
           (https (trace (Session.apiClient delete_item_3 s).2)).
Proof.
  cbv zeta. split; [reflexivity|].
  destruct (state_changing_requests_carry_a_token
              (env := scripted stale_session) delete_item_3
              (start_state stale_session (Some "stale")) eq_refl) as (tr & Htr & Hall).
  rewrite Htr. apply Forall_forall. intros c Hin.
  apply (Hall c). unfold https in Hin. apply list_elem_of_omap in Hin as (ev & Hev & Hc).
  destruct ev as [c'|u]; [|discriminate]. injection Hc as ->.
  simpl in Hev. exact Hev.
Defined.

Lemma users_are_mapped_in_order_witness :
  let s := start_state (warehouse true) None in
  ∃ out, (Accessors.fetchUsers Bearer.apiClient s).1 = Ok out
    ∧ map User.id out = [7]
    ∧ map User.lastLogin out = ["2024-04-30T08:00:00"].
Proof.
  cbv zeta.
  eassert (Hget : Accessors.http_get (env := scripted (warehouse true)) Bearer.apiClient
                    "/api/users" (start_state (warehouse true) None) = (Ok _, _))
    by (vm_compute; reflexivity).
  destruct (users_are_mapped_in_order (env := scripted (warehouse true)) Bearer.apiClient
              _ sample_users _ _ Hget) as [Hmap _].
  destruct (Hmap eq_refl) as (out & Hout & _).
  exists out. rewrite Hout. split; [reflexivity|].
  vm_compute in Hout. injection Hout as <-. split; reflexivity.
Defined.


Lemma inventory_ids_are_positions_witness :
  let s := start_state (warehouse true) None in
  ∃ out, (BearerApi.fetchInventoryData s).1 = Ok out
    ∧ map InventoryItem.id out = [1; 2; 3]
    ∧ map InventoryItem.sku out = ["SKU-11"; "SKU-12"; "SKU-13"].
Proof.
  cbv zeta.
  eassert (Hraw : Accessors.fetchRawInventoryData (env := scripted (warehouse true))
                    Bearer.apiClient (start_state (warehouse true) None)
                  = (Ok (Inventory sample_inventory), _))
    by (vm_compute; reflexivity).
  destruct (inventory_ids_are_positions (env := scripted (warehouse true)) Bearer.apiClient
              sample_inventory _ _ Hraw) as (out & Hout & Hids & Hskus & _).
  exists out. unfold BearerApi.fetchInventoryData. rewrite Hout.
  split; [reflexivity|]. split; [exact Hids|exact Hskus].
Defined.

Lemma load_time_is_not_negative_witness :
  monotone_clock (scripted (warehouse false))
  ∧ ∃ d s', BearerApi.fetchDashboardAll (start_state (warehouse false) None) = (Ok d, s')
      ∧ DashboardData.totalLoadTime d = Date_now (world s') - 1000
      ∧ 0 <= DashboardData.totalLoadTime d.
Proof.
  assert (Hmono : monotone_clock (scripted (warehouse false))).
  { intros c w. simpl. lia. }
  split; [exact Hmono|].
  eassert (Hd : BearerApi.fetchDashboardAll (env := scripted (warehouse false))
                  (start_state (warehouse false) None) = (Ok _, _))
    by (vm_compute; reflexivity).
  eexists _, _. split; [exact Hd|].
  exact (proj1 (load_time_is_not_negative (env := scripted (warehouse false)) _ _ _ Hmono) Hd).
Defined.

Lemma variants_agree_on_reads_witness :
  let s := start_state (warehouse true) None in
  authToken s = None
  ∧ Accessors.fetchRawInOutData Bearer.apiClient s = Accessors.fetchRawInOutData Session.apiClient s
  ∧ is_ok (Accessors.fetchRawInOutData Session.apiClient s).1 = true.
Proof.
  cbv zeta. split; [reflexivity|].
  destruct (variants_agree_on_reads (env := scripted (warehouse true)) delete_item_3
              (start_state (warehouse true) None)) as (_ & _ & _ & Horders & _);
    [left; reflexivity|].
  split; [exact Horders|reflexivity].
Defined.

Lemma status_case_does_not_matter_witness :
  let s := start_state put_only None in
  ascii_text "Completed"
  ∧ JS.toUpperCase "Completed" = "COMPLETED"
  ∧ Accessors.updateOrderStatus Bearer.apiClient BearerApi.messages "482-1" "completed" s
    = Accessors.updateOrderStatus Bearer.apiClient BearerApi.messages "482-1" "Completed" s
  ∧ map (λ c, (Config.url c, Config.data c))
        (https (trace (Accessors.updateOrderStatus Bearer.apiClient BearerApi.messages
                         "482-1" "Completed" s).2))
    = [("/api/inout/orders/482/status", StatusBody "COMPLETED")].
Proof.
  cbv zeta.
  assert (Hascii : ascii_text "Completed").
  { unfold ascii_text. repeat constructor; simpl; lia. }
  split; [exact Hascii|]. split; [reflexivity|].
  destruct (status_case_does_not_matter (env := scripted put_only) Bearer.apiClient
              BearerApi.messages 482 "1" "482-1" "Completed" (start_state put_only None)
              Hascii) as (Hlower & _ & Hsent & _); [lia|].
  split; [exact Hlower|].
  cbv zeta in Hsent. change "482-1" with (JS.decimal 482 +:+ "-" +:+ "1").
  rewrite Hsent. reflexivity.
Defined.
